(** * A shallow embedding of [matrix.c]

    The C library keeps a matrix as a [matrix_t] object ([rows], [columns]
    and a pointer [content] to an array of row pointers), every row being a
    block obtained from [malloc].  The embedding keeps that shape: a state
    holds the [matrix_t] objects, the live heap blocks, the outcomes of the
    coming [malloc] calls, the file system and the generator behind
    [rand].  A function of the library is a state transformer that yields a
    value and a new state, or [Undef] when the C program has no defined
    behaviour (a null or dangling dereference, an access out of bounds, the
    read of a cell that was never written, a double [free]).

    The type [int] is 32 bits wide; its arithmetic is written with the
    wrap-around of two's complement made explicit ([wrap]). *)

From stdpp Require Import gmap strings list fin_maps.
From Stdlib Require Import ZArith Ascii Lia.
From Stdlib Require DecimalString DecimalPos.

Open Scope Z_scope.

(** ** Machine integers *)

Definition INT_MIN : Z := - 2 ^ 31.
Definition INT_MAX : Z := 2 ^ 31 - 1.
Definition SIZE_MOD : Z := 2 ^ 64.
Definition PTRDIFF_MAX : Z := 2 ^ 63 - 1.

(** The value an [int] expression takes after wrap-around. *)
Definition wrap (z : Z) : Z := (z + 2 ^ 31) mod 2 ^ 32 - 2 ^ 31.

Definition in_int (z : Z) : Prop := INT_MIN <= z <= INT_MAX.

(** Conversion of an [int] to [size_t]. *)
Definition to_size (z : Z) : Z := z mod SIZE_MOD.

(** ** Memory *)

Definition addr := positive.

Inductive ptr := NULL | Ptr (l : addr).

(** A cell of a block is [None] until it is written for the first time. *)
Inductive block :=
  | BPtrs (ps : list (option ptr))   (* an array of row pointers *)
  | BInts (vs : list (option Z)).    (* an array of [int] *)

Record matrix_t := Mat { rows : Z; columns : Z; content : ptr }.

Record state := State {
  objs : gmap addr matrix_t;          (* the [matrix_t] objects of the caller *)
  heap : gmap addr block;             (* the live [malloc] blocks *)
  allocs : list bool;                 (* outcomes of the coming [malloc] calls *)
  files : gmap string (list ascii);   (* the contents of the files *)
  locked : gset string;               (* paths that cannot be opened for writing *)
  seed : Z;                           (* the state of [rand] *)
  clock : Z                           (* what [time(NULL)] returns *)
}.

Global Instance ptr_eq_dec : EqDecision ptr.
Proof. solve_decision. Defined.
Global Instance block_eq_dec : EqDecision block.
Proof. solve_decision. Defined.
Global Instance matrix_t_eq_dec : EqDecision matrix_t.
Proof. solve_decision. Defined.

Definition set_objs (f : gmap addr matrix_t → gmap addr matrix_t) (s : state) : state :=
  State (f (objs s)) (heap s) (allocs s) (files s) (locked s) (seed s) (clock s).
Definition set_heap (f : gmap addr block → gmap addr block) (s : state) : state :=
  State (objs s) (f (heap s)) (allocs s) (files s) (locked s) (seed s) (clock s).
Definition set_allocs (a : list bool) (s : state) : state :=
  State (objs s) (heap s) a (files s) (locked s) (seed s) (clock s).
Definition set_files (f : gmap string (list ascii) → gmap string (list ascii)) (s : state) : state :=
  State (objs s) (heap s) (allocs s) (f (files s)) (locked s) (seed s) (clock s).
Definition set_seed (z : Z) (s : state) : state :=
  State (objs s) (heap s) (allocs s) (files s) (locked s) z (clock s).

(** ** The monad of C computations *)

Inductive res (A : Type) :=
  | Ok (a : A) (s : state)
  | Undef.
Arguments Ok {A} a s.
Arguments Undef {A}.

Definition M (A : Type) : Type := state → res A.

Definition ret {A} (a : A) : M A := λ s, Ok a s.
Definition bind {A B} (m : M A) (k : A → M B) : M B :=
  λ s, match m s with Ok a s' => k a s' | Undef => Undef end.
Definition undef {A} : M A := λ _, Undef.

Global Instance M_ret : MRet M := @ret.
Global Instance M_bind : MBind M := λ A B k m, bind m k.

(** [for (int i = 0; i < n; i++) body].  The bound is read once, when the
    loop is entered: no loop of the library writes to the field or variable
    that bounds it.  In [for_from] the body may [return]: it yields
    [Some v] to leave the function with [v] and [None] to go on. *)
Fixpoint for_from {R} (i : nat) (n : nat) (body : nat → M (option R)) : M (option R) :=
  match n with
  | O => ret None
  | S n' => r ← body i;
            match r with
            | Some v => ret (Some v)
            | None => for_from (S i) n' body
            end
  end.

Definition for_ret {R} (n : Z) (body : nat → M (option R)) : M (option R) :=
  for_from 0 (Z.to_nat n) body.

(** A loop whose body never returns. *)
Fixpoint loop_from (i : nat) (n : nat) (body : nat → M unit) : M unit :=
  match n with
  | O => ret tt
  | S n' => body i ;; loop_from (S i) n' body
  end.

Definition for_ (n : Z) (body : nat → M unit) : M unit :=
  loop_from 0 (Z.to_nat n) body.

(** *** Access to the [matrix_t] objects *)

Definition load (m : addr) : M matrix_t :=
  λ s, match objs s !! m with Some o => Ok o s | None => Undef end.

Definition store (m : addr) (o : matrix_t) : M unit :=
  λ s, match objs s !! m with
       | Some _ => Ok tt (set_objs <[m := o]> s)
       | None => Undef
       end.

Definition get_rows (m : addr) : M Z := o ← load m; ret (rows o).
Definition get_columns (m : addr) : M Z := o ← load m; ret (columns o).
Definition get_content (m : addr) : M ptr := o ← load m; ret (content o).
Definition put_rows (m : addr) (r : Z) : M unit :=
  o ← load m; store m (Mat r (columns o) (content o)).
Definition put_columns (m : addr) (c : Z) : M unit :=
  o ← load m; store m (Mat (rows o) c (content o)).
Definition put_content (m : addr) (p : ptr) : M unit :=
  o ← load m; store m (Mat (rows o) (columns o) p).

(** *** [malloc] and [free] *)

(** [malloc(n * width)] for an [int] [n]: the product is computed in
    [size_t]; a request above [PTRDIFF_MAX] is refused, every other request
    succeeds or fails as the next entry of [allocs] says (an empty list:
    it succeeds).  The new block has [size / width] cells, none written,
    and an address that no live block has. *)
Definition malloc (n : Z) (width : Z) (mk : nat → block) : M ptr :=
  λ s, let size := (to_size n * width) mod SIZE_MOD in
       let granted := match allocs s with [] => true | b :: _ => b end in
       let s1 := set_allocs (tail (allocs s)) s in
       if granted && (size <=? PTRDIFF_MAX)
       then let l := fresh (dom (heap s)) in
            Ok (Ptr l) (set_heap <[l := mk (Z.to_nat (size / width))]> s1)
       else Ok NULL s1.

(** [malloc] of an array of [n] row pointers, 8 bytes each *)
Definition malloc_ptrs (n : Z) : M ptr :=
  malloc n 8 (λ k, BPtrs (replicate k None)).

(** [malloc] of an array of [n] values of type [int], 4 bytes each *)
Definition malloc_ints (n : Z) : M ptr :=
  malloc n 4 (λ k, BInts (replicate k None)).

(** [free(p)]: nothing for a null pointer, undefined for a pointer that is
    not a live block. *)
Definition free (p : ptr) : M unit :=
  match p with
  | NULL => ret tt
  | Ptr l => λ s, match heap s !! l with
                  | Some _ => Ok tt (set_heap (delete l) s)
                  | None => Undef
                  end
  end.

(** [p[i]] for [p] an array of row pointers *)
Definition read_ptr (p : ptr) (i : nat) : M ptr :=
  match p with
  | NULL => undef
  | Ptr l => λ s, match heap s !! l with
                  | Some (BPtrs ps) =>
                      match ps !! i with
                      | Some (Some q) => Ok q s
                      | _ => Undef
                      end
                  | _ => Undef
                  end
  end.

(** [p[i] = q] for [p] an array of row pointers *)
Definition write_ptr (p : ptr) (i : nat) (q : ptr) : M unit :=
  match p with
  | NULL => undef
  | Ptr l => λ s, match heap s !! l with
                  | Some (BPtrs ps) =>
                      if decide (i < length ps)%nat
                      then Ok tt (set_heap <[l := BPtrs (<[i := Some q]> ps)]> s)
                      else Undef
                  | _ => Undef
                  end
  end.

(** [p[j]] for [p] an array of [int] *)
Definition read_int (p : ptr) (j : nat) : M Z :=
  match p with
  | NULL => undef
  | Ptr l => λ s, match heap s !! l with
                  | Some (BInts vs) =>
                      match vs !! j with
                      | Some (Some v) => Ok v s
                      | _ => Undef
                      end
                  | _ => Undef
                  end
  end.

(** [p[j] = v] for [p] an array of [int] *)
Definition write_int (p : ptr) (j : nat) (v : Z) : M unit :=
  match p with
  | NULL => undef
  | Ptr l => λ s, match heap s !! l with
                  | Some (BInts vs) =>
                      if decide (j < length vs)%nat
                      then Ok tt (set_heap <[l := BInts (<[j := Some v]> vs)]> s)
                      else Undef
                  | _ => Undef
                  end
  end.

(** [m->content[i][j]] *)
Definition read_elem (m : addr) (i j : nat) : M Z :=
  p ← get_content m; q ← read_ptr p i; read_int q j.

(** [m->content[i][j] = v] *)
Definition write_elem (m : addr) (i j : nat) (v : Z) : M unit :=
  p ← get_content m; q ← read_ptr p i; write_int q j v.

(** ** The library *)

(** The loop [for (...; i < n; ...) free(m->content[i])] of lines 20-22
    and 33-35. *)
Definition release_rows (m : addr) (n : Z) : M unit :=
  for_ n (λ j, p ← get_content m; q ← read_ptr p j; free q).

(** The body of the loop of [matrix_allocate], lines 17-25: [Some (-1)]
    when it returns. *)
Definition alloc_row (m : addr) (columns : Z) (i : nat) : M (option Z) :=
  q ← malloc_ints columns;
  p ← get_content m;
  write_ptr p i q ;;
  if decide (q = NULL) then
    release_rows m (Z.of_nat i) ;;
    p ← get_content m;
    free p ;;
    ret (Some (-1))
  else ret None.

(** [matrix_allocate], lines 9-28. *)
Definition matrix_allocate (m : addr) (rows columns : Z) : M Z :=
  put_rows m rows ;;
  put_columns m columns ;;
  p ← malloc_ptrs rows;
  put_content m p ;;
  p ← get_content m;
  if decide (p = NULL) then ret (-1)
  else
    r ← for_ret rows (alloc_row m columns);
    match r with
    | Some v => ret v
    | None => ret 0
    end.

(** [matrix_free], lines 31-41. *)
Definition matrix_free (m : addr) : M unit :=
  p ← get_content m;
  (if decide (p ≠ NULL) then
     n ← get_rows m;
     release_rows m n ;;
     p ← get_content m;
     free p ;;
     put_content m NULL
   else ret tt) ;;
  put_rows m 0 ;;
  put_columns m 0.

(** [matrix_init_n], lines 44-50. *)
Definition matrix_init_n (m : addr) (n : Z) : M unit :=
  r ← get_rows m;
  for_ r (λ i,
    c ← get_columns m;
    for_ c (λ j, write_elem m i j n)).

(** [matrix_init_zeros], lines 53-55. *)
Definition matrix_init_zeros (m : addr) : M unit := matrix_init_n m 0.

(** [matrix_init_identity], lines 58-67. *)
Definition matrix_init_identity (m : addr) : M Z :=
  r ← get_rows m;
  c ← get_columns m;
  if decide (r ≠ c) then ret (-1)
  else
    matrix_init_zeros m ;;
    r ← get_rows m;
    for_ r (λ i, write_elem m i i 1) ;;
    ret 0.

(** [srand] and [rand]: the generator that the C standard gives as its
    example, on a 64-bit [unsigned long]. *)
Definition RAND_MAX : Z := 32767.
Definition srand (z : Z) : M unit := λ s, Ok tt (set_seed z s).
Definition rand : M Z :=
  λ s, let next := (seed s * 1103515245 + 12345) mod SIZE_MOD in
       Ok ((next / 65536) mod 32768) (set_seed next s).
Definition time : M Z := λ s, Ok (clock s) s.

(** [matrix_init_rand], lines 70-81.  A remainder by zero has no defined
    behaviour. *)
Definition matrix_init_rand (m : addr) (val_min val_max : Z) : M Z :=
  if decide (val_min > val_max) then ret (-1)
  else
    t ← time;
    srand (t mod 2 ^ 32) ;;
    r ← get_rows m;
    for_ r (λ i,
      c ← get_columns m;
      for_ c (λ j,
        v ← rand;
        let d := wrap (wrap (val_max - val_min) + 1) in
        if decide (d = 0) then undef
        else write_elem m i j (wrap (val_min + Z.rem v d)))) ;;
    ret 0.

(** [matrix_equal], lines 84-96. *)
Definition matrix_equal (m1 m2 : addr) : M Z :=
  r1 ← get_rows m1;
  r2 ← get_rows m2;
  c1 ← get_columns m1;
  c2 ← get_columns m2;
  if decide (r1 ≠ r2 ∨ c1 ≠ c2) then ret 0
  else
    r ← for_ret r1 (λ i,
          c ← get_columns m1;
          for_ret c (λ j,
            a ← read_elem m1 i j;
            b ← read_elem m2 i j;
            if decide (a ≠ b) then ret (Some 0) else ret None));
    match r with
    | Some v => ret v
    | None => ret 1
    end.

(** [matrix_sum], lines 99-112. *)
Definition matrix_sum (m1 m2 result : addr) : M Z :=
  r1 ← get_rows m1;
  r2 ← get_rows m2;
  c1 ← get_columns m1;
  c2 ← get_columns m2;
  if decide (r1 ≠ r2 ∨ c1 ≠ c2) then ret (-1)
  else
    rc ← matrix_allocate result r1 c1;
    if decide (rc ≠ 0) then ret (-1)
    else
      r ← get_rows m1;
      for_ r (λ i,
        c ← get_columns m1;
        for_ c (λ j,
          a ← read_elem m1 i j;
          b ← read_elem m2 i j;
          write_elem result i j (wrap (a + b)))) ;;
      ret 0.

(** [matrix_scalar_product], lines 115-125. *)
Definition matrix_scalar_product (m : addr) (scalar : Z) (result : addr) : M Z :=
  r0 ← get_rows m;
  c0 ← get_columns m;
  rc ← matrix_allocate result r0 c0;
  if decide (rc ≠ 0) then ret (-1)
  else
    r ← get_rows m;
    for_ r (λ i,
      c ← get_columns m;
      for_ c (λ j,
        a ← read_elem m i j;
        write_elem result i j (wrap (a * scalar)))) ;;
    ret 0.

(** [matrix_transposition], lines 128-138. *)
Definition matrix_transposition (m result : addr) : M Z :=
  c0 ← get_columns m;
  r0 ← get_rows m;
  rc ← matrix_allocate result c0 r0;
  if decide (rc ≠ 0) then ret (-1)
  else
    r ← get_rows m;
    for_ r (λ i,
      c ← get_columns m;
      for_ c (λ j,
        a ← read_elem m i j;
        write_elem result j i a)) ;;
    ret 0.

(** [matrix_product], lines 141-157. *)
Definition matrix_product (m1 m2 result : addr) : M Z :=
  c1 ← get_columns m1;
  r2 ← get_rows m2;
  if decide (c1 ≠ r2) then ret (-1)
  else
    r1 ← get_rows m1;
    c2 ← get_columns m2;
    rc ← matrix_allocate result r1 c2;
    if decide (rc ≠ 0) then ret (-1)
    else
      r ← get_rows m1;
      for_ r (λ i,
        c ← get_columns m2;
        for_ c (λ j,
          write_elem result i j 0 ;;
          n ← get_columns m1;
          for_ n (λ k,
            acc ← read_elem result i j;
            a ← read_elem m1 i k;
            b ← read_elem m2 k j;
            write_elem result i j (wrap (acc + wrap (a * b)))))) ;;
      ret 0.

(** ** Text files *)

Definition NUL : ascii := "000"%char.
Definition newline : ascii := "010"%char.
Definition space : ascii := " "%char.

(** [fopen(path, "w")]: fails on a locked path, else the file is emptied. *)
Definition fopen_w (path : string) : M bool :=
  λ s, if decide (path ∈ locked s) then Ok false s
       else Ok true (set_files <[path := []]> s).

(** What a [fprintf] call adds to the file. *)
Definition fputs (path : string) (text : list ascii) : M unit :=
  λ s, Ok tt (set_files <[path := default [] (files s !! path) ++ text]> s).

(** [fopen(path, "r")] yields the contents of the file when it exists. *)
Definition fopen_r (path : string) : M (option (list ascii)) :=
  λ s, Ok (files s !! path) s.

(** The conversion [%d] of [printf]. *)
Definition fmt_d (v : Z) : list ascii :=
  String.list_ascii_of_string (DecimalString.NilZero.string_of_int (Z.to_int v)).

(** [matrix_dump_file], lines 160-173. *)
Definition matrix_dump_file (m : addr) (output_file : string) : M Z :=
  ok ← fopen_w output_file;
  if negb ok then ret (-1)
  else
    r ← get_rows m;
    for_ r (λ i,
      c ← get_columns m;
      for_ c (λ j,
        v ← read_elem m i j;
        fputs output_file (fmt_d v ++ [space])) ;;
      fputs output_file [newline]) ;;
    ret 0.

(** [fgets(line, size, file)] reads at most [size - 1] characters and stops
    after a newline; it yields the characters read and the rest of the
    stream, and nothing at the end of the file. *)
Fixpoint fgets_take (n : nat) (s : list ascii) : list ascii * list ascii :=
  match n, s with
  | S n', c :: s' =>
      if decide (c = newline) then ([c], s')
      else let '(l, r) := fgets_take n' s' in (c :: l, r)
  | _, _ => ([], s)
  end.

Definition fgets (size : nat) (s : list ascii) : option (list ascii * list ascii) :=
  match s with
  | [] => None
  | _ => Some (fgets_take (size - 1) s)
  end.

(** The string that a buffer holds: its characters up to the first NUL. *)
Fixpoint c_string (buf : list ascii) : list ascii :=
  match buf with
  | [] => []
  | c :: buf' => if decide (c = NUL) then [] else c :: c_string buf'
  end.

(** The lines that [while (fgets(line, sizeof(line), file))] goes through,
    [line] being an array of 1024 characters. *)
Fixpoint fgets_loop (fuel : nat) (s : list ascii) : list (list ascii) :=
  match fuel with
  | O => []
  | S fuel' =>
      match fgets 1024 s with
      | None => []
      | Some (l, rest) => c_string l :: fgets_loop fuel' rest
      end
  end.

Definition fgets_all (text : list ascii) : list (list ascii) :=
  fgets_loop (length text) text.

(** [strlen(line) == 0 || line[0] == '\n'] *)
Definition skipped (line : list ascii) : bool :=
  match line with
  | [] => true
  | c :: _ => bool_decide (c = newline)
  end.

(** [strtok_r(str, delim, &saveptr)]: the token found, if any, and the new
    value of [saveptr]. *)
Fixpoint skip_delims (delim : list ascii) (s : list ascii) : list ascii :=
  match s with
  | [] => []
  | c :: s' => if bool_decide (c ∈ delim) then skip_delims delim s' else s
  end.

Fixpoint token_end (delim : list ascii) (s : list ascii) : list ascii * list ascii :=
  match s with
  | [] => ([], [])
  | c :: s' =>
      if bool_decide (c ∈ delim) then ([], s')
      else let '(t, r) := token_end delim s' in (c :: t, r)
  end.

Definition strtok_r (str : option (list ascii)) (delim : list ascii)
    (saveptr : list ascii) : option (list ascii) * list ascii :=
  match skip_delims delim (default saveptr str) with
  | [] => (None, [])
  | s1 => let '(t, r) := token_end delim s1 in (Some t, r)
  end.

(** The tokens that the loop
    [token = strtok_r(line, " ", &saveptr); while (token) { ...;
     token = strtok_r(NULL, " ", &saveptr); }] goes through. *)
Fixpoint strtok_loop (fuel : nat) (token : option (list ascii))
    (saveptr : list ascii) : list (list ascii) :=
  match fuel, token with
  | S fuel', Some t =>
      let '(token', saveptr') := strtok_r None [space] saveptr in
      t :: strtok_loop fuel' token' saveptr'
  | _, _ => []
  end.

Definition tokens (line : list ascii) : list (list ascii) :=
  let '(token, saveptr) := strtok_r (Some line) [space] [] in
  strtok_loop (length line) token saveptr.

(** [atoi]: [strtol] in base 10, which skips white space, takes a sign and
    the digits that follow and saturates at the bounds of [long], converted
    to [int]. *)
Definition isspace (c : ascii) : bool :=
  bool_decide (c ∈ [" "; "009"; "010"; "011"; "012"; "013"]%char).

Definition digit_val (c : ascii) : option Z :=
  let n := Z.of_N (N_of_ascii c) in
  if (48 <=? n) && (n <=? 57) then Some (n - 48) else None.

Fixpoint digits_val (acc : Z) (s : list ascii) : Z :=
  match s with
  | [] => acc
  | c :: s' =>
      match digit_val c with
      | Some d => digits_val (acc * 10 + d) s'
      | None => acc
      end
  end.

Fixpoint skip_spaces (s : list ascii) : list ascii :=
  match s with
  | [] => []
  | c :: s' => if isspace c then skip_spaces s' else s
  end.

Definition LONG_MAX : Z := 2 ^ 63 - 1.
Definition LONG_MIN : Z := - 2 ^ 63.

Definition strtol (s : list ascii) : Z :=
  let v := match skip_spaces s with
           | c :: s' =>
               if decide (c = "-"%char) then - digits_val 0 s'
               else if decide (c = "+"%char) then digits_val 0 s'
               else digits_val 0 (c :: s')
           | [] => 0
           end in
  Z.max LONG_MIN (Z.min LONG_MAX v).

Definition atoi (s : list ascii) : Z := wrap (strtol s).

(** The first pass of [matrix_allocate_and_init_file], lines 185-199: the
    values of [rows] and [columns] after the loop. *)
Definition count_line (rc : Z * Z) (line : list ascii) : Z * Z :=
  let '(rows, columns) := rc in
  if skipped line then (rows, columns)
  else
    let columns' :=
      if decide (rows = 0)
      then fold_left (λ n _, wrap (n + 1)) (tokens line) columns
      else columns in
    (wrap (rows + 1), columns').

Definition first_pass (lines : list (list ascii)) : Z * Z :=
  fold_left count_line lines (0, 0).

(** An [int] used as an index: a negative one is out of bounds. *)
Definition index (z : Z) : M nat :=
  if decide (0 <= z) then ret (Z.to_nat z) else undef.

(** The inner loop of the second pass, lines 219-225. *)
Fixpoint store_tokens (m : addr) (columns row : Z) (toks : list (list ascii))
    (col : Z) : M unit :=
  match toks with
  | [] => ret tt
  | token :: toks' =>
      if decide (col < columns) then
        i ← index row;
        j ← index col;
        write_elem m i j (atoi token) ;;
        store_tokens m columns row toks' (wrap (col + 1))
      else store_tokens m columns row toks' col
  end.

(** The second pass, lines 210-227. *)
Fixpoint second_pass (m : addr) (columns : Z) (lines : list (list ascii))
    (row : Z) : M unit :=
  match lines with
  | [] => ret tt
  | line :: lines' =>
      if skipped line then second_pass m columns lines' row
      else
        store_tokens m columns row (tokens line) 0 ;;
        second_pass m columns lines' (wrap (row + 1))
  end.

(** [matrix_allocate_and_init_file], lines 175-231.  The file is read
    twice from its start ([fseek]); what [perror] prints is not part of
    the state. *)
Definition matrix_allocate_and_init_file (m : addr) (input_file : string) : M Z :=
  f ← fopen_r input_file;
  match f with
  | None => ret (-1)
  | Some text =>
      let '(rows, columns) := first_pass (fgets_all text) in
      rc ← matrix_allocate m rows columns;
      if decide (rc ≠ 0) then ret (-1)
      else
        second_pass m columns (fgets_all text) 0 ;;
        ret 0
  end.

(** ** Views of a state *)

Abbreviation cell := (option Z).

(** The cell [m->content[i][j]], when every pointer on the way to it is
    valid: [Some None] is a cell that was never written. *)
Definition peek (s : state) (m : addr) (i j : nat) : option cell :=
  match objs s !! m with
  | Some (Mat _ _ (Ptr t)) =>
      match heap s !! t with
      | Some (BPtrs ps) =>
          match ps !! i with
          | Some (Some (Ptr l)) =>
              match heap s !! l with
              | Some (BInts vs) => vs !! j
              | _ => None
              end
          | _ => None
          end
      | _ => None
      end
  | _ => None
  end.

(** The layout that [matrix_allocate] builds: a table [t] of [r] pointers
    to the distinct blocks [ls], each of [c] cells. *)
Record shape (s : state) (m : addr) (r c : Z) (t : addr) (ls : list addr) : Prop := {
  shape_obj : objs s !! m = Some (Mat r c (Ptr t));
  shape_tab : heap s !! t = Some (BPtrs ((λ l, Some (Ptr l)) <$> ls));
  shape_len : length ls = Z.to_nat r;
  shape_nodup : NoDup ls;
  shape_rows : ∀ l, l ∈ ls → ∃ vs, heap s !! l = Some (BInts vs) ∧ length vs = Z.to_nat c
}.

Definition row_loc (p : option ptr) : option addr :=
  match p with
  | Some (Ptr l) => Some l
  | _ => None
  end.

Definition row_cells (s : state) (l : addr) : option (list cell) :=
  match heap s !! l with
  | Some (BInts vs) => Some vs
  | _ => None
  end.

(** The contents of a well-formed matrix, row by row: defined when the
    object has the layout above with dimensions that an [int] holds. *)
Definition view (s : state) (m : addr) : option (list (list cell)) :=
  match objs s !! m with
  | Some (Mat r c (Ptr t)) =>
      match heap s !! t with
      | Some (BPtrs ps) =>
          ls ← mapM row_loc ps;
          g ← mapM (row_cells s) ls;
          if bool_decide (0 <= r <= INT_MAX ∧ 0 <= c <= INT_MAX ∧
                          length ls = Z.to_nat r ∧ NoDup ls ∧
                          Forall (λ vs, length vs = Z.to_nat c) g)
          then Some g else None
      | _ => None
      end
  | _ => None
  end.

(** The dimensions that the object records. *)
Definition dims (s : state) (m : addr) : option (Z * Z) :=
  (λ o, (rows o, columns o)) <$> objs s !! m.

(** A grid all of whose cells were written. *)
Definition full (G : list (list Z)) : list (list cell) := map (map Some) G.

(** The element [G[i][j]] of a grid. *)
Definition elem {A} (G : list (list A)) (i j : nat) : option A :=
  match G !! i with
  | Some row => row !! j
  | None => None
  end.

(** Two states that differ at most in the heap blocks [L]. *)
Record same_outside (L : list addr) (s s' : state) : Prop := {
  so_objs : objs s' = objs s;
  so_heap : ∀ l, l ∉ L → heap s' !! l = heap s !! l;
  so_allocs : allocs s' = allocs s;
  so_files : files s' = files s;
  so_locked : locked s' = locked s;
  so_seed : seed s' = seed s;
  so_clock : clock s' = clock s
}.

(** Every coming [malloc] is granted. *)
Definition granted (s : state) : Prop := Forall (λ b, b = true) (allocs s).

Definition next_grant (s : state) : bool :=
  match allocs s with [] => true | b :: _ => b end.

(** What does not belong to the heap, the objects or the [malloc] oracle. *)
Definition env (s : state) := (files s, locked s, seed s, clock s).

(** The state of [matrix_allocate] in its loop, [s0] being the state at the
    call: the rows [ls] are allocated, the other entries of the table [t]
    are not written yet. *)
Record alloc_inv (s0 : state) (m : addr) (r c : Z) (t : addr) (ls : list addr)
    (s : state) : Prop := {
  ai_objs : objs s = <[m := Mat r c (Ptr t)]> (objs s0);
  ai_tab : heap s !! t =
    Some (BPtrs (((λ l, Some (Ptr l)) <$> ls) ++
                 replicate (Z.to_nat r - length ls) None));
  ai_nodup : NoDup (t :: ls);
  ai_rows : ∀ l, l ∈ ls → heap s !! l = Some (BInts (replicate (Z.to_nat c) None));
  ai_fresh : ∀ l, l ∈ t :: ls → heap s0 !! l = None;
  ai_frame : ∀ l, l ∉ t :: ls → heap s !! l = heap s0 !! l;
  ai_allocs : ∃ k, allocs s = drop k (allocs s0);
  ai_env : env s = env s0;
  ai_cols : ls ≠ [] → 0 <= c
}.

(** The state in which [matrix_allocate] fails, [p] being what it leaves
    in [m->content]. *)
Record alloc_failed (s0 : state) (m : addr) (r c : Z) (p : ptr) (s : state) : Prop := {
  af_objs : objs s = <[m := Mat r c p]> (objs s0);
  af_heap : heap s = heap s0;
  af_allocs : ∃ k, allocs s = drop k (allocs s0);
  af_env : env s = env s0;
  af_why : ¬ granted s0 ∨ r < 0 ∨ c < 0
}.

(** The state of two nested loops that fill the matrix [res], [s_a] being
    the state before them: the cells [ρ i j] for [D i j] hold [f i j], the
    other cells are as in [s_a]. *)
Definition filling (s_a : state) (res : addr) (r c : Z) (t : addr) (ls : list addr)
    (ρ : nat → nat → nat * nat) (f : nat → nat → Z)
    (D : nat → nat → Prop) (s : state) : Prop :=
  same_outside ls s_a s ∧ shape s res r c t ls ∧
  (∀ i j, D i j → peek s res (ρ i j).1 (ρ i j).2 = Some (Some (f i j))) ∧
  (∀ i' j', (∀ i j, D i j → ρ i j ≠ (i', j')) → peek s res i' j' = peek s_a res i' j').

(** What an operation that builds its result in [res] leaves, [s] being
    the state at the call: the heap blocks of [s] and the objects other
    than [res] are as they were; the operation fails only if a [malloc] is
    refused, and otherwise [res] is a well-formed [r] by [c] matrix whose
    cells satisfy [P]. *)
Definition op_post (s : state) (res : addr) (r c : Z)
    (P : (nat → nat → option cell) → Prop) (rc : Z) (s' : state) : Prop :=
  heap s ⊆ heap s' ∧ (∀ m, m ≠ res → objs s' !! m = objs s !! m) ∧
  env s' = env s ∧ (∃ k, allocs s' = drop k (allocs s)) ∧
  ((rc = -1 ∧ ¬ granted s) ∨
   (rc = 0 ∧ dims s' res = Some (r, c) ∧ is_Some (view s' res) ∧ P (peek s' res))).

(** The entry [G[i][j]] of a grid of values, 0 outside of it. *)
Definition entry (G : list (list Z)) (i j : nat) : Z := default 0 (elem G i j).

(** The accumulation of [matrix_product]: the sum of the [a k * b k] for
    [k] from 0 to [n - 1], in this order, in [int] arithmetic. *)
Definition dot (a b : nat → Z) (n : nat) : Z :=
  fold_left (λ acc k, wrap (acc + wrap (a k * b k))) (seq 0 n) 0.

(** The same sum in unbounded integers. *)
Fixpoint big_sum (f : nat → Z) (n : nat) : Z :=
  match n with
  | O => 0
  | S n' => big_sum f n' + f n'
  end.

(** A position of a text at which a line starts. *)
Definition line_start (t : list ascii) : Prop := t = [] ∨ last t = Some newline.

(** The lines of a file that the parser does not skip. *)
Definition data_lines (text : list ascii) : list (list ascii) :=
  filter (λ line, skipped line = false) (fgets_all text).

(** An operation called in the state [s] with the operands [m1] and [m2]
    and the result object [result] ends, and leaves the operands as they
    were: every heap block of [s], every object other than [result], and
    so the contents of both operands. *)
Definition unmodified (s : state) (result m1 m2 : addr) (out : res Z) : Prop :=
  ∃ rc s', out = Ok rc s' ∧
    heap s ⊆ heap s' ∧ (∀ m, m ≠ result → objs s' !! m = objs s !! m) ∧
    dims s' m1 = dims s m1 ∧ view s' m1 = view s m1 ∧
    dims s' m2 = dims s m2 ∧ view s' m2 = view s m2.

(** [blank_lines_added t t']: the text [t'] is the text [t] with lines
    that hold a newline only added at places where a line starts. *)
Inductive blank_lines_added : list ascii → list ascii → Prop :=
  | bla_same t : blank_lines_added t t
  | bla_insert t u t' :
      line_start t → blank_lines_added (t ++ newline :: u) t' →
      blank_lines_added (t ++ u) t'.

(** The row that the second pass leaves for a line with the tokens [toks]
    in a matrix of [columns] columns: the values of the first [columns]
    tokens, and cells that are not written when the tokens are fewer. *)
Definition parsed_row (columns : nat) (toks : list (list ascii)) : list cell :=
  ((λ token, Some (atoi token)) <$> take columns toks) ++
  replicate (columns - length toks) None.

(** The number of columns that the first pass finds. *)
Definition first_columns (data : list (list ascii)) : nat :=
  match data with
  | [] => 0
  | line :: _ => length (tokens line)
  end.

(** What [matrix_dump_file] writes for a row and for a grid of values. *)
Definition render_row (row : list Z) : list ascii :=
  concat ((λ v, fmt_d v ++ [space]) <$> row) ++ [newline].

Definition render (G : list (list Z)) : list ascii := concat (render_row <$> G).

(** A character that is none of the space, the newline and NUL. *)
Definition printable (c : ascii) : Prop := c ≠ space ∧ c ≠ newline ∧ c ≠ NUL.

(** ** Numbers and rows as text *)

(** A string at which [strtol] stops reading digits. *)
Definition no_digit (rest : list ascii) : Prop :=
  match rest with
  | [] => True
  | c :: _ => digit_val c = None
  end.

(** Words with one space between them. *)
Fixpoint join (ws : list (list ascii)) : list ascii :=
  match ws with
  | [] => []
  | [w] => w
  | w :: ws' => w ++ space :: join ws'
  end.

(** A row of numbers as a line of text, and a grid as a text. *)
Definition plain_row (row : list Z) : list ascii := join (fmt_d <$> row) ++ [newline].

Definition plain (G : list (list Z)) : list ascii := concat (plain_row <$> G).

(** ** A state to run the library in *)

(** A line of text, with the newline that ends it. *)
Definition text_line (s : string) : list ascii :=
  String.list_ascii_of_string s ++ [newline].

(** The objects 1, 2 and 5 hold the matrices [[1, 2], [3, 4]],
    [[5, 6], [7, 8]] and [[1, 2, 3], [4, 5, 6]]; the objects 3 and 4 hold
    nothing yet. *)
Definition sample : state :=
  State
    {[ 1%positive := Mat 2 2 (Ptr 10%positive);
       2%positive := Mat 2 2 (Ptr 20%positive);
       3%positive := Mat 0 0 NULL;
       4%positive := Mat 0 0 NULL;
       5%positive := Mat 2 3 (Ptr 30%positive) ]}
    {[ 10%positive := BPtrs [Some (Ptr 11%positive); Some (Ptr 12%positive)];
       11%positive := BInts [Some 1; Some 2];
       12%positive := BInts [Some 3; Some 4];
       20%positive := BPtrs [Some (Ptr 21%positive); Some (Ptr 22%positive)];
       21%positive := BInts [Some 5; Some 6];
       22%positive := BInts [Some 7; Some 8];
       30%positive := BPtrs [Some (Ptr 31%positive); Some (Ptr 32%positive)];
       31%positive := BInts [Some 1; Some 2; Some 3];
       32%positive := BInts [Some 4; Some 5; Some 6] ]}
    []
    {[ "plain.txt"%string := text_line "1 2" ++ text_line "3 4";
       "blank.txt"%string :=
         [newline] ++ text_line "1 2" ++ [newline] ++ text_line "3 4";
       "extra.txt"%string :=
         text_line "1 2" ++ text_line "3 4 5 6" ++ text_line "7" ]}
    ∅ 0 0.

(** A state in which the next [malloc] is refused, and one in which the
    second is. *)
Definition refusing : state :=
  State {[1%positive := Mat 0 0 NULL]} ∅ [false] ∅ ∅ 0 0.
Definition refusing_row : state :=
  State {[1%positive := Mat 0 0 NULL]} ∅ [true; false] ∅ ∅ 0 0.

(** * Properties *)

(** ** The monad *)

Lemma bind_ok {A B} (m : M A) (k : A → M B) s a s' :
  m s = Ok a s' → (m ≫= k) s = k a s'.
Proof. intros H. unfold mbind, M_bind, bind. by rewrite H. Qed.

Lemma bind_undef {A B} (m : M A) (k : A → M B) s :
  m s = Undef → (m ≫= k) s = Undef.
Proof. intros H. unfold mbind, M_bind, bind. by rewrite H. Qed.

Lemma bind_inv {A B} (m : M A) (k : A → M B) s b s2 :
  (m ≫= k) s = Ok b s2 → ∃ a s1, m s = Ok a s1 ∧ k a s1 = Ok b s2.
Proof.
  unfold mbind, M_bind, bind. destruct (m s) as [a s1|] eqn:E; [|done].
  intros H. by exists a, s1.
Qed.

(** *** Loops *)

Lemma loop_from_inv (I : nat → state → Prop) body n i s :
  I i s →
  (∀ k s, (i ≤ k < i + n)%nat → I k s → ∃ s', body k s = Ok tt s' ∧ I (S k) s') →
  ∃ s', loop_from i n body s = Ok tt s' ∧ I (i + n)%nat s'.
Proof.
  revert i s. induction n as [|n IH]; intros i s Hi Hbody; simpl.
  - exists s. split; [done|]. by rewrite Nat.add_0_r.
  - destruct (Hbody i s) as (s1 & E1 & H1); [lia|done|].
    destruct (IH (S i) s1) as (s2 & E2 & H2); [done| |].
    + intros k s' Hk. apply Hbody. lia.
    + exists s2. split.
      * by rewrite (bind_ok _ _ _ _ _ E1).
      * by replace (i + S n)%nat with (S i + n)%nat by lia.
Qed.

Lemma for_inv (I : nat → state → Prop) body n s :
  I 0%nat s →
  (∀ k s, (k < Z.to_nat n)%nat → I k s → ∃ s', body k s = Ok tt s' ∧ I (S k) s') →
  ∃ s', for_ n body s = Ok tt s' ∧ I (Z.to_nat n) s'.
Proof.
  intros H0 Hbody. unfold for_.
  destruct (loop_from_inv I body (Z.to_nat n) 0 s) as (s' & E & H); [done| |by exists s'].
  intros k s1 Hk. apply Hbody. lia.
Qed.

Lemma for_from_inv {R} (I : nat → state → Prop) (Q : R → state → Prop)
    (body : nat → M (option R)) n i s :
  I i s →
  (∀ k s, (i ≤ k < i + n)%nat → I k s →
     ∃ r s', body k s = Ok r s' ∧
             match r with Some v => Q v s' | None => I (S k) s' end) →
  ∃ r s', for_from i n body s = Ok r s' ∧
          match r with Some v => Q v s' | None => I (i + n)%nat s' end.
Proof.
  revert i s. induction n as [|n IH]; intros i s Hi Hbody; simpl.
  - exists None, s. split; [done|]. by rewrite Nat.add_0_r.
  - destruct (Hbody i s) as (r1 & s1 & E1 & H1); [lia|done|].
    rewrite (bind_ok _ _ _ _ _ E1). destruct r1 as [v|].
    + by exists (Some v), s1.
    + destruct (IH (S i) s1) as (r2 & s2 & E2 & H2); [done| |].
      * intros k s' Hk. apply Hbody. lia.
      * exists r2, s2. split; [done|].
        destruct r2; [done|]. by replace (i + S n)%nat with (S i + n)%nat by lia.
Qed.

Lemma for_ret_inv {R} (I : nat → state → Prop) (Q : R → state → Prop)
    (body : nat → M (option R)) n s :
  I 0%nat s →
  (∀ k s, (k < Z.to_nat n)%nat → I k s →
     ∃ r s', body k s = Ok r s' ∧
             match r with Some v => Q v s' | None => I (S k) s' end) →
  ∃ r s', for_ret n body s = Ok r s' ∧
          match r with Some v => Q v s' | None => I (Z.to_nat n) s' end.
Proof.
  intros H0 Hbody. unfold for_ret.
  apply (for_from_inv I Q body (Z.to_nat n) 0 s); [done|].
  intros k s1 Hk. apply Hbody. lia.
Qed.

(** *** The objects *)

Lemma load_ok m o s : objs s !! m = Some o → load m s = Ok o s.
Proof. intros H. unfold load. by rewrite H. Qed.

Lemma get_rows_ok m o s : objs s !! m = Some o → get_rows m s = Ok (rows o) s.
Proof. intros H. unfold get_rows. by rewrite (bind_ok _ _ _ _ _ (load_ok _ _ _ H)). Qed.

Lemma get_columns_ok m o s : objs s !! m = Some o → get_columns m s = Ok (columns o) s.
Proof. intros H. unfold get_columns. by rewrite (bind_ok _ _ _ _ _ (load_ok _ _ _ H)). Qed.

Lemma get_content_ok m o s : objs s !! m = Some o → get_content m s = Ok (content o) s.
Proof. intros H. unfold get_content. by rewrite (bind_ok _ _ _ _ _ (load_ok _ _ _ H)). Qed.

Lemma store_ok m o o' s :
  objs s !! m = Some o → store m o' s = Ok tt (set_objs <[m := o']> s).
Proof. intros H. unfold store. by rewrite H. Qed.

Lemma put_rows_ok m o r s :
  objs s !! m = Some o →
  put_rows m r s = Ok tt (set_objs <[m := Mat r (columns o) (content o)]> s).
Proof.
  intros H. unfold put_rows. rewrite (bind_ok _ _ _ _ _ (load_ok _ _ _ H)).
  by apply store_ok with o.
Qed.

Lemma put_columns_ok m o c s :
  objs s !! m = Some o →
  put_columns m c s = Ok tt (set_objs <[m := Mat (rows o) c (content o)]> s).
Proof.
  intros H. unfold put_columns. rewrite (bind_ok _ _ _ _ _ (load_ok _ _ _ H)).
  by apply store_ok with o.
Qed.

Lemma put_content_ok m o p s :
  objs s !! m = Some o →
  put_content m p s = Ok tt (set_objs <[m := Mat (rows o) (columns o) p]> s).
Proof.
  intros H. unfold put_content. rewrite (bind_ok _ _ _ _ _ (load_ok _ _ _ H)).
  by apply store_ok with o.
Qed.

(** *** Heap blocks *)

Lemma malloc_cases n w mk s :
  in_int n → w = 4 ∨ w = 8 →
  malloc n w mk s =
    if next_grant s && (0 <=? n)
    then Ok (Ptr (fresh (dom (heap s))))
            (set_heap <[fresh (dom (heap s)) := mk (Z.to_nat n)]>
               (set_allocs (tail (allocs s)) s))
    else Ok NULL (set_allocs (tail (allocs s)) s).
Proof.
  intros [Hlo Hhi] Hw. unfold malloc, next_grant, in_int, INT_MIN, INT_MAX in *.
  destruct (match allocs s with [] => true | b :: _ => b end); simpl; [|done].
  unfold to_size, SIZE_MOD, PTRDIFF_MAX.
  destruct (Z.leb_spec 0 n) as [Hn|Hn].
  - rewrite (Z.mod_small n) by lia.
    rewrite (Z.mod_small (n * w)) by lia.
    replace (n * w / w) with n by (symmetry; apply Z.div_mul; lia).
    destruct (Z.leb_spec (n * w) (2 ^ 63 - 1)); [done|lia].
  - replace (n mod 2 ^ 64) with (n + 2 ^ 64).
    2:{ apply Z.mod_unique with (-1); lia. }
    replace (((n + 2 ^ 64) * w) mod 2 ^ 64) with (n * w + 2 ^ 64).
    2:{ apply Z.mod_unique with (w - 1); lia. }
    destruct (Z.leb_spec (n * w + 2 ^ 64) (2 ^ 63 - 1)); [lia|done].
Qed.

Lemma fresh_heap (s : state) : heap s !! fresh (dom (heap s)) = None.
Proof. apply not_elem_of_dom, is_fresh. Qed.

Lemma free_ok l b s :
  heap s !! l = Some b → free (Ptr l) s = Ok tt (set_heap (delete l) s).
Proof. intros H. simpl. by rewrite H. Qed.

Lemma read_ptr_ok t ps i q s :
  heap s !! t = Some (BPtrs ps) → ps !! i = Some (Some q) →
  read_ptr (Ptr t) i s = Ok q s.
Proof. intros H1 H2. simpl. by rewrite H1, H2. Qed.

Lemma write_ptr_ok t ps i q s :
  heap s !! t = Some (BPtrs ps) → (i < length ps)%nat →
  write_ptr (Ptr t) i q s = Ok tt (set_heap <[t := BPtrs (<[i := Some q]> ps)]> s).
Proof. intros H1 H2. simpl. rewrite H1. by rewrite decide_True. Qed.

Lemma read_int_ok l vs j v s :
  heap s !! l = Some (BInts vs) → vs !! j = Some (Some v) →
  read_int (Ptr l) j s = Ok v s.
Proof. intros H1 H2. simpl. by rewrite H1, H2. Qed.

Lemma write_int_ok l vs j v s :
  heap s !! l = Some (BInts vs) → (j < length vs)%nat →
  write_int (Ptr l) j v s = Ok tt (set_heap <[l := BInts (<[j := Some v]> vs)]> s).
Proof. intros H1 H2. simpl. rewrite H1. by rewrite decide_True. Qed.

(** [read_elem] is the view [peek]. *)
Lemma read_elem_peek m i j s :
  read_elem m i j s =
    match peek s m i j with
    | Some (Some v) => Ok v s
    | _ => Undef
    end.
Proof.
  unfold read_elem, peek, get_content, load, mbind, M_bind, bind.
  destruct (objs s !! m) as [[r c [|t]]|]; simpl; try done.
  destruct (heap s !! t) as [[ps|]|]; try done.
  destruct (ps !! i) as [[[|l]|]|]; simpl; try done.
  destruct (heap s !! l) as [[|vs]|]; try done.
Qed.

Lemma read_elem_ok m i j v s :
  peek s m i j = Some (Some v) → read_elem m i j s = Ok v s.
Proof. intros H. by rewrite read_elem_peek, H. Qed.

(** ** Allocation and release *)

Lemma release_rows_ok s m o t ps ls :
  objs s !! m = Some o → content o = Ptr t →
  heap s !! t = Some (BPtrs ps) →
  (∀ k l, ls !! k = Some l → ps !! k = Some (Some (Ptr l))) →
  NoDup (t :: ls) →
  (∀ l, l ∈ ls → is_Some (heap s !! l)) →
  ∃ s', release_rows m (Z.of_nat (length ls)) s = Ok tt s' ∧
        objs s' = objs s ∧ allocs s' = allocs s ∧ env s' = env s ∧
        (∀ l, l ∈ ls → heap s' !! l = None) ∧
        (∀ l, l ∉ ls → heap s' !! l = heap s !! l).
Proof.
  intros Hm Hc Ht Hps Hnd Hlive.
  apply NoDup_cons in Hnd as [Htls Hnd].
  pose (J := λ (k : nat) (s1 : state),
    objs s1 = objs s ∧ allocs s1 = allocs s ∧ env s1 = env s ∧
    (∀ j l, ls !! j = Some l → (j < k)%nat → heap s1 !! l = None) ∧
    (∀ j l, ls !! j = Some l → (k ≤ j)%nat → heap s1 !! l = heap s !! l) ∧
    (∀ l, l ∉ ls → heap s1 !! l = heap s !! l)).
  destruct (for_inv J (λ j, p ← get_content m; q ← read_ptr p j; free q)
              (Z.of_nat (length ls)) s) as (s' & E & HJ).
  - unfold J. repeat split; try done. intros; lia.
  - intros k s1 Hk (Ho & Ha & He & Hdone & Htodo & Hout).
    rewrite Nat2Z.id in Hk.
    destruct (lookup_lt_is_Some_2 ls k Hk) as [l Hl].
    assert (Hm1 : objs s1 !! m = Some o) by (by rewrite Ho).
    rewrite (bind_ok _ _ _ _ _ (get_content_ok _ _ _ Hm1)), Hc.
    assert (Ht1 : heap s1 !! t = Some (BPtrs ps)).
    { rewrite Hout; [done|]. done. }
    rewrite (bind_ok _ _ _ _ _ (read_ptr_ok _ _ _ _ _ Ht1 (Hps _ _ Hl))).
    destruct (Hlive l) as [b Hb]; [by eapply list_elem_of_lookup_2|].
    assert (Hb1 : heap s1 !! l = Some b) by (rewrite (Htodo k l Hl); [done|lia]).
    rewrite (free_ok _ _ _ Hb1). eexists; split; [done|].
    unfold J; simpl. repeat split; try done.
    + intros j l' Hl' Hj. destruct (decide (j = k)) as [->|Hne].
      * assert (l' = l) as -> by congruence. apply lookup_delete_eq.
      * destruct (decide (l' = l)) as [->|Hll]; [apply lookup_delete_eq|].
        rewrite lookup_delete_ne by done. apply (Hdone j); [done|lia].
    + intros j l' Hl' Hj.
      assert (l' ≠ l).
      { intros ->. assert (j = k) by (eapply NoDup_lookup; eauto). lia. }
      rewrite lookup_delete_ne by done. apply (Htodo j); [done|lia].
    + intros l' Hl'. assert (l' ≠ l).
      { intros ->. apply Hl'. by eapply list_elem_of_lookup_2. }
      rewrite lookup_delete_ne by done. by apply Hout.
  - exists s'. rewrite Nat2Z.id in HJ.
    destruct HJ as (Ho & Ha & He & Hdone & Htodo & Hout).
    repeat split; try done.
    intros l Hl. apply list_elem_of_lookup_1 in Hl as [j Hj].
    apply (Hdone j); [done|]. by eapply lookup_lt_Some.
Qed.

Lemma tail_drop {A} (k : nat) (l : list A) : tail (drop k l) = drop (S k) l.
Proof. revert l. induction k as [|k IH]; intros [|x l]; simpl; done. Qed.

Lemma not_granted_drop k s0 (a : list bool) :
  a = drop k (allocs s0) → match a with [] => true | b :: _ => b end = false → ¬ granted s0.
Proof.
  intros Ha Hb Hg. destruct a as [|[] a]; try done.
  unfold granted in Hg. rewrite Forall_forall in Hg.
  assert (false ∈ allocs s0) as Hin.
  { rewrite <- (take_drop k (allocs s0)), <- Ha. apply elem_of_app. right. left. }
  by specialize (Hg _ Hin).
Qed.

Lemma alloc_row_step s0 m r c t ls s :
  in_int c → alloc_inv s0 m r c t ls s → (length ls < Z.to_nat r)%nat →
  ∃ res s', alloc_row m c (length ls) s = Ok res s' ∧
    match res with
    | None => ∃ l, alloc_inv s0 m r c t (ls ++ [l]) s'
    | Some v => v = -1 ∧ alloc_failed s0 m r c (Ptr t) s'
    end.
Proof.
  intros Hc [Ho Ht Hnd Hrows Hfresh Hframe [k Hk] Henv Hcols] Hlt.
  unfold alloc_row, malloc_ints.
  pose proof (malloc_cases c 4 (λ k, BInts (replicate k None)) s Hc (or_introl eq_refl)) as Hmal.
  set (ps := ((λ l, Some (Ptr l)) <$> ls) ++ replicate (Z.to_nat r - length ls) None) in *.
  assert (Hlen : length ps = Z.to_nat r).
  { unfold ps. rewrite length_app, length_fmap, length_replicate. lia. }
  assert (Hm : ∀ s1, objs s1 = objs s → objs s1 !! m = Some (Mat r c (Ptr t))).
  { intros s1 ->. rewrite Ho. apply lookup_insert_eq. }
  destruct (next_grant s && (0 <=? c)) eqn:Hg.
  - apply andb_prop in Hg as [Hg Hc0]. apply Z.leb_le in Hc0.
    set (l := fresh (dom (heap s))).
    assert (Hl : heap s !! l = None) by apply fresh_heap.
    assert (Hlt' : l ≠ t) by (intros E; rewrite E, Ht in Hl; done).
    assert (Hlls : l ∉ ls).
    { intros Hin. rewrite (Hrows _ Hin) in Hl. done. }
    erewrite bind_ok; [|exact Hmal].
    erewrite bind_ok; [|by apply get_content_ok, Hm]. simpl content.
    erewrite bind_ok.
    2:{ eapply write_ptr_ok; [|rewrite Hlen; exact Hlt].
        simpl. rewrite lookup_insert_ne by done. exact Ht. }
    rewrite decide_False by done.
    eexists None, _. split; [done|]. exists l.
    split; simpl.
    + done.
    + rewrite lookup_insert_eq. f_equal. f_equal. unfold ps.
      rewrite insert_app_r_alt by (rewrite length_fmap; lia).
      rewrite length_fmap, Nat.sub_diag, fmap_app, <- app_assoc. f_equal.
      rewrite length_app. simpl.
      destruct (Z.to_nat r - length ls)%nat as [|n'] eqn:En; [lia|].
      replace (Z.to_nat r - (length ls + 1))%nat with n' by lia. done.
    + apply NoDup_cons in Hnd as [Htls Hnd]. apply NoDup_cons. split.
      * rewrite elem_of_app, list_elem_of_singleton. intros [?|?]; [done|]. by subst.
      * apply NoDup_app. split; [done|]. split; [|apply NoDup_singleton].
        intros x Hx Hx'. apply list_elem_of_singleton in Hx'. by subst.
    + intros l' Hl'. apply elem_of_app in Hl' as [Hl'|Hl'].
      * assert (l' ≠ t).
        { intros ->. apply NoDup_cons in Hnd as [? _]. done. }
        assert (l' ≠ l) by (intros ->; done).
        rewrite !lookup_insert_ne by done. by apply Hrows.
      * apply list_elem_of_singleton in Hl' as ->.
        rewrite lookup_insert_ne by done. apply lookup_insert_eq.
    + intros l' Hl'. rewrite app_comm_cons in Hl'.
      apply elem_of_app in Hl' as [Hl'|Hl']; [by apply Hfresh|].
      apply list_elem_of_singleton in Hl' as ->.
      rewrite <- Hframe; [done|]. intros Hin. apply elem_of_cons in Hin as [?|?]; done.
    + intros l' Hl'.
      assert (l' ≠ t) by (intros ->; apply Hl'; left).
      assert (l' ≠ l).
      { intros ->. apply Hl'. right. apply elem_of_app. right. left. }
      rewrite !lookup_insert_ne by done. apply Hframe.
      intros Hin. apply Hl'. rewrite app_comm_cons. apply elem_of_app. by left.
    + exists (S k). rewrite Hk. apply tail_drop.
    + done.
    + done.
  - erewrite bind_ok; [|exact Hmal].
    erewrite bind_ok; [|by apply get_content_ok, Hm]. simpl content.
    erewrite bind_ok.
    2:{ eapply write_ptr_ok; [exact Ht|rewrite Hlen; exact Hlt]. }
    rewrite decide_True by done.
    set (s2 := set_heap _ _).
    destruct (release_rows_ok s2 m (Mat r c (Ptr t)) t (<[length ls := Some NULL]> ps) ls)
      as (s3 & E3 & Ho3 & Ha3 & He3 & Hgone & Hkept).
    + by apply Hm.
    + done.
    + simpl. apply lookup_insert_eq.
    + intros j l Hj. pose proof (lookup_lt_Some _ _ _ Hj).
      rewrite list_lookup_insert_ne by lia. unfold ps.
      rewrite lookup_app_l by (rewrite length_fmap; lia).
      by rewrite list_lookup_fmap, Hj.
    + done.
    + intros l Hl. simpl. apply NoDup_cons in Hnd as [Htls Hnd].
      rewrite lookup_insert_ne by (intros ->; done). rewrite (Hrows l Hl). done.
    + erewrite bind_ok; [|exact E3].
      erewrite bind_ok; [|apply get_content_ok; rewrite Ho3; by apply Hm]. simpl content.
      apply NoDup_cons in Hnd as [Htls Hnd].
      erewrite bind_ok.
      2:{ eapply free_ok. rewrite Hkept by done. simpl. apply lookup_insert_eq. }
      eexists (Some (-1)), _. split; [done|]. split; [done|].
      split; simpl.
      * by rewrite Ho3.
      * apply map_eq. intros l. destruct (decide (l = t)) as [->|Hlt'].
        { rewrite lookup_delete_eq. symmetry. apply Hfresh. left. }
        rewrite lookup_delete_ne by done.
        destruct (decide (l ∈ ls)) as [Hin|Hin].
        { rewrite Hgone by done. symmetry. apply Hfresh. by right. }
        rewrite Hkept by done. simpl. rewrite lookup_insert_ne by done.
        apply Hframe. intros H. apply elem_of_cons in H as [?|?]; done.
      * exists (S k). rewrite Ha3. simpl. rewrite Hk. apply tail_drop.
      * change (env s3 = env s0). by rewrite He3.
      * apply andb_false_iff in Hg as [Hg|Hg].
        { left. by eapply not_granted_drop. }
        right. right. by apply Z.leb_gt in Hg.
Qed.

Lemma matrix_allocate_spec s m o r c :
  objs s !! m = Some o → in_int r → in_int c →
  ∃ rc s', matrix_allocate m r c s = Ok rc s' ∧
    ((rc = 0 ∧ ∃ t ls, alloc_inv s m r c t ls s' ∧ length ls = Z.to_nat r) ∨
     (rc = -1 ∧ ∃ p, alloc_failed s m r c p s' ∧
                     (p = NULL ↔ next_grant s = false ∨ r < 0))).
Proof.
  intros Hm Hr Hc. unfold matrix_allocate.
  erewrite bind_ok; [|by eapply put_rows_ok].
  erewrite bind_ok.
  2:{ eapply put_columns_ok. simpl. apply lookup_insert_eq. }
  simpl rows. simpl content.
  set (s2 := set_objs _ (set_objs _ s)).
  pose proof (malloc_cases r 8 (λ k, BPtrs (replicate k None)) s2 Hr (or_intror eq_refl)) as Hmal.
  unfold malloc_ptrs.
  assert (Hm2 : objs s2 !! m = Some (Mat r c (content o))) by apply lookup_insert_eq.
  assert (Hins : ∀ p, <[m := Mat r c p]> (objs s2) = <[m := Mat r c p]> (objs s)).
  { intros p. unfold s2. simpl. by rewrite !insert_insert_eq. }
  destruct (next_grant s2 && (0 <=? r)) eqn:Hg.
  - apply andb_prop in Hg as [Hg Hr0]. apply Z.leb_le in Hr0.
    erewrite bind_ok; [|exact Hmal].
    erewrite bind_ok; [|by eapply put_content_ok]. simpl rows; simpl columns.
    erewrite bind_ok; [|eapply get_content_ok; simpl; apply lookup_insert_eq].
    simpl content. rewrite decide_False by done.
    set (t := fresh (dom (heap s2))). set (s4 := set_objs _ _).
    assert (Ht : heap s !! t = None) by apply (fresh_heap s2).
    destruct (for_ret_inv
      (λ i s', ∃ ls, length ls = i ∧ alloc_inv s m r c t ls s')
      (λ v s', v = -1 ∧ alloc_failed s m r c (Ptr t) s')
      (alloc_row m c) r s4) as (res & s' & E & Hpost).
    + exists []. split; [done|]. split; simpl.
      * apply Hins.
      * rewrite lookup_insert_eq. by rewrite Nat.sub_0_r.
      * apply NoDup_singleton.
      * intros l Hl. by apply elem_of_nil in Hl.
      * intros l Hl. apply list_elem_of_singleton in Hl as ->. done.
      * intros l Hl. rewrite lookup_insert_ne; [done|].
        intros <-. apply Hl. left.
      * by exists 1%nat.
      * done.
      * done.
    + intros k s1 Hk (ls & <- & Hinv).
      destruct (alloc_row_step s m r c t ls s1 Hc Hinv Hk) as (res & s' & E & Hres).
      exists res, s'. split; [done|]. destruct res as [v|]; [done|].
      destruct Hres as [l Hl]. exists (ls ++ [l]). split; [|done].
      rewrite length_app. simpl. lia.
    + erewrite bind_ok; [|exact E]. destruct res as [v|].
      * destruct Hpost as [-> Hf]. exists (-1), s'. split; [done|]. right.
        split; [done|]. exists (Ptr t). split; [done|].
        split; [done|]. intros [H|H]; [|lia].
        unfold next_grant in *. simpl in Hg. congruence.
      * destruct Hpost as (ls & Hlen & Hinv). exists 0, s'. split; [done|]. left.
        split; [done|]. by exists t, ls.
  - erewrite bind_ok; [|exact Hmal].
    erewrite bind_ok; [|by eapply put_content_ok]. simpl rows; simpl columns.
    erewrite bind_ok; [|eapply get_content_ok; simpl; apply lookup_insert_eq].
    simpl content. rewrite decide_True by done.
    eexists (-1), _. split; [done|]. right. split; [done|]. exists NULL.
    apply andb_false_iff in Hg.
    split; [split; simpl|].
    + apply Hins.
    + done.
    + by exists 1%nat.
    + done.
    + destruct Hg as [Hg|Hg].
      * left. eapply (not_granted_drop 0); [|exact Hg]. done.
      * right. left. by apply Z.leb_gt in Hg.
    + split; [|done]. intros _. destruct Hg as [Hg|Hg]; [by left|].
      right. by apply Z.leb_gt in Hg.
Qed.

(** ** Reading and writing the cells of a well-formed matrix *)

Lemma same_outside_refl L s : same_outside L s s.
Proof. by split. Qed.

Lemma same_outside_trans L s1 s2 s3 :
  same_outside L s1 s2 → same_outside L s2 s3 → same_outside L s1 s3.
Proof.
  intros [A1 A2 A3 A4 A5 A6 A7] [B1 B2 B3 B4 B5 B6 B7].
  split; try congruence. intros l Hl. rewrite B2, A2; done.
Qed.

Lemma peek_shape s m r c t ls i j :
  shape s m r c t ls →
  peek s m i j =
    match ls !! i with
    | Some l => match heap s !! l with Some (BInts vs) => vs !! j | _ => None end
    | None => None
    end.
Proof.
  intros [Ho Ht _ _ _]. unfold peek. rewrite Ho, Ht, list_lookup_fmap.
  by destruct (ls !! i).
Qed.

Lemma shape_row s m r c t ls i :
  shape s m r c t ls → (i < Z.to_nat r)%nat →
  ∃ l vs, ls !! i = Some l ∧ heap s !! l = Some (BInts vs) ∧ length vs = Z.to_nat c.
Proof.
  intros Hs Hi. destruct (lookup_lt_is_Some_2 ls i) as [l Hl].
  { by rewrite (shape_len _ _ _ _ _ _ Hs). }
  destruct (shape_rows _ _ _ _ _ _ Hs l) as (vs & Hvs & Hlen).
  { by eapply list_elem_of_lookup_2. }
  by exists l, vs.
Qed.

Lemma shape_tab_ne s m r c t ls l :
  shape s m r c t ls → l ∈ ls → l ≠ t.
Proof.
  intros Hs Hl ->. destruct (shape_rows _ _ _ _ _ _ Hs t Hl) as (vs & Hvs & _).
  rewrite (shape_tab _ _ _ _ _ _ Hs) in Hvs. done.
Qed.

Lemma write_elem_ok s m r c t ls i j v :
  shape s m r c t ls → (i < Z.to_nat r)%nat → (j < Z.to_nat c)%nat →
  ∃ s', write_elem m i j v s = Ok tt s' ∧
        shape s' m r c t ls ∧ same_outside ls s s' ∧
        peek s' m i j = Some (Some v) ∧
        (∀ i' j', (i', j') ≠ (i, j) → peek s' m i' j' = peek s m i' j').
Proof.
  intros Hs Hi Hj. destruct (shape_row _ _ _ _ _ _ _ Hs Hi) as (l & vs & Hl & Hvs & Hlen).
  assert (Hin : l ∈ ls) by (by eapply list_elem_of_lookup_2).
  pose proof (shape_tab_ne _ _ _ _ _ _ _ Hs Hin) as Hlt.
  destruct Hs as [Ho Ht Hlenls Hnd Hrows].
  set (s' := set_heap <[l := BInts (<[j := Some v]> vs)]> s).
  assert (Hs' : shape s' m r c t ls).
  { split; simpl; try done.
    - by rewrite lookup_insert_ne.
    - intros l' Hl'. destruct (decide (l' = l)) as [->|Hne].
      + rewrite lookup_insert_eq. eexists. split; [done|]. by rewrite length_insert.
      + rewrite lookup_insert_ne by done. by apply Hrows. }
  exists s'. split; [|split; [done|split; [|split]]].
  - unfold write_elem.
    erewrite bind_ok; [|by eapply get_content_ok]. simpl content.
    erewrite bind_ok.
    2:{ eapply read_ptr_ok; [exact Ht|]. by rewrite list_lookup_fmap, Hl. }
    eapply write_int_ok; [done|lia].
  - split; try done. intros l' Hl'. simpl. rewrite lookup_insert_ne; [done|].
    by intros <-.
  - rewrite (peek_shape _ _ _ _ _ _ _ _ Hs'), Hl. simpl.
    rewrite lookup_insert_eq. apply list_lookup_insert_eq. lia.
  - intros i' j' Hne.
    rewrite (peek_shape _ _ _ _ _ _ _ _ Hs').
    rewrite (peek_shape s m r c t ls) by (by split).
    destruct (ls !! i') as [l'|] eqn:Hl'; [|done]. simpl.
    destruct (decide (l' = l)) as [->|Hll].
    + assert (i' = i) as -> by (eapply NoDup_lookup; eauto).
      rewrite lookup_insert_eq, Hvs. apply list_lookup_insert_ne. intros E. apply Hne. by rewrite E.
    + by rewrite lookup_insert_ne.
Qed.

(** What a successful [matrix_allocate] leaves. *)
Lemma alloc_inv_shape s0 m r c t ls s :
  alloc_inv s0 m r c t ls s → length ls = Z.to_nat r →
  shape s m r c t ls ∧
  (∀ i j, (i < Z.to_nat r)%nat → (j < Z.to_nat c)%nat → peek s m i j = Some None) ∧
  heap s0 ⊆ heap s.
Proof.
  intros [Ho Ht Hnd Hrows Hfresh Hframe Hal Henv Hcols] Hlen.
  apply NoDup_cons in Hnd as [Htls Hnd].
  assert (Hs : shape s m r c t ls).
  { split; try done.
    - rewrite Ho. apply lookup_insert_eq.
    - rewrite Ht, Hlen, Nat.sub_diag. simpl. by rewrite app_nil_r.
    - intros l Hl. eexists. split; [by apply Hrows|]. by rewrite length_replicate. }
  split; [done|]. split.
  - intros i j Hi Hj. rewrite (peek_shape _ _ _ _ _ _ _ _ Hs).
    destruct (lookup_lt_is_Some_2 ls i) as [l Hl]; [lia|]. rewrite Hl.
    rewrite (Hrows l) by (by eapply list_elem_of_lookup_2).
    by apply lookup_replicate.
  - apply map_subseteq_spec. intros l b Hl. rewrite Hframe; [done|].
    intros Hin. rewrite (Hfresh _ Hin) in Hl. done.
Qed.

(** ** Two nested loops that fill a matrix

    The loops [for (i < R) for (j < C) body i j] where [body i j] settles
    the cell [ρ i j] of the matrix [res] to [f i j] and leaves the other
    cells and the rest of the state as they are. *)

Section fill.
Variables (s_a : state) (res : addr) (r c : Z) (t : addr) (ls : list addr).
Variables (Rz Cz : Z) (colsM : M Z) (body : nat → nat → M unit).
Variables (ρ : nat → nat → nat * nat) (f : nat → nat → Z).

Local Abbreviation R := (Z.to_nat Rz).
Local Abbreviation C := (Z.to_nat Cz).

Hypothesis ρ_inj : ∀ i j i' j',
  (i < R)%nat → (j < C)%nat → (i' < R)%nat → (j' < C)%nat →
  ρ i j = ρ i' j' → i = i' ∧ j = j'.
Hypothesis colsM_ok : ∀ s, same_outside ls s_a s → colsM s = Ok Cz s.
Hypothesis body_ok : ∀ s i j,
  same_outside ls s_a s → shape s res r c t ls → (i < R)%nat → (j < C)%nat →
  ∃ s', body i j s = Ok tt s' ∧ same_outside ls s s' ∧ shape s' res r c t ls ∧
        peek s' res (ρ i j).1 (ρ i j).2 = Some (Some (f i j)) ∧
        (∀ i' j', (i', j') ≠ ρ i j → peek s' res i' j' = peek s res i' j').

Local Abbreviation fill_inv := (filling s_a res r c t ls ρ f).

Lemma fill_inv_ext D D' s :
  (∀ i j, D i j ↔ D' i j) → fill_inv D s → fill_inv D' s.
Proof.
  intros HD (H1 & H2 & H3 & H4). split; [done|split; [done|split]].
  - intros i j Hij. apply H3. by apply HD.
  - intros i' j' Hij. apply H4. intros i j Hd. apply Hij. by apply HD.
Qed.

Lemma fill_step D s i j :
  (∀ i0 j0, D i0 j0 → (i0 < R)%nat ∧ (j0 < C)%nat) → ¬ D i j →
  (i < R)%nat → (j < C)%nat → fill_inv D s →
  ∃ s', body i j s = Ok tt s' ∧
        fill_inv (λ i0 j0, D i0 j0 ∨ (i0 = i ∧ j0 = j)) s'.
Proof.
  intros HD Hnew Hi Hj (H1 & H2 & H3 & H4).
  destruct (body_ok s i j H1 H2 Hi Hj) as (s' & E & Hso & Hsh & Hp & Hother).
  exists s'. split; [done|]. split; [|split; [done|split]].
  - by eapply same_outside_trans.
  - intros i0 j0 [Hd|[-> ->]]; [|done].
    rewrite Hother; [by apply H3|].
    destruct (HD _ _ Hd) as [Hi0 Hj0]. intros E'.
    destruct (ρ_inj i j i0 j0) as [-> ->]; try done.
    by rewrite <- E', <- surjective_pairing.
  - intros i' j' Hij. rewrite Hother.
    + apply H4. intros i0 j0 Hd. apply Hij. by left.
    + intros E'. apply (Hij i j); [by right|done].
Qed.

Lemma fill_loops :
  shape s_a res r c t ls →
  ∃ s', for_ Rz (λ i, cb ← colsM; for_ cb (λ j, body i j)) s_a = Ok tt s' ∧
        same_outside ls s_a s' ∧ shape s' res r c t ls ∧
        (∀ i j, (i < R)%nat → (j < C)%nat →
           peek s' res (ρ i j).1 (ρ i j).2 = Some (Some (f i j))) ∧
        (∀ i' j', (∀ i j, (i < R)%nat → (j < C)%nat → ρ i j ≠ (i', j')) →
           peek s' res i' j' = peek s_a res i' j').
Proof.
  intros Hsh.
  pose (D := λ (i j i0 j0 : nat), (j0 < C)%nat ∧ (i0 < i ∨ (i0 = i ∧ j0 < j))%nat).
  destruct (for_inv (λ i s, (i ≤ R)%nat ∧ fill_inv (D i 0%nat) s)
              (λ i, cb ← colsM; for_ cb (λ j, body i j)) Rz s_a)
    as (s' & E & _ & Hinv).
  - split; [lia|]. split; [apply same_outside_refl|split; [done|split]].
    + intros i j (_ & [?|[_ ?]]); lia.
    + done.
  - intros i s Hi (_ & Hinv).
    erewrite bind_ok; [|apply colsM_ok; by destruct Hinv].
    destruct (for_inv (λ j s, (j ≤ C)%nat ∧ fill_inv (D i j) s)
                (λ j, body i j) Cz s) as (s' & E & _ & Hinv').
    + split; [lia|done].
    + intros j s1 Hj (_ & Hinv1).
      destruct (fill_step (D i j) s1 i j) as (s2 & E2 & Hinv2); try done.
      * intros i0 j0 (? & [?|[? ?]]); lia.
      * intros (? & [?|[? ?]]); lia.
      * exists s2. split; [done|]. split; [lia|].
        eapply fill_inv_ext; [|exact Hinv2]. unfold D. intros i0 j0. simpl. lia.
    + exists s'. split; [done|]. split; [lia|].
      eapply fill_inv_ext; [|exact Hinv']. unfold D. intros i0 j0. lia.
  - exists s'. split; [done|]. destruct Hinv as (H1 & H2 & H3 & H4).
    split; [done|split; [done|split]].
    + intros i j Hi Hj. apply H3. unfold D. lia.
    + intros i' j' Hij. apply H4. intros i j (? & [?|[? ?]]); [|lia].
      apply Hij; [|done]. lia.
Qed.
End fill.

(** ** Views *)

Lemma peek_mono s s' m i j x :
  peek s m i j = Some x → heap s ⊆ heap s' → objs s' !! m = objs s !! m →
  peek s' m i j = Some x.
Proof.
  unfold peek. intros H Hsub ->.
  destruct (objs s !! m) as [[r c [|t]]|]; try done.
  destruct (heap s !! t) as [[ps|]|] eqn:Ht; try done.
  rewrite (lookup_weaken _ _ _ _ Ht Hsub).
  destruct (ps !! i) as [[[|l]|]|]; try done.
  destruct (heap s !! l) as [[|vs]|] eqn:Hl; try done.
  by rewrite (lookup_weaken _ _ _ _ Hl Hsub).
Qed.

Lemma subseteq_same_outside (h : gmap addr block) L s s' :
  h ⊆ heap s → (∀ l, l ∈ L → h !! l = None) → same_outside L s s' → h ⊆ heap s'.
Proof.
  intros Hsub Hfresh Hso. apply map_subseteq_spec. intros l b Hl.
  rewrite (so_heap _ _ _ Hso).
  - by eapply lookup_weaken.
  - intros Hin. rewrite (Hfresh _ Hin) in Hl. done.
Qed.

Lemma elem_lookup {A} (G : list (list A)) i j row :
  G !! i = Some row → elem G i j = row !! j.
Proof. intros H. unfold elem. by rewrite H. Qed.

Lemma view_inv s m g :
  view s m = Some g →
  ∃ r c t ls, shape s m r c t ls ∧ 0 <= r <= INT_MAX ∧ 0 <= c <= INT_MAX ∧
    length g = Z.to_nat r ∧ Forall (λ vs, length vs = Z.to_nat c) g ∧
    Forall2 (λ l vs, heap s !! l = Some (BInts vs)) ls g.
Proof.
  unfold view. destruct (objs s !! m) as [[r c [|t]]|] eqn:Ho; try done.
  destruct (heap s !! t) as [[ps|]|] eqn:Ht; try done.
  destruct (mapM row_loc ps) as [ls|] eqn:Hls; simpl; [|done].
  destruct (mapM (row_cells s) ls) as [g'|] eqn:Hg; simpl; [|done].
  case_bool_decide as Hok; [|done]. intros [= <-].
  destruct Hok as (Hr & Hc & Hlen & Hnd & Hw).
  apply mapM_Some in Hls. apply mapM_Some in Hg.
  assert (Hps : ps = (λ l, Some (Ptr l)) <$> ls).
  { clear -Hls. induction Hls as [|p l ps ls Hp _ IH]; [done|].
    rewrite fmap_cons. f_equal; [|done]. by destruct p as [[|?]|]; simplify_eq/=. }
  assert (Hrows : Forall2 (λ l vs, heap s !! l = Some (BInts vs)) ls g').
  { eapply Forall2_impl; [exact Hg|]. intros l vs. unfold row_cells.
    by destruct (heap s !! l) as [[|?]|]; intros; simplify_eq/=. }
  exists r, c, t, ls. split; [|split; [done|split; [done|split; [|split; [done|done]]]]].
  - split; try done.
    + by rewrite Ht, Hps.
    + intros l Hl. apply list_elem_of_lookup_1 in Hl as [i Hi].
      destruct (Forall2_lookup_l _ _ _ _ _ Hrows Hi) as (vs & Hvs & Hlv).
      exists vs. split; [done|].
      rewrite Forall_forall in Hw. apply Hw. by eapply list_elem_of_lookup_2.
  - by rewrite <- (Forall2_length _ _ _ Hg).
Qed.

Lemma view_peek s m g i j :
  view s m = Some g → peek s m i j = elem g i j.
Proof.
  intros Hv. destruct (view_inv _ _ _ Hv) as (r & c & t & ls & Hs & _ & _ & _ & _ & Hrows).
  rewrite (peek_shape _ _ _ _ _ _ _ _ Hs). unfold elem.
  destruct (ls !! i) as [l|] eqn:Hl.
  - destruct (Forall2_lookup_l _ _ _ _ _ Hrows Hl) as (vs & Hvs & Hlv).
    by rewrite Hvs, Hlv.
  - apply Forall2_length in Hrows.
    rewrite (lookup_ge_None_2 g i); [done|].
    apply lookup_ge_None_1 in Hl. lia.
Qed.

Lemma shape_view s m r c t ls :
  shape s m r c t ls → 0 <= r <= INT_MAX → 0 <= c <= INT_MAX →
  ∃ g, view s m = Some g.
Proof.
  intros [Ho Ht Hlen Hnd Hrows] Hr Hc. unfold view. rewrite Ho, Ht.
  assert (Hls : mapM row_loc ((λ l, Some (Ptr l)) <$> ls) = Some ls).
  { apply mapM_Some. apply Forall2_fmap_l. by apply Forall_Forall2_diag, Forall_true. }
  rewrite Hls. simpl.
  assert (Hg : ∃ g, Forall2 (λ l vs, row_cells s l = Some vs) ls g ∧
                    Forall (λ vs, length vs = Z.to_nat c) g).
  { clear -Hrows. induction ls as [|l ls IH].
    - exists []. by split.
    - destruct IH as (g & Hg & Hw).
      { intros l' Hl'. apply Hrows. by right. }
      destruct (Hrows l) as (vs & Hvs & Hlv); [left|].
      exists (vs :: g). split.
      + constructor; [|done]. unfold row_cells. by rewrite Hvs.
      + by constructor. }
  destruct Hg as (g & Hg & Hw). apply mapM_Some in Hg. rewrite Hg. simpl.
  rewrite bool_decide_true by done. by exists g.
Qed.

Lemma view_mono s s' m g :
  view s m = Some g → heap s ⊆ heap s' → objs s' !! m = objs s !! m →
  view s' m = Some g.
Proof.
  intros Hv Hsub Ho. pose proof Hv as Hv0. revert Hv. unfold view. rewrite Ho.
  destruct (objs s !! m) as [[r c [|t]]|]; try done.
  destruct (heap s !! t) as [[ps|]|] eqn:Ht; try done.
  rewrite (lookup_weaken _ _ _ _ Ht Hsub).
  destruct (mapM row_loc ps) as [ls|] eqn:Hls; simpl; [|done].
  destruct (mapM (row_cells s) ls) as [g'|] eqn:Hg; simpl; [|done].
  case_bool_decide as Hok; [|done]. intros [= <-].
  assert (Hg' : mapM (row_cells s') ls = Some g').
  { apply mapM_Some. apply mapM_Some in Hg.
    eapply Forall2_impl; [exact Hg|]. intros l vs. unfold row_cells.
    destruct (heap s !! l) as [b|] eqn:Hl; [|done].
    by rewrite (lookup_weaken _ _ _ _ Hl Hsub). }
  rewrite Hg'. simpl. by rewrite bool_decide_true.
Qed.

Lemma view_dims s m g :
  view s m = Some g →
  ∃ c, dims s m = Some (Z.of_nat (length g), c) ∧ 0 <= c <= INT_MAX ∧
       Z.of_nat (length g) <= INT_MAX ∧
       Forall (λ vs, length vs = Z.to_nat c) g.
Proof.
  intros Hv. destruct (view_inv _ _ _ Hv) as (r & c & t & ls & Hs & Hr & Hc & Hlen & Hw & _).
  exists c. unfold dims. rewrite (shape_obj _ _ _ _ _ _ Hs). simpl.
  rewrite Hlen, Z2Nat.id by lia. repeat split; try done; lia.
Qed.

(** ** The result of an operation *)

(** [matrix_allocate] on the result of an operation: the blocks and the
    objects of the operands are left as they are. *)
Lemma alloc_result s res o r c :
  objs s !! res = Some o → 0 <= r <= INT_MAX → 0 <= c <= INT_MAX →
  ∃ rc s', matrix_allocate res r c s = Ok rc s' ∧
    heap s ⊆ heap s' ∧ (∀ m, m ≠ res → objs s' !! m = objs s !! m) ∧
    env s' = env s ∧ (∃ k, allocs s' = drop k (allocs s)) ∧
    ((rc = -1 ∧ ¬ granted s) ∨
     (rc = 0 ∧ ∃ t ls, shape s' res r c t ls ∧
                (∀ l, l ∈ ls → heap s !! l = None) ∧
                (∀ i j, (i < Z.to_nat r)%nat → (j < Z.to_nat c)%nat →
                   peek s' res i j = Some None))).
Proof.
  intros Ho Hr Hc.
  destruct (matrix_allocate_spec s res o r c Ho) as (rc & s' & E & Hpost).
  { unfold in_int, INT_MIN, INT_MAX in *. lia. }
  { unfold in_int, INT_MIN, INT_MAX in *. lia. }
  exists rc, s'. split; [done|].
  destruct Hpost as [(-> & t & ls & Hinv & Hlen)|(-> & p & Hf & _)].
  - destruct (alloc_inv_shape _ _ _ _ _ _ _ Hinv Hlen) as (Hsh & Hpk & Hsub).
    destruct Hinv as [Hob _ _ _ Hfresh _ Hal Henv _].
    split; [done|]. split; [|split; [done|split; [done|]]].
    + intros m Hm. rewrite Hob. by apply lookup_insert_ne.
    + right. split; [done|]. exists t, ls. split; [done|]. split; [|done].
      intros l Hl. apply Hfresh. by right.
  - destruct Hf as [Hob Hh Hal Henv Hwhy].
    split; [by rewrite Hh|]. split; [|split; [done|split; [done|]]].
    + intros m Hm. rewrite Hob. by apply lookup_insert_ne.
    + left. split; [done|]. destruct Hwhy as [?|[?|?]]; [done|lia|lia].
Qed.

Lemma granted_drop s s' k : allocs s' = drop k (allocs s) → granted s → granted s'.
Proof.
  unfold granted. intros -> Hg. rewrite Forall_forall in *. intros b Hb.
  apply Hg. rewrite <- (take_drop k (allocs s)). apply elem_of_app. by right.
Qed.

Lemma elem_full G i j : elem (full G) i j = Some <$> elem G i j.
Proof.
  unfold elem, full. rewrite list_lookup_fmap.
  destruct (G !! i) as [row|]; simpl; [|done]. apply list_lookup_fmap.
Qed.

(** A cell of an operand, read in a later state. *)
Lemma operand_read s0 s m G i j a :
  view s0 m = Some (full G) → heap s0 ⊆ heap s → objs s !! m = objs s0 !! m →
  elem G i j = Some a → read_elem m i j s = Ok a s.
Proof.
  intros Hv Hsub Ho Ha. apply read_elem_ok.
  eapply peek_mono; [|done|done].
  by rewrite (view_peek _ _ _ _ _ Hv), elem_full, Ha.
Qed.

(** The cells of a written matrix within its dimensions. *)
Lemma view_full_elem s m G r c i j :
  view s m = Some (full G) → dims s m = Some (r, c) →
  (i < Z.to_nat r)%nat → (j < Z.to_nat c)%nat → is_Some (elem G i j).
Proof.
  intros Hv Hd Hi Hj. destruct (view_dims _ _ _ Hv) as (c' & Hd' & _ & _ & Hw).
  rewrite Hd in Hd'. injection Hd' as -> <-.
  unfold full in *. rewrite length_map, Nat2Z.id in Hi.
  destruct (lookup_lt_is_Some_2 G i Hi) as [row Hrow].
  rewrite (elem_lookup _ _ _ _ Hrow). apply lookup_lt_is_Some_2.
  rewrite Forall_forall in Hw. specialize (Hw (map Some row)).
  rewrite length_map in Hw. rewrite Hw; [done|].
  apply list_elem_of_lookup_2 with i. by rewrite list_lookup_fmap, Hrow.
Qed.

Lemma dims_obj s m r c :
  dims s m = Some (r, c) → ∃ p, objs s !! m = Some (Mat r c p).
Proof.
  unfold dims. destruct (objs s !! m) as [[r' c' p]|]; [|done].
  simpl. intros [= -> ->]. by exists p.
Qed.

Lemma view_elem_range s m G r c i j a :
  view s m = Some (full G) → dims s m = Some (r, c) → elem G i j = Some a →
  (i < Z.to_nat r)%nat ∧ (j < Z.to_nat c)%nat.
Proof.
  intros Hv Hd Ha. destruct (view_dims _ _ _ Hv) as (c' & Hd' & _ & _ & Hw).
  rewrite Hd in Hd'. injection Hd' as Hr' <-.
  unfold elem in Ha. destruct (G !! i) as [row|] eqn:Hrow; [|done].
  unfold full in *. rewrite length_map in Hr'. split.
  - apply lookup_lt_Some in Hrow. lia.
  - rewrite Forall_forall in Hw. specialize (Hw (map Some row)).
    rewrite length_map in Hw. apply lookup_lt_Some in Ha. rewrite Hw in Ha; [lia|].
    apply list_elem_of_lookup_2 with i. by rewrite list_lookup_fmap, Hrow.
Qed.

(** A failed allocation of the result. *)
Lemma op_post_failed s res r c P s' :
  heap s ⊆ heap s' → (∀ m, m ≠ res → objs s' !! m = objs s !! m) →
  env s' = env s → (∃ k, allocs s' = drop k (allocs s)) → ¬ granted s →
  op_post s res r c P (-1) s'.
Proof. intros. repeat (split; [done|]). by left. Qed.

(** The result after the loops that fill it. *)
Lemma op_post_filled s s_a s' res r c t ls P :
  heap s ⊆ heap s_a → (∀ m, m ≠ res → objs s_a !! m = objs s !! m) →
  env s_a = env s → (∃ k, allocs s_a = drop k (allocs s)) →
  (∀ l, l ∈ ls → heap s !! l = None) →
  0 <= r <= INT_MAX → 0 <= c <= INT_MAX →
  same_outside ls s_a s' → shape s' res r c t ls → P (peek s' res) →
  op_post s res r c P 0 s'.
Proof.
  intros Hsub Hob Henv [k Hk] Hfresh Hr Hc Hso Hsh HP.
  split; [by eapply subseteq_same_outside|].
  split; [intros m Hm; rewrite (so_objs _ _ _ Hso); by apply Hob|].
  split.
  { rewrite <- Henv. unfold env.
    by rewrite (so_files _ _ _ Hso), (so_locked _ _ _ Hso), (so_seed _ _ _ Hso),
               (so_clock _ _ _ Hso). }
  split; [exists k; by rewrite (so_allocs _ _ _ Hso)|].
  right. split; [done|]. split; [|split; [|done]].
  - unfold dims. by rewrite (shape_obj _ _ _ _ _ _ Hsh).
  - by eapply shape_view.
Qed.

(** ** Sum *)

Lemma matrix_sum_spec s m1 m2 res o G1 G2 r c :
  view s m1 = Some (full G1) → view s m2 = Some (full G2) →
  objs s !! res = Some o → res ≠ m1 → res ≠ m2 →
  dims s m1 = Some (r, c) → dims s m2 = Some (r, c) →
  ∃ rc s', matrix_sum m1 m2 res s = Ok rc s' ∧
    op_post s res r c (λ cells, ∀ i j a b,
        elem G1 i j = Some a → elem G2 i j = Some b →
        cells i j = Some (Some (wrap (a + b)))) rc s'.
Proof.
  intros Hv1 Hv2 Ho Hne1 Hne2 Hd1 Hd2.
  destruct (dims_obj _ _ _ _ Hd1) as [p1 Ho1].
  destruct (dims_obj _ _ _ _ Hd2) as [p2 Ho2].
  destruct (view_dims _ _ _ Hv1) as (c' & Hd1' & Hc & Hr & _).
  rewrite Hd1 in Hd1'. injection Hd1' as Hr' <-.
  assert (Hr0 : 0 <= r <= INT_MAX) by lia. clear Hr Hr'.
  unfold matrix_sum.
  erewrite bind_ok; [|by eapply get_rows_ok].
  erewrite bind_ok; [|by eapply get_rows_ok].
  erewrite bind_ok; [|by eapply get_columns_ok].
  erewrite bind_ok; [|by eapply get_columns_ok].
  simpl rows; simpl columns. rewrite decide_False by (intros [?|?]; done).
  destruct (alloc_result s res o r c Ho Hr0 Hc)
    as (rc & s_a & E & Hsub & Hob & Henv & Hal & Hcase).
  erewrite bind_ok; [|exact E].
  destruct Hcase as [[-> Hng]|(-> & t & ls & Hsh & Hfresh & _)].
  { rewrite decide_True by done. eexists _, _. split; [done|].
    by apply op_post_failed. }
  rewrite decide_False by (intros H; by apply H).
  assert (Ho1a : objs s_a !! m1 = Some (Mat r c p1)) by (rewrite Hob; done).
  erewrite bind_ok; [|by eapply get_rows_ok]. simpl rows.
  set (f := λ i j, wrap (default 0 (elem G1 i j) + default 0 (elem G2 i j))).
  destruct (fill_loops s_a res r c t ls r c (get_columns m1)
              (λ i j, a ← read_elem m1 i j; b ← read_elem m2 i j;
                      write_elem res i j (wrap (a + b)))
              (λ i j, (i, j)) f) as (s' & E' & Hso & Hsh' & Hcells & _).
  - intros i j i' j' _ _ _ _ [= -> ->]. by split.
  - intros s1 Hso. rewrite (get_columns_ok m1 (Mat r c p1)); [done|].
    rewrite (so_objs _ _ _ Hso). exact Ho1a.
  - intros s1 i j Hso Hsh1 Hi Hj.
    assert (Hsub1 : heap s ⊆ heap s1) by (by eapply subseteq_same_outside).
    assert (Hob1 : ∀ m, m ≠ res → objs s1 !! m = objs s !! m).
    { intros m Hm. rewrite (so_objs _ _ _ Hso). by apply Hob. }
    destruct (view_full_elem _ _ _ _ _ i j Hv1 Hd1 Hi Hj) as [a Ha].
    destruct (view_full_elem _ _ _ _ _ i j Hv2 Hd2 Hi Hj) as [b Hb].
    erewrite bind_ok; [|eapply operand_read; eauto].
    erewrite bind_ok; [|eapply operand_read; eauto].
    destruct (write_elem_ok s1 res r c t ls i j (wrap (a + b)) Hsh1 Hi Hj)
      as (s2 & E2 & Hsh2 & Hso2 & Hp & Hother).
    exists s2. split; [done|]. split; [done|]. split; [done|]. split; [|done].
    simpl. unfold f. by rewrite Ha, Hb.
  - done.
  - erewrite bind_ok; [|exact E'].
    eexists _, _. split; [done|].
    eapply op_post_filled; eauto.
    intros i j a b Ha Hb.
    destruct (view_elem_range _ _ _ _ _ _ _ _ Hv1 Hd1 Ha) as [Hi Hj].
    specialize (Hcells i j Hi Hj). simpl in Hcells. rewrite Hcells.
    unfold f. by rewrite Ha, Hb.
Qed.

(** ** Scalar product *)

Lemma matrix_scalar_product_spec s m scalar res o G r c :
  view s m = Some (full G) → objs s !! res = Some o → res ≠ m →
  dims s m = Some (r, c) →
  ∃ rc s', matrix_scalar_product m scalar res s = Ok rc s' ∧
    op_post s res r c (λ cells, ∀ i j a,
        elem G i j = Some a → cells i j = Some (Some (wrap (a * scalar)))) rc s'.
Proof.
  intros Hv Ho Hne Hd.
  destruct (dims_obj _ _ _ _ Hd) as [p Hom].
  destruct (view_dims _ _ _ Hv) as (c' & Hd' & Hc & Hr & _).
  rewrite Hd in Hd'. injection Hd' as Hr' <-.
  assert (Hr0 : 0 <= r <= INT_MAX) by lia. clear Hr Hr'.
  unfold matrix_scalar_product.
  erewrite bind_ok; [|by eapply get_rows_ok].
  erewrite bind_ok; [|by eapply get_columns_ok].
  simpl rows; simpl columns.
  destruct (alloc_result s res o r c Ho Hr0 Hc)
    as (rc & s_a & E & Hsub & Hob & Henv & Hal & Hcase).
  erewrite bind_ok; [|exact E].
  destruct Hcase as [[-> Hng]|(-> & t & ls & Hsh & Hfresh & _)].
  { rewrite decide_True by done. eexists _, _. split; [done|].
    by apply op_post_failed. }
  rewrite decide_False by (intros H; by apply H).
  assert (Hoa : objs s_a !! m = Some (Mat r c p)) by (rewrite Hob; done).
  erewrite bind_ok; [|by eapply get_rows_ok]. simpl rows.
  set (f := λ i j, wrap (default 0 (elem G i j) * scalar)).
  destruct (fill_loops s_a res r c t ls r c (get_columns m)
              (λ i j, a ← read_elem m i j; write_elem res i j (wrap (a * scalar)))
              (λ i j, (i, j)) f) as (s' & E' & Hso & Hsh' & Hcells & _).
  - intros i j i' j' _ _ _ _ [= -> ->]. by split.
  - intros s1 Hso. rewrite (get_columns_ok m (Mat r c p)); [done|].
    rewrite (so_objs _ _ _ Hso). exact Hoa.
  - intros s1 i j Hso Hsh1 Hi Hj.
    assert (Hsub1 : heap s ⊆ heap s1) by (by eapply subseteq_same_outside).
    assert (Hob1 : ∀ m, m ≠ res → objs s1 !! m = objs s !! m).
    { intros m' Hm. rewrite (so_objs _ _ _ Hso). by apply Hob. }
    destruct (view_full_elem _ _ _ _ _ i j Hv Hd Hi Hj) as [a Ha].
    erewrite bind_ok; [|eapply operand_read; eauto].
    destruct (write_elem_ok s1 res r c t ls i j (wrap (a * scalar)) Hsh1 Hi Hj)
      as (s2 & E2 & Hsh2 & Hso2 & Hp & Hother).
    exists s2. split; [done|]. split; [done|]. split; [done|]. split; [|done].
    simpl. unfold f. by rewrite Ha.
  - done.
  - erewrite bind_ok; [|exact E'].
    eexists _, _. split; [done|].
    eapply op_post_filled; eauto.
    intros i j a Ha.
    destruct (view_elem_range _ _ _ _ _ _ _ _ Hv Hd Ha) as [Hi Hj].
    specialize (Hcells i j Hi Hj). simpl in Hcells. rewrite Hcells.
    unfold f. by rewrite Ha.
Qed.

(** ** Transposition *)

Lemma matrix_transposition_spec s m res o G r c :
  view s m = Some (full G) → objs s !! res = Some o → res ≠ m →
  dims s m = Some (r, c) →
  ∃ rc s', matrix_transposition m res s = Ok rc s' ∧
    op_post s res c r (λ cells, ∀ i j a,
        elem G i j = Some a → cells j i = Some (Some a)) rc s'.
Proof.
  intros Hv Ho Hne Hd.
  destruct (dims_obj _ _ _ _ Hd) as [p Hom].
  destruct (view_dims _ _ _ Hv) as (c' & Hd' & Hc & Hr & _).
  rewrite Hd in Hd'. injection Hd' as Hr' <-.
  assert (Hr0 : 0 <= r <= INT_MAX) by lia. clear Hr Hr'.
  unfold matrix_transposition.
  erewrite bind_ok; [|by eapply get_columns_ok].
  erewrite bind_ok; [|by eapply get_rows_ok].
  simpl rows; simpl columns.
  destruct (alloc_result s res o c r Ho Hc Hr0)
    as (rc & s_a & E & Hsub & Hob & Henv & Hal & Hcase).
  erewrite bind_ok; [|exact E].
  destruct Hcase as [[-> Hng]|(-> & t & ls & Hsh & Hfresh & _)].
  { rewrite decide_True by done. eexists _, _. split; [done|].
    by apply op_post_failed. }
  rewrite decide_False by (intros H; by apply H).
  assert (Hoa : objs s_a !! m = Some (Mat r c p)) by (rewrite Hob; done).
  erewrite bind_ok; [|by eapply get_rows_ok]. simpl rows.
  set (f := λ i j, default 0 (elem G i j)).
  destruct (fill_loops s_a res c r t ls r c (get_columns m)
              (λ i j, a ← read_elem m i j; write_elem res j i a)
              (λ i j, (j, i)) f) as (s' & E' & Hso & Hsh' & Hcells & _).
  - intros i j i' j' _ _ _ _ [= -> ->]. by split.
  - intros s1 Hso. rewrite (get_columns_ok m (Mat r c p)); [done|].
    rewrite (so_objs _ _ _ Hso). exact Hoa.
  - intros s1 i j Hso Hsh1 Hi Hj.
    assert (Hsub1 : heap s ⊆ heap s1) by (by eapply subseteq_same_outside).
    assert (Hob1 : ∀ m, m ≠ res → objs s1 !! m = objs s !! m).
    { intros m' Hm. rewrite (so_objs _ _ _ Hso). by apply Hob. }
    destruct (view_full_elem _ _ _ _ _ i j Hv Hd Hi Hj) as [a Ha].
    erewrite bind_ok; [|eapply operand_read; eauto].
    destruct (write_elem_ok s1 res c r t ls j i a Hsh1 Hj Hi)
      as (s2 & E2 & Hsh2 & Hso2 & Hp & Hother).
    exists s2. split; [done|]. split; [done|]. split; [done|]. split; [|done].
    simpl. unfold f. by rewrite Ha.
  - done.
  - erewrite bind_ok; [|exact E'].
    eexists _, _. split; [done|].
    eapply op_post_filled; eauto.
    intros i j a Ha.
    destruct (view_elem_range _ _ _ _ _ _ _ _ Hv Hd Ha) as [Hi Hj].
    specialize (Hcells i j Hi Hj). simpl in Hcells. rewrite Hcells.
    unfold f. by rewrite Ha.
Qed.

(** ** Product *)

Lemma dot_S a b n : dot a b (S n) = wrap (dot a b n + wrap (a n * b n)).
Proof. unfold dot. by rewrite seq_S, fold_left_app. Qed.

Lemma entry_elem G i j a : elem G i j = Some a → entry G i j = a.
Proof. intros H. unfold entry. by rewrite H. Qed.

Lemma matrix_product_spec s m1 m2 res o G1 G2 r n c :
  view s m1 = Some (full G1) → view s m2 = Some (full G2) →
  objs s !! res = Some o → res ≠ m1 → res ≠ m2 →
  dims s m1 = Some (r, n) → dims s m2 = Some (n, c) →
  ∃ rc s', matrix_product m1 m2 res s = Ok rc s' ∧
    op_post s res r c (λ cells, ∀ i j,
        (i < Z.to_nat r)%nat → (j < Z.to_nat c)%nat →
        cells i j = Some (Some (dot (λ k, entry G1 i k) (λ k, entry G2 k j)
                                    (Z.to_nat n)))) rc s'.
Proof.
  intros Hv1 Hv2 Ho Hne1 Hne2 Hd1 Hd2.
  destruct (dims_obj _ _ _ _ Hd1) as [p1 Ho1].
  destruct (dims_obj _ _ _ _ Hd2) as [p2 Ho2].
  destruct (view_dims _ _ _ Hv1) as (c' & Hd1' & _ & Hr & _).
  rewrite Hd1 in Hd1'. injection Hd1' as Hr' <-.
  assert (Hr0 : 0 <= r <= INT_MAX) by lia. clear Hr Hr'.
  destruct (view_dims _ _ _ Hv2) as (c' & Hd2' & Hc & _ & _).
  rewrite Hd2 in Hd2'. injection Hd2' as _ <-.
  unfold matrix_product.
  erewrite bind_ok; [|by eapply get_columns_ok].
  erewrite bind_ok; [|by eapply get_rows_ok].
  simpl rows; simpl columns. rewrite decide_False by (intros H; by apply H).
  erewrite bind_ok; [|by eapply get_rows_ok].
  erewrite bind_ok; [|by eapply get_columns_ok].
  simpl rows; simpl columns.
  destruct (alloc_result s res o r c Ho Hr0 Hc)
    as (rc & s_a & E & Hsub & Hob & Henv & Hal & Hcase).
  erewrite bind_ok; [|exact E].
  destruct Hcase as [[-> Hng]|(-> & t & ls & Hsh & Hfresh & _)].
  { rewrite decide_True by done. eexists _, _. split; [done|].
    by apply op_post_failed. }
  rewrite decide_False by (intros H; by apply H).
  assert (Ho1a : objs s_a !! m1 = Some (Mat r n p1)) by (rewrite Hob; done).
  assert (Ho2a : objs s_a !! m2 = Some (Mat n c p2)) by (rewrite Hob; done).
  erewrite bind_ok; [|by eapply get_rows_ok]. simpl rows.
  set (f := λ i j, dot (λ k, entry G1 i k) (λ k, entry G2 k j) (Z.to_nat n)).
  destruct (fill_loops s_a res r c t ls r c (get_columns m2)
              (λ i j, write_elem res i j 0 ;;
                      n ← get_columns m1;
                      for_ n (λ k,
                        acc ← read_elem res i j;
                        a ← read_elem m1 i k;
                        b ← read_elem m2 k j;
                        write_elem res i j (wrap (acc + wrap (a * b)))))
              (λ i j, (i, j)) f) as (s' & E' & Hso & Hsh' & Hcells & _).
  - intros i j i' j' _ _ _ _ [= -> ->]. by split.
  - intros s1 Hso. rewrite (get_columns_ok m2 (Mat n c p2)); [done|].
    rewrite (so_objs _ _ _ Hso). exact Ho2a.
  - intros s1 i j Hso Hsh1 Hi Hj.
    destruct (write_elem_ok s1 res r c t ls i j 0 Hsh1 Hi Hj)
      as (s2 & E2 & Hsh2 & Hso2 & Hp2 & Hother2).
    erewrite bind_ok; [|exact E2].
    erewrite bind_ok.
    2:{ eapply get_columns_ok. rewrite (so_objs _ _ _ Hso2), (so_objs _ _ _ Hso).
        exact Ho1a. }
    simpl columns.
    destruct (for_inv
      (λ k s3, same_outside ls s1 s3 ∧ shape s3 res r c t ls ∧
               peek s3 res i j =
                 Some (Some (dot (λ k, entry G1 i k) (λ k, entry G2 k j) k)) ∧
               (∀ i' j', (i', j') ≠ (i, j) → peek s3 res i' j' = peek s1 res i' j'))
      (λ k, acc ← read_elem res i j;
            a ← read_elem m1 i k;
            b ← read_elem m2 k j;
            write_elem res i j (wrap (acc + wrap (a * b)))) n s2)
      as (s3 & E3 & Hso3 & Hsh3 & Hp3 & Hother3).
    + done.
    + intros k s3 Hk (Hso3 & Hsh3 & Hp3 & Hother3).
      assert (Hso_a : same_outside ls s_a s3) by (by eapply same_outside_trans).
      assert (Hsub3 : heap s ⊆ heap s3) by (by eapply subseteq_same_outside).
      assert (Hob3 : ∀ m, m ≠ res → objs s3 !! m = objs s !! m).
      { intros m' Hm. rewrite (so_objs _ _ _ Hso_a). by apply Hob. }
      destruct (view_full_elem _ _ _ _ _ i k Hv1 Hd1 Hi Hk) as [a Ha].
      destruct (view_full_elem _ _ _ _ _ k j Hv2 Hd2 Hk Hj) as [b Hb].
      erewrite bind_ok; [|by apply read_elem_ok].
      erewrite bind_ok; [|eapply operand_read; eauto].
      erewrite bind_ok; [|eapply operand_read; eauto].
      destruct (write_elem_ok s3 res r c t ls i j
                  (wrap (dot (λ k, entry G1 i k) (λ k, entry G2 k j) k + wrap (a * b)))
                  Hsh3 Hi Hj)
        as (s4 & E4 & Hsh4 & Hso4 & Hp4 & Hother4).
      exists s4. split; [done|]. split; [by eapply same_outside_trans|].
      split; [done|]. split.
      * rewrite Hp4, dot_S. by rewrite (entry_elem _ _ _ _ Ha), (entry_elem _ _ _ _ Hb).
      * intros i' j' Hij. rewrite Hother4 by done. by apply Hother3.
    + exists s3. split; [done|]. split; [done|]. split; [done|]. by split.
  - done.
  - erewrite bind_ok; [|exact E'].
    eexists _, _. split; [done|].
    eapply op_post_filled; eauto.
Qed.

(** ** Equality *)

Lemma matrix_equal_spec s m1 m2 G1 G2 r c :
  view s m1 = Some (full G1) → view s m2 = Some (full G2) →
  dims s m1 = Some (r, c) → dims s m2 = Some (r, c) →
  ∃ rc, matrix_equal m1 m2 s = Ok rc s ∧
    ((rc = 1 ∧ ∀ i j, (i < Z.to_nat r)%nat → (j < Z.to_nat c)%nat →
                 elem G1 i j = elem G2 i j) ∨
     (rc = 0 ∧ ∃ i j, (i < Z.to_nat r)%nat ∧ (j < Z.to_nat c)%nat ∧
                 elem G1 i j ≠ elem G2 i j)).
Proof.
  intros Hv1 Hv2 Hd1 Hd2.
  destruct (dims_obj _ _ _ _ Hd1) as [p1 Ho1].
  destruct (dims_obj _ _ _ _ Hd2) as [p2 Ho2].
  unfold matrix_equal.
  erewrite bind_ok; [|by eapply get_rows_ok].
  erewrite bind_ok; [|by eapply get_rows_ok].
  erewrite bind_ok; [|by eapply get_columns_ok].
  erewrite bind_ok; [|by eapply get_columns_ok].
  simpl rows; simpl columns. rewrite decide_False by (intros [?|?]; done).
  pose (Q := λ (v : Z) (s' : state), v = 0 ∧ s' = s ∧
     ∃ i j, (i < Z.to_nat r)%nat ∧ (j < Z.to_nat c)%nat ∧ elem G1 i j ≠ elem G2 i j).
  destruct (for_ret_inv
    (λ i s', s' = s ∧ ∀ i' j, (i' < i)%nat → (j < Z.to_nat c)%nat →
                       elem G1 i' j = elem G2 i' j) Q
    (λ i, c ← get_columns m1;
          for_ret c (λ j, a ← read_elem m1 i j; b ← read_elem m2 i j;
                          if decide (a ≠ b) then ret (Some 0) else ret None))
    r s) as (res & s' & E & Hpost).
  - split; [done|]. intros; lia.
  - intros i s1 Hi [-> Hdone].
    erewrite bind_ok; [|by eapply get_columns_ok]. simpl columns.
    destruct (for_ret_inv
      (λ j s', s' = s ∧ ∀ j', (j' < j)%nat → elem G1 i j' = elem G2 i j') Q
      (λ j, a ← read_elem m1 i j; b ← read_elem m2 i j;
            if decide (a ≠ b) then ret (Some 0) else ret None)
      c s) as (res & s' & E & Hpost).
    + split; [done|]. intros; lia.
    + intros j s1 Hj [-> Hrow].
      destruct (view_full_elem _ _ _ _ _ i j Hv1 Hd1 Hi Hj) as [a Ha].
      destruct (view_full_elem _ _ _ _ _ i j Hv2 Hd2 Hi Hj) as [b Hb].
      erewrite bind_ok; [|eapply operand_read; eauto].
      erewrite bind_ok; [|eapply operand_read; eauto].
      destruct (decide (a ≠ b)) as [Hab|Hab].
      * exists (Some 0), s. split; [done|]. split; [done|]. split; [done|].
        exists i, j. split; [done|]. split; [done|]. congruence.
      * exists None, s. split; [done|]. split; [done|]. intros j' Hj'.
        destruct (decide (j' = j)) as [->|?]; [|apply Hrow; lia].
        rewrite Ha, Hb. f_equal. by destruct (decide (a = b)).
    + exists res, s'. split; [done|]. destruct res as [v|]; [done|].
      destruct Hpost as [-> Hrow]. split; [done|]. intros i' j Hi' Hj.
      destruct (decide (i' = i)) as [->|?]; [by apply Hrow|apply Hdone; [lia|done]].
  - erewrite bind_ok; [|exact E]. destruct res as [v|].
    + destruct Hpost as (-> & -> & Hex). exists 0. split; [done|]. by right.
    + destruct Hpost as [-> Hall]. exists 1. split; [done|]. by left.
Qed.

(** ** Initialisation *)

Lemma matrix_init_n_spec s m r c t ls n :
  shape s m r c t ls →
  ∃ s', matrix_init_n m n s = Ok tt s' ∧ same_outside ls s s' ∧
        shape s' m r c t ls ∧
        (∀ i j, (i < Z.to_nat r)%nat → (j < Z.to_nat c)%nat →
           peek s' m i j = Some (Some n)).
Proof.
  intros Hsh. unfold matrix_init_n.
  erewrite bind_ok; [|eapply get_rows_ok, (shape_obj _ _ _ _ _ _ Hsh)]. simpl rows.
  destruct (fill_loops s m r c t ls r c (get_columns m)
              (λ i j, write_elem m i j n) (λ i j, (i, j)) (λ _ _, n))
    as (s' & E & Hso & Hsh' & Hcells & _).
  - intros i j i' j' _ _ _ _ [= -> ->]. by split.
  - intros s1 Hso.
    rewrite (get_columns_ok m (Mat r c (Ptr t))); [done|].
    rewrite (so_objs _ _ _ Hso). apply (shape_obj _ _ _ _ _ _ Hsh).
  - intros s1 i j _ Hsh1 Hi Hj.
    destruct (write_elem_ok s1 m r c t ls i j n Hsh1 Hi Hj)
      as (s2 & E2 & Hsh2 & Hso2 & Hp & Hother).
    by exists s2.
  - done.
  - by exists s'.
Qed.

Lemma matrix_init_identity_spec s m n t ls :
  shape s m n n t ls →
  ∃ s', matrix_init_identity m s = Ok 0 s' ∧ same_outside ls s s' ∧
        shape s' m n n t ls ∧
        (∀ i j, (i < Z.to_nat n)%nat → (j < Z.to_nat n)%nat →
           peek s' m i j = Some (Some (if decide (i = j) then 1 else 0))).
Proof.
  intros Hsh. unfold matrix_init_identity.
  pose proof (shape_obj _ _ _ _ _ _ Hsh) as Ho.
  erewrite bind_ok; [|by eapply get_rows_ok].
  erewrite bind_ok; [|by eapply get_columns_ok].
  simpl rows; simpl columns. rewrite decide_False by (intros H; by apply H).
  destruct (matrix_init_n_spec s m n n t ls 0 Hsh) as (s1 & E1 & Hso1 & Hsh1 & Hz).
  unfold matrix_init_zeros. erewrite bind_ok; [|exact E1].
  erewrite bind_ok; [|eapply get_rows_ok, (shape_obj _ _ _ _ _ _ Hsh1)]. simpl rows.
  destruct (for_inv
    (λ k s2, same_outside ls s s2 ∧ shape s2 m n n t ls ∧
             ∀ i j, (i < Z.to_nat n)%nat → (j < Z.to_nat n)%nat →
               peek s2 m i j =
                 Some (Some (if decide (i = j ∧ (i < k)%nat) then 1 else 0)))
    (λ i, write_elem m i i 1) n s1) as (s2 & E2 & Hso2 & Hsh2 & Hcells).
  - split; [done|]. split; [done|]. intros i j Hi Hj.
    rewrite decide_False by lia. by apply Hz.
  - intros k s2 Hk (Hso2 & Hsh2 & Hcells).
    destruct (write_elem_ok s2 m n n t ls k k 1 Hsh2 Hk Hk)
      as (s3 & E3 & Hsh3 & Hso3 & Hp & Hother).
    exists s3. split; [done|]. split; [by eapply same_outside_trans|].
    split; [done|]. intros i j Hi Hj.
    destruct (decide ((i, j) = (k, k))) as [[= -> ->]|Hne].
    + rewrite Hp. by rewrite decide_True by lia.
    + rewrite Hother, Hcells by done. do 2 f_equal.
      destruct (decide (i = j ∧ (i < k)%nat)) as [[-> ?]|?].
      * by rewrite decide_True by lia.
      * rewrite decide_False; [done|]. intros [-> ?].
        assert (j = k) as -> by lia. done.
  - erewrite bind_ok; [|exact E2]. exists s2. split; [done|].
    split; [done|]. split; [done|]. intros i j Hi Hj. rewrite Hcells by done.
    do 2 f_equal. destruct (decide (i = j)) as [->|?].
    + by rewrite decide_True by lia.
    + by rewrite decide_False by (intros [? _]; done).
Qed.

(** ** Reading a text *)

Lemma fgets_take_length n s l r :
  fgets_take n s = (l, r) → s = l ++ r ∧ (length l ≤ n)%nat ∧
  (n ≠ 0%nat → s ≠ [] → l ≠ []).
Proof.
  revert s l r. induction n as [|n IH]; intros [|c s] l r; simpl;
    try (intros [= <- <-]; split; [done|split; [simpl; lia|done]]).
  destruct (decide (c = newline)).
  - intros [= <- <-]. split; [done|]. split; [simpl; lia|done].
  - destruct (fgets_take n s) as [l' r'] eqn:E. intros [= <- <-].
    destruct (IH s l' r' E) as (-> & Hlen & _).
    split; [done|]. split; [simpl; lia|done].
Qed.

(** More fuel does not change what the loop on [fgets] reads. *)
Lemma fgets_loop_fuel fuel s :
  (length s ≤ fuel)%nat → fgets_loop fuel s = fgets_loop (length s) s.
Proof.
  revert s. induction fuel as [fuel IH] using lt_wf_ind. intros s Hlen.
  destruct s as [|c s]; [by destruct fuel|].
  destruct fuel as [|fuel]; [simpl in Hlen; lia|]. simpl length.
  change (fgets_loop (S fuel) (c :: s)) with
    (let '(l, rest) := fgets_take 1023 (c :: s) in c_string l :: fgets_loop fuel rest).
  change (fgets_loop (S (length s)) (c :: s)) with
    (let '(l, rest) := fgets_take 1023 (c :: s) in
     c_string l :: fgets_loop (length s) rest).
  destruct (fgets_take 1023 (c :: s)) as [l rest] eqn:E.
  destruct (fgets_take_length _ _ _ _ E) as (Hs & _ & Hne).
  assert (length rest ≤ length s)%nat.
  { assert (l ≠ []) by (by apply Hne).
    apply (f_equal length) in Hs. rewrite length_app in Hs. simpl in Hs.
    destruct l; [done|]. simpl in Hs. lia. }
  simpl in Hlen. rewrite (IH fuel) by lia. rewrite (IH (length s)) by lia. done.
Qed.

Lemma line_start_tail c t : line_start (c :: t) → line_start t.
Proof.
  intros [?|H]; [done|]. destruct t as [|c' t]; [by left|]. right.
  by rewrite last_cons_cons in H.
Qed.

Lemma fgets_take_app n t u l r :
  t ≠ [] → line_start t → fgets_take n t = (l, r) →
  fgets_take n (t ++ u) = (l, r ++ u) ∧ line_start r.
Proof.
  revert t l r. induction n as [|n IH]; intros [|c t] l r Hne Hls; try done; simpl.
  - intros [= <- <-]. done.
  - destruct (decide (c = newline)) as [->|Hc].
    + intros [= <- <-]. split; [done|]. by eapply line_start_tail.
    + destruct (fgets_take n t) as [l' r'] eqn:E. intros [= <- <-].
      assert (t ≠ []).
      { intros ->. destruct Hls as [?|Hl]; [done|]. simpl in Hl. congruence. }
      destruct (IH t l' r') as [-> ?]; [done|by eapply line_start_tail|done|].
      done.
Qed.

Lemma fgets_loop_app fuel t u :
  line_start t → (length t ≤ fuel)%nat →
  fgets_loop (fuel + length u) (t ++ u) = fgets_loop fuel t ++ fgets_loop (length u) u.
Proof.
  revert t. induction fuel as [|fuel IH]; intros t Hls Hlen.
  - destruct t; [done|simpl in Hlen; lia].
  - destruct t as [|c t].
    + simpl app. rewrite fgets_loop_fuel by lia. done.
    + change (fgets_loop (S fuel) (c :: t)) with
        (let '(l, rest) := fgets_take 1023 (c :: t) in c_string l :: fgets_loop fuel rest).
      change (fgets_loop (S fuel + length u) ((c :: t) ++ u)) with
        (let '(l, rest) := fgets_take 1023 ((c :: t) ++ u) in
         c_string l :: fgets_loop (fuel + length u) rest).
      destruct (fgets_take 1023 (c :: t)) as [l rest] eqn:E.
      destruct (fgets_take_app 1023 (c :: t) u l rest) as [-> Hls']; try done.
      destruct (fgets_take_length _ _ _ _ E) as (Hs & _ & Hl).
      assert (length rest ≤ fuel)%nat.
      { assert (l ≠ []) by (by apply Hl).
        apply (f_equal length) in Hs. rewrite length_app in Hs. simpl in Hs, Hlen.
        destruct l; [done|]. simpl in Hs. lia. }
      by rewrite IH.
Qed.

Lemma fgets_all_app t u :
  line_start t → fgets_all (t ++ u) = fgets_all t ++ fgets_all u.
Proof.
  intros Hls. unfold fgets_all. rewrite length_app. by apply fgets_loop_app.
Qed.

(** A blank line is read as a line of its own, which is skipped. *)
Lemma fgets_all_blank u : fgets_all (newline :: u) = [newline] :: fgets_all u.
Proof. done. Qed.

Lemma data_lines_blank t u :
  line_start t → data_lines (t ++ newline :: u) = data_lines (t ++ u).
Proof.
  intros Hls. unfold data_lines.
  rewrite !fgets_all_app, fgets_all_blank, !filter_app by done.
  rewrite filter_cons_False; [done|]. by vm_compute.
Qed.

(** ** The two passes of the parser *)

Lemma wrap_small z : INT_MIN <= z <= INT_MAX → wrap z = z.
Proof.
  unfold wrap, INT_MIN, INT_MAX. intros H. rewrite Z.mod_small; lia.
Qed.

Lemma first_pass_filter lines acc :
  fold_left count_line lines acc =
  fold_left count_line (filter (λ line, skipped line = false) lines) acc.
Proof.
  revert acc. induction lines as [|line lines IH]; intros [rows cols]; [done|].
  cbn [fold_left]. destruct (skipped line) eqn:E.
  - rewrite filter_cons_False by (by rewrite E).
    unfold count_line at 2. rewrite E. apply IH.
  - rewrite filter_cons_True by done. cbn [fold_left]. apply IH.
Qed.

Lemma second_pass_filter m cols lines row s :
  second_pass m cols lines row s =
  second_pass m cols (filter (λ line, skipped line = false) lines) row s.
Proof.
  revert row s. induction lines as [|line lines IH]; intros row s; [done|].
  cbn [second_pass]. destruct (skipped line) eqn:E.
  - rewrite filter_cons_False by (by rewrite E). apply IH.
  - rewrite filter_cons_True by done. cbn [second_pass]. rewrite E.
    unfold mbind, M_bind, bind.
    destruct (store_tokens m cols row (tokens line) 0 s); [apply IH|done].
Qed.

(** The parser goes by the lines that it does not skip. *)
Lemma parse_data_lines m path text s :
  files s !! path = Some text →
  matrix_allocate_and_init_file m path s =
    (let '(rows, columns) := first_pass (data_lines text) in
     rc ← matrix_allocate m rows columns;
     if decide (rc ≠ 0) then ret (-1)
     else second_pass m columns (data_lines text) 0 ;; ret 0) s.
Proof.
  intros Hf. unfold matrix_allocate_and_init_file, fopen_r, data_lines.
  unfold mbind at 1, M_bind at 1, bind at 1. rewrite Hf.
  unfold first_pass. rewrite <- first_pass_filter.
  destruct (fold_left count_line (fgets_all text) (0, 0)) as [rows cols].
  unfold mbind, M_bind, bind.
  destruct (matrix_allocate m rows cols s) as [rc s1|]; [|done].
  destruct (decide (rc ≠ 0)); [done|].
  by rewrite <- second_pass_filter.
Qed.

(** The tokens of a line. *)
Lemma strtok_loop_length fuel tok save :
  (length (strtok_loop fuel tok save) ≤ fuel)%nat.
Proof.
  revert tok save. induction fuel as [|fuel IH]; intros tok save; simpl; [lia|].
  destruct tok as [t|]; simpl; [|lia].
  destruct (strtok_r None [space] save) as [tok' save']. simpl.
  specialize (IH tok' save'). lia.
Qed.

Lemma tokens_length line : (length (tokens line) ≤ length line)%nat.
Proof.
  unfold tokens. destruct (strtok_r (Some line) [space] []) as [tok save].
  apply strtok_loop_length.
Qed.

Lemma c_string_length buf : (length (c_string buf) ≤ length buf)%nat.
Proof.
  induction buf as [|c buf IH]; simpl; [lia|].
  destruct (decide (c = NUL)); simpl; lia.
Qed.

Lemma fgets_loop_lengths fuel s :
  Forall (λ line, (length line ≤ 1023)%nat) (fgets_loop fuel s).
Proof.
  revert s. induction fuel as [|fuel IH]; intros s; [constructor|].
  destruct s as [|c s]; [constructor|].
  change (fgets_loop (S fuel) (c :: s)) with
    (let '(l, rest) := fgets_take 1023 (c :: s) in c_string l :: fgets_loop fuel rest).
  destruct (fgets_take 1023 (c :: s)) as [l r] eqn:E.
  destruct (fgets_take_length _ _ _ _ E) as (_ & Hlen & _).
  constructor; [|apply IH]. pose proof (c_string_length l). lia.
Qed.

Lemma data_lines_lengths text :
  Forall (λ line, (length line ≤ 1023)%nat ∧ skipped line = false) (data_lines text).
Proof.
  unfold data_lines. apply Forall_forall. intros line Hin.
  apply list_elem_of_filter in Hin as [Hsk Hin]. split; [|done].
  pose proof (fgets_loop_lengths (length text) text) as H.
  rewrite Forall_forall in H. by apply H.
Qed.

Lemma count_tokens {A} (toks : list A) (k : Z) :
  0 <= k → k + Z.of_nat (length toks) <= INT_MAX →
  fold_left (λ n _, wrap (n + 1)) toks k = k + Z.of_nat (length toks).
Proof.
  revert k. induction toks as [|tok toks IH]; intros k Hk Hmax; simpl.
  - lia.
  - simpl length in Hmax. rewrite wrap_small by (unfold INT_MIN, INT_MAX in *; lia).
    rewrite IH by lia. lia.
Qed.

Lemma count_line_data rows cols line :
  skipped line = false →
  count_line (rows, cols) line =
    (wrap (rows + 1),
     if decide (rows = 0)
     then fold_left (λ n _, wrap (n + 1)) (tokens line) cols else cols).
Proof. intros H. unfold count_line. by rewrite H. Qed.

Lemma first_pass_rest data (k cols : Z) :
  Forall (λ line, (length line ≤ 1023)%nat ∧ skipped line = false) data →
  0 < k → k + Z.of_nat (length data) <= INT_MAX →
  fold_left count_line data (k, cols) = (k + Z.of_nat (length data), cols).
Proof.
  revert k. induction data as [|line data IH]; intros k Hd Hk Hmax; cbn [fold_left].
  - f_equal. simpl. lia.
  - apply Forall_cons in Hd as [[_ Hsk] Hd]. rewrite count_line_data by done.
    rewrite decide_False by lia. simpl length in Hmax.
    rewrite wrap_small by (unfold INT_MIN, INT_MAX in *; lia).
    rewrite IH by (done || lia). f_equal. simpl length. lia.
Qed.

Lemma first_pass_data data :
  Forall (λ line, (length line ≤ 1023)%nat ∧ skipped line = false) data →
  Z.of_nat (length data) <= INT_MAX →
  first_pass data =
    (Z.of_nat (length data),
     match data with [] => 0 | line :: _ => Z.of_nat (length (tokens line)) end).
Proof.
  intros Hd Hmax. destruct data as [|line data]; [done|].
  unfold first_pass. cbn [fold_left].
  apply Forall_cons in Hd as [[Hlen Hsk] Hd]. rewrite count_line_data by done.
  rewrite decide_True by done.
  pose proof (tokens_length line).
  rewrite count_tokens by (unfold INT_MAX; lia).
  simpl length in Hmax. rewrite wrap_small by (unfold INT_MIN, INT_MAX in *; lia).
  rewrite first_pass_rest by (done || lia). f_equal. simpl length. lia.
Qed.

Lemma index_ok (n : nat) s : index (Z.of_nat n) s = Ok n s.
Proof. unfold index. rewrite decide_True by lia. by rewrite Nat2Z.id. Qed.

Lemma store_tokens_spec s m r c t ls i toks j0 :
  shape s m r c t ls → (i < Z.to_nat r)%nat → c <= INT_MAX →
  ∃ s', store_tokens m c (Z.of_nat i) toks (Z.of_nat j0) s = Ok tt s' ∧
        same_outside ls s s' ∧ shape s' m r c t ls ∧
        ∀ i' j', peek s' m i' j' =
          match (if decide (i' = i ∧ (j0 ≤ j')%nat ∧ (j' < Z.to_nat c)%nat)
                 then toks !! (j' - j0)%nat else None) with
          | Some tok => Some (Some (atoi tok))
          | None => peek s m i' j'
          end.
Proof.
  intros Hsh Hi Hc. revert j0 s Hsh.
  induction toks as [|tok toks IH]; intros j0 s Hsh; cbn [store_tokens].
  - exists s. split; [done|]. split; [apply same_outside_refl|]. split; [done|].
    intros i' j'. by destruct (decide _).
  - destruct (decide (Z.of_nat j0 < c)) as [Hlt|Hge].
    + rewrite (bind_ok _ _ _ _ _ (index_ok i s)).
      rewrite (bind_ok _ _ _ _ _ (index_ok j0 s)).
      destruct (write_elem_ok s m r c t ls i j0 (atoi tok) Hsh Hi)
        as (s1 & E1 & Hsh1 & Hso1 & Hp1 & Hother1); [lia|].
      rewrite (bind_ok _ _ _ _ _ E1).
      rewrite wrap_small by (unfold INT_MIN, INT_MAX in *; lia).
      replace (Z.of_nat j0 + 1) with (Z.of_nat (S j0)) by lia.
      destruct (IH (S j0) s1 Hsh1) as (s2 & E2 & Hso2 & Hsh2 & Hcells).
      exists s2. split; [done|]. split; [by eapply same_outside_trans|].
      split; [done|]. intros i' j'. rewrite Hcells.
      destruct (decide (i' = i ∧ (j0 ≤ j')%nat ∧ (j' < Z.to_nat c)%nat))
        as [(-> & Hj1 & Hj2)|Hno].
      * destruct (decide (j' = j0)) as [->|Hne].
        { rewrite decide_False by lia. rewrite Nat.sub_diag. simpl. done. }
        rewrite decide_True by lia.
        replace (j' - j0)%nat with (S (j' - S j0)) by lia. simpl.
        destruct (toks !! (j' - S j0)%nat); [done|].
        apply Hother1. intros [= ?]. done.
      * rewrite decide_False by lia. apply Hother1. intros [= -> ->]. lia.
    + destruct (IH j0 s Hsh) as (s2 & E2 & Hso2 & Hsh2 & Hcells).
      exists s2. split; [done|]. split; [done|]. split; [done|].
      intros i' j'. rewrite Hcells.
      rewrite !decide_False by lia. done.
Qed.

Lemma second_pass_spec s m r c t ls data k :
  shape s m r c t ls → c <= INT_MAX → r <= INT_MAX →
  Forall (λ line, skipped line = false) data →
  (k + length data ≤ Z.to_nat r)%nat →
  ∃ s', second_pass m c data (Z.of_nat k) s = Ok tt s' ∧
        same_outside ls s s' ∧ shape s' m r c t ls ∧
        ∀ i j, peek s' m i j =
          match (if decide ((k ≤ i)%nat ∧ (j < Z.to_nat c)%nat)
                 then data !! (i - k)%nat ≫= (λ line, tokens line !! j)
                 else None) with
          | Some tok => Some (Some (atoi tok))
          | None => peek s m i j
          end.
Proof.
  intros Hsh Hc Hr Hd. revert k s Hsh.
  induction Hd as [|line data Hsk Hd IH]; intros k s Hsh Hk; cbn [second_pass].
  - exists s. split; [done|]. split; [apply same_outside_refl|]. split; [done|].
    intros i j. by destruct (decide _).
  - rewrite Hsk. simpl length in Hk.
    destruct (store_tokens_spec s m r c t ls k (tokens line) 0 Hsh)
      as (s1 & E1 & Hso1 & Hsh1 & Hcells1); [lia|done|].
    change 0 with (Z.of_nat 0). rewrite (bind_ok _ _ _ _ _ E1).
    rewrite wrap_small by (unfold INT_MIN, INT_MAX in *; lia).
    replace (Z.of_nat k + 1) with (Z.of_nat (S k)) by lia.
    destruct (IH (S k) s1 Hsh1) as (s2 & E2 & Hso2 & Hsh2 & Hcells2); [lia|].
    exists s2. split; [done|]. split; [by eapply same_outside_trans|].
    split; [done|]. intros i j. rewrite Hcells2, Hcells1.
    destruct (decide ((k ≤ i)%nat ∧ (j < Z.to_nat c)%nat)) as [[Hi Hj]|Hno].
    + destruct (decide (i = k)) as [->|Hne].
      * rewrite (decide_False (P := (S k ≤ k)%nat ∧ _)) by lia.
        rewrite decide_True by lia. rewrite Nat.sub_diag, Nat.sub_0_r. done.
      * rewrite (decide_True (P := (S k ≤ i)%nat ∧ _)) by lia.
        replace (i - k)%nat with (S (i - S k)) by lia. simpl.
        destruct (data !! (i - S k)%nat ≫= λ line0, tokens line0 !! j); [done|].
        rewrite decide_False by lia. done.
    + rewrite (decide_False (P := (S k ≤ i)%nat ∧ _)) by lia.
      destruct (decide (i = k ∧ (0 ≤ j)%nat ∧ (j < Z.to_nat c)%nat)); [lia|done].
Qed.

(** ** The loop on [strtok_r] ends before its fuel does *)

Lemma skip_delims_length d s : (length (skip_delims d s) ≤ length s)%nat.
Proof.
  induction s as [|c s IH]; simpl; [lia|].
  destruct (bool_decide (c ∈ d)); simpl; lia.
Qed.

Lemma token_end_length d s t r :
  token_end d s = (t, r) → (length t + length r ≤ length s)%nat.
Proof.
  revert t r. induction s as [|c s IH]; intros t r; simpl.
  - intros [= <- <-]. simpl. lia.
  - destruct (bool_decide (c ∈ d)).
    + intros [= <- <-]. simpl. lia.
    + destruct (token_end d s) as [t' r'] eqn:E. intros [= <- <-].
      specialize (IH t' r' eq_refl). simpl. lia.
Qed.

Lemma skip_delims_head d s c s' :
  skip_delims d s = c :: s' → bool_decide (c ∈ d) = false.
Proof.
  induction s as [|c0 s IH]; simpl; [done|].
  destruct (bool_decide (c0 ∈ d)) eqn:E; [done|]. by intros [= <- <-].
Qed.

(** A token is not empty, and [saveptr] moves past it. *)
Lemma strtok_r_some str d save t save' :
  strtok_r str d save = (Some t, save') →
  t ≠ [] ∧ (length t + length save' ≤ length (default save str))%nat.
Proof.
  unfold strtok_r. pose proof (skip_delims_length d (default save str)) as Hlen.
  destruct (skip_delims d (default save str)) as [|c s1] eqn:E; [done|].
  pose proof (skip_delims_head _ _ _ _ E) as Hc.
  destruct (token_end d (c :: s1)) as [t' r'] eqn:E'. intros [= <- <-].
  pose proof (token_end_length _ _ _ _ E') as Hlen'. split; [|lia].
  simpl in E'. rewrite Hc in E'. destruct (token_end d s1). by injection E' as <- <-.
Qed.

Lemma strtok_loop_fuel fuel tok save :
  (length save < fuel)%nat →
  strtok_loop fuel tok save = strtok_loop (S (length save)) tok save.
Proof.
  revert tok save. induction fuel as [fuel IH] using lt_wf_ind. intros tok save Hlen.
  destruct fuel as [|fuel]; [lia|]. cbn [strtok_loop].
  destruct tok as [t|]; [|done].
  destruct (strtok_r None [space] save) as [[t'|] save'] eqn:E.
  - destruct (strtok_r_some _ _ _ _ _ E) as [Hne Hl]. simpl in Hl.
    assert (length save' < length save)%nat by (destruct t'; [done|simpl in Hl; lia]).
    rewrite (IH fuel) by lia. rewrite (IH (length save)) by lia. done.
  - by destruct fuel, (length save).
Qed.

(** [tokens] with any larger fuel. *)
Lemma tokens_fuel line fuel :
  (length line ≤ fuel)%nat →
  (let '(token, saveptr) := strtok_r (Some line) [space] [] in
   strtok_loop fuel token saveptr) = tokens line.
Proof.
  intros Hlen. unfold tokens.
  destruct (strtok_r (Some line) [space] []) as [[t|] save] eqn:E.
  - destruct (strtok_r_some _ _ _ _ _ E) as [Hne Hl]. simpl in Hl.
    assert (length save < length line)%nat by (destruct t; [done|simpl in Hl; lia]).
    rewrite strtok_loop_fuel by lia. symmetry. by rewrite strtok_loop_fuel by lia.
  - by destruct fuel, (length line).
Qed.

(** The lines of a text with any larger fuel. *)
Lemma fgets_all_fuel text fuel :
  (length text ≤ fuel)%nat → fgets_loop fuel text = fgets_all text.
Proof. apply fgets_loop_fuel. Qed.

(** ** The checks of the preconditions *)

Lemma matrix_init_identity_not_square s m r c :
  dims s m = Some (r, c) → r ≠ c → matrix_init_identity m s = Ok (-1) s.
Proof.
  intros Hd Hne. destruct (dims_obj _ _ _ _ Hd) as [p Ho].
  unfold matrix_init_identity.
  erewrite bind_ok; [|by eapply get_rows_ok].
  erewrite bind_ok; [|by eapply get_columns_ok].
  simpl rows; simpl columns. by rewrite decide_True.
Qed.

Lemma matrix_sum_mismatch s m1 m2 result r1 c1 r2 c2 :
  dims s m1 = Some (r1, c1) → dims s m2 = Some (r2, c2) →
  (r1, c1) ≠ (r2, c2) → matrix_sum m1 m2 result s = Ok (-1) s.
Proof.
  intros Hd1 Hd2 Hne. destruct (dims_obj _ _ _ _ Hd1) as [p1 Ho1].
  destruct (dims_obj _ _ _ _ Hd2) as [p2 Ho2]. unfold matrix_sum.
  erewrite bind_ok; [|by eapply get_rows_ok].
  erewrite bind_ok; [|by eapply get_rows_ok].
  erewrite bind_ok; [|by eapply get_columns_ok].
  erewrite bind_ok; [|by eapply get_columns_ok].
  simpl rows; simpl columns. rewrite decide_True; [done|].
  destruct (decide (r1 = r2)) as [E1|?]; [|by left].
  right. intros E2. simpl in E2. apply Hne. by rewrite E1, E2.
Qed.

Lemma matrix_product_mismatch s m1 m2 result r1 c1 r2 c2 :
  dims s m1 = Some (r1, c1) → dims s m2 = Some (r2, c2) →
  c1 ≠ r2 → matrix_product m1 m2 result s = Ok (-1) s.
Proof.
  intros Hd1 Hd2 Hne. destruct (dims_obj _ _ _ _ Hd1) as [p1 Ho1].
  destruct (dims_obj _ _ _ _ Hd2) as [p2 Ho2]. unfold matrix_product.
  erewrite bind_ok; [|by eapply get_columns_ok].
  erewrite bind_ok; [|by eapply get_rows_ok].
  simpl rows; simpl columns. by rewrite decide_True.
Qed.

(** * The claims *)

Lemma wrap_add_l a b : wrap (wrap a + b) = wrap (a + b).
Proof.
  unfold wrap. f_equal.
  replace ((a + 2 ^ 31) mod 2 ^ 32 - 2 ^ 31 + b + 2 ^ 31)
    with ((a + 2 ^ 31) mod 2 ^ 32 + b) by lia.
  rewrite Zplus_mod_idemp_l. f_equal. lia.
Qed.

Lemma wrap_add_r a b : wrap (a + wrap b) = wrap (a + b).
Proof. rewrite (Z.add_comm a), wrap_add_l. f_equal. lia. Qed.

(** The accumulation in [int] is the sum of the products, brought into
    the range of [int] once. *)
Lemma dot_big_sum a b n : dot a b n = wrap (big_sum (λ k, a k * b k) n).
Proof.
  induction n as [|n IH]; [done|].
  rewrite dot_S, IH. simpl. by rewrite wrap_add_l, wrap_add_r.
Qed.

(** C4. [matrix_sum] returns -1 and leaves the state as it is when the
    dimensions of its operands differ; when they agree and every [malloc]
    is granted, it returns 0, the result has the dimensions of the first
    operand and each of its cells holds the sum, in [int] arithmetic, of
    the cells of the operands. *)
Theorem matrix_sum_correct s m1 m2 res o G1 G2 r1 c1 r2 c2 :
  view s m1 = Some (full G1) → view s m2 = Some (full G2) →
  dims s m1 = Some (r1, c1) → dims s m2 = Some (r2, c2) →
  objs s !! res = Some o → res ≠ m1 → res ≠ m2 →
  ((r1, c1) ≠ (r2, c2) → matrix_sum m1 m2 res s = Ok (-1) s) ∧
  ((r1, c1) = (r2, c2) → granted s →
   ∃ s', matrix_sum m1 m2 res s = Ok 0 s' ∧ dims s' res = Some (r1, c1) ∧
     ∀ i j, (i < Z.to_nat r1)%nat → (j < Z.to_nat c1)%nat →
       ∃ a b, elem G1 i j = Some a ∧ elem G2 i j = Some b ∧
              read_elem res i j s' = Ok (wrap (a + b)) s').
Proof.
  intros Hv1 Hv2 Hd1 Hd2 Ho Hne1 Hne2. split.
  - intros Hne. by eapply matrix_sum_mismatch.
  - intros [= <- <-] Hg.
    destruct (matrix_sum_spec s m1 m2 res o G1 G2 r1 c1)
      as (rc & s' & E & _ & _ & _ & _ & [[_ Hng]|(-> & Hd & _ & Hcells)]); try done.
    exists s'. split; [done|]. split; [done|]. intros i j Hi Hj.
    destruct (view_full_elem _ _ _ _ _ i j Hv1 Hd1 Hi Hj) as [a Ha].
    destruct (view_full_elem _ _ _ _ _ i j Hv2 Hd2 Hi Hj) as [b Hb].
    exists a, b. split; [done|]. split; [done|].
    apply read_elem_ok. by apply Hcells.
Qed.

(** C3. [matrix_product] returns -1 and leaves the state as it is when
    the number of columns of the first operand is not the number of rows
    of the second; otherwise, every [malloc] being granted, it returns 0,
    the result has the rows of the first operand and the columns of the
    second, and each of its cells holds the products accumulated for [k]
    from 0 upwards in [int] arithmetic, which is the sum of the products
    brought into the range of [int]. *)
Theorem matrix_product_correct s m1 m2 res o G1 G2 r1 n1 r2 c2 :
  view s m1 = Some (full G1) → view s m2 = Some (full G2) →
  dims s m1 = Some (r1, n1) → dims s m2 = Some (r2, c2) →
  objs s !! res = Some o → res ≠ m1 → res ≠ m2 →
  (n1 ≠ r2 → matrix_product m1 m2 res s = Ok (-1) s) ∧
  (n1 = r2 → granted s →
   ∃ s', matrix_product m1 m2 res s = Ok 0 s' ∧ dims s' res = Some (r1, c2) ∧
     ∀ i j, (i < Z.to_nat r1)%nat → (j < Z.to_nat c2)%nat →
       read_elem res i j s' =
         Ok (fold_left (λ acc k, wrap (acc + wrap (entry G1 i k * entry G2 k j)))
               (seq 0 (Z.to_nat n1)) 0) s' ∧
       fold_left (λ acc k, wrap (acc + wrap (entry G1 i k * entry G2 k j)))
               (seq 0 (Z.to_nat n1)) 0 =
         wrap (big_sum (λ k, entry G1 i k * entry G2 k j) (Z.to_nat n1))).
Proof.
  intros Hv1 Hv2 Hd1 Hd2 Ho Hne1 Hne2. split.
  - intros Hne. by eapply matrix_product_mismatch.
  - intros <- Hg.
    destruct (matrix_product_spec s m1 m2 res o G1 G2 r1 n1 c2)
      as (rc & s' & E & _ & _ & _ & _ & [[_ Hng]|(-> & Hd & _ & Hcells)]); try done.
    exists s'. split; [done|]. split; [done|]. intros i j Hi Hj. split.
    + apply read_elem_ok. by apply Hcells.
    + apply (dot_big_sum (λ k, entry G1 i k) (λ k, entry G2 k j)).
Qed.

(** C6. On a well-formed matrix [matrix_init_identity] returns -1 and
    leaves the state as it is when the matrix is not square; when it is
    square it returns 0 and leaves 1 on the diagonal and 0 elsewhere. *)
Theorem matrix_init_identity_correct s m g r c :
  view s m = Some g → dims s m = Some (r, c) →
  (r ≠ c → matrix_init_identity m s = Ok (-1) s) ∧
  (r = c →
   ∃ s', matrix_init_identity m s = Ok 0 s' ∧ dims s' m = Some (r, c) ∧
     ∀ i j, (i < Z.to_nat r)%nat → (j < Z.to_nat c)%nat →
       read_elem m i j s' = Ok (if decide (i = j) then 1 else 0) s').
Proof.
  intros Hv Hd. split.
  - intros Hne. by eapply matrix_init_identity_not_square.
  - intros <-.
    destruct (view_inv _ _ _ Hv) as (r' & c' & t & ls & Hsh & _).
    assert (r' = r ∧ c' = r) as [-> ->].
    { unfold dims in Hd. rewrite (shape_obj _ _ _ _ _ _ Hsh) in Hd.
      simpl in Hd. by injection Hd as -> ->. }
    destruct (matrix_init_identity_spec s m r t ls Hsh) as (s' & E & Hso & Hsh' & Hcells).
    exists s'. split; [done|]. split.
    + unfold dims. by rewrite (shape_obj _ _ _ _ _ _ Hsh').
    + intros i j Hi Hj. apply read_elem_ok. by apply Hcells.
Qed.

(** C10. The operations that check a precondition do so before they write:
    [matrix_init_identity] on a matrix that is not square, [matrix_init_rand]
    with [val_min > val_max], [matrix_sum] on operands of different
    dimensions and [matrix_product] on operands whose inner dimensions
    differ return -1 in the state in which they were called, whatever the
    result object is. *)
Theorem checks_before_writes s m m1 m2 res val_min val_max r c r1 c1 r2 c2 :
  dims s m = Some (r, c) → dims s m1 = Some (r1, c1) → dims s m2 = Some (r2, c2) →
  (r ≠ c → matrix_init_identity m s = Ok (-1) s) ∧
  (val_min > val_max → matrix_init_rand m val_min val_max s = Ok (-1) s) ∧
  ((r1, c1) ≠ (r2, c2) → matrix_sum m1 m2 res s = Ok (-1) s) ∧
  (c1 ≠ r2 → matrix_product m1 m2 res s = Ok (-1) s).
Proof.
  intros Hd Hd1 Hd2. split; [|split; [|split]].
  - intros Hne. by eapply matrix_init_identity_not_square.
  - intros Hlt. unfold matrix_init_rand. by rewrite decide_True.
  - intros Hne. by eapply matrix_sum_mismatch.
  - intros Hne. by eapply matrix_product_mismatch.
Qed.

Lemma unmodified_same s result m1 m2 rc :
  unmodified s result m1 m2 (Ok rc s).
Proof. exists rc, s. by repeat split. Qed.

Lemma unmodified_post s result m1 m2 g1 g2 r c P rc s' :
  view s m1 = Some g1 → view s m2 = Some g2 → result ≠ m1 → result ≠ m2 →
  op_post s result r c P rc s' → unmodified s result m1 m2 (Ok rc s').
Proof.
  intros Hv1 Hv2 Hne1 Hne2 (Hsub & Hob & _). exists rc, s'.
  split; [done|]. split; [done|]. split; [done|].
  assert (H1 : objs s' !! m1 = objs s !! m1) by (by apply Hob).
  assert (H2 : objs s' !! m2 = objs s !! m2) by (by apply Hob).
  unfold dims. rewrite H1, H2. split; [done|]. split.
  - rewrite Hv1. by eapply view_mono.
  - split; [done|]. rewrite Hv2. by eapply view_mono.
Qed.

(** C9. Called with a result object that is none of its operands,
    [matrix_sum], [matrix_scalar_product], [matrix_transposition] and
    [matrix_product] end and leave their operands as they were, dimensions
    and cells: they write to the result object and to blocks that they
    allocate, whether they succeed or fail. *)
Theorem operands_unmodified s m1 m2 result o G1 G2 scalar :
  view s m1 = Some (full G1) → view s m2 = Some (full G2) →
  objs s !! result = Some o → result ≠ m1 → result ≠ m2 →
  unmodified s result m1 m2 (matrix_sum m1 m2 result s) ∧
  unmodified s result m1 m2 (matrix_scalar_product m1 scalar result s) ∧
  unmodified s result m1 m2 (matrix_transposition m1 result s) ∧
  unmodified s result m1 m2 (matrix_product m1 m2 result s).
Proof.
  intros Hv1 Hv2 Ho Hne1 Hne2.
  destruct (view_dims _ _ _ Hv1) as (c1 & Hd1 & _).
  destruct (view_dims _ _ _ Hv2) as (c2 & Hd2 & _).
  set (r1 := Z.of_nat (length (full G1))) in *.
  set (r2 := Z.of_nat (length (full G2))) in *.
  split; [|split; [|split]].
  - destruct (decide ((r1, c1) = (r2, c2))) as [[= E1 E2]|Hne].
    + rewrite <- E1, <- E2 in Hd2.
      destruct (matrix_sum_spec s m1 m2 result o G1 G2 r1 c1)
        as (rc & s' & -> & Hpost); try done.
      by eapply unmodified_post.
    + rewrite (matrix_sum_mismatch s m1 m2 result r1 c1 r2 c2) by done.
      apply unmodified_same.
  - destruct (matrix_scalar_product_spec s m1 scalar result o G1 r1 c1)
      as (rc & s' & -> & Hpost); try done.
    by eapply unmodified_post.
  - destruct (matrix_transposition_spec s m1 result o G1 r1 c1)
      as (rc & s' & -> & Hpost); try done.
    by eapply unmodified_post.
  - destruct (decide (c1 = r2)) as [E|Hne].
    + rewrite <- E in Hd2.
      destruct (matrix_product_spec s m1 m2 result o G1 G2 r1 c1 c2)
        as (rc & s' & -> & Hpost); try done.
      by eapply unmodified_post.
    + rewrite (matrix_product_mismatch s m1 m2 result r1 c1 r2 c2) by done.
      apply unmodified_same.
Qed.

(** A matrix all of whose cells were written holds a grid of values. *)
Lemma view_written s m g r c :
  view s m = Some g → dims s m = Some (r, c) →
  (∀ i j, (i < Z.to_nat r)%nat → (j < Z.to_nat c)%nat →
     ∃ v, peek s m i j = Some (Some v)) →
  ∃ G, g = full G.
Proof.
  intros Hv Hd Hcells. destruct (view_dims _ _ _ Hv) as (c' & Hd' & _ & _ & Hw).
  rewrite Hd in Hd'. injection Hd' as Hr <-.
  exists (map (map (default 0)) g). unfold full. rewrite map_map.
  symmetry. rewrite <- (map_id g) at 2. apply map_ext_in. intros row Hin.
  apply list_elem_of_In, list_elem_of_lookup_1 in Hin as [i Hi].
  rewrite map_map. rewrite <- (map_id row) at 2. apply map_ext_in. intros x Hx.
  apply list_elem_of_In, list_elem_of_lookup_1 in Hx as [j Hj].
  destruct (Hcells i j) as [v Hv'].
  - apply lookup_lt_Some in Hi. lia.
  - rewrite Forall_forall in Hw. rewrite <- (Hw row).
    + by apply lookup_lt_Some in Hj.
    + by eapply list_elem_of_lookup_2.
  - rewrite (view_peek _ _ _ _ _ Hv), (elem_lookup _ _ _ _ Hi), Hj in Hv'.
    by injection Hv' as ->.
Qed.

(** What [matrix_transposition] leaves when it succeeds. *)
Lemma transposed s m result o G r c :
  view s m = Some (full G) → dims s m = Some (r, c) →
  objs s !! result = Some o → result ≠ m → granted s →
  ∃ s' G', matrix_transposition m result s = Ok 0 s' ∧
    view s' result = Some (full G') ∧ dims s' result = Some (c, r) ∧
    (∀ i j a, elem G i j = Some a → elem G' j i = Some a) ∧
    heap s ⊆ heap s' ∧ (∀ m', m' ≠ result → objs s' !! m' = objs s !! m') ∧
    granted s'.
Proof.
  intros Hv Hd Ho Hne Hg.
  destruct (matrix_transposition_spec s m result o G r c)
    as (rc & s' & E & Hsub & Hob & _ & [k Hk] & [[_ Hng]|(-> & Hd' & [g Hg'] & Hcells)]);
    try done.
  destruct (view_written s' result g c r Hg' Hd') as [G' ->].
  { intros j i Hj Hi. destruct (view_full_elem _ _ _ _ _ i j Hv Hd Hi Hj) as [a Ha].
    exists a. by apply Hcells. }
  exists s', G'. split; [done|]. split; [done|]. split; [done|].
  split; [|split; [done|split; [done|by eapply granted_drop]]].
  intros i j a Ha. specialize (Hcells i j a Ha).
  rewrite (view_peek _ _ _ _ _ Hg'), elem_full in Hcells.
  destruct (elem G' j i); simpl in Hcells; congruence.
Qed.

(** C5. The transpose of the transpose of a matrix is equal to the
    matrix: with every [malloc] granted, two calls of
    [matrix_transposition] succeed and [matrix_equal] then returns 1. *)
Theorem transposition_involutive s m t1 t2 o1 o2 G :
  view s m = Some (full G) →
  objs s !! t1 = Some o1 → objs s !! t2 = Some o2 →
  t1 ≠ m → t2 ≠ m → t1 ≠ t2 → granted s →
  ∃ s1 s2, matrix_transposition m t1 s = Ok 0 s1 ∧
           matrix_transposition t1 t2 s1 = Ok 0 s2 ∧
           matrix_equal t2 m s2 = Ok 1 s2.
Proof.
  intros Hv Ho1 Ho2 Hne1 Hne2 Hne12 Hg.
  destruct (view_dims _ _ _ Hv) as (c & Hd & _).
  set (r := Z.of_nat (length (full G))) in *.
  destruct (transposed s m t1 o1 G r c) as (s1 & G1 & E1 & Hv1 & Hd1 & HG1 & Hsub1 & Hob1 & Hg1);
    try done.
  destruct (transposed s1 t1 t2 o2 G1 c r) as (s2 & G2 & E2 & Hv2 & Hd2 & HG2 & Hsub2 & Hob2 & Hg2);
    try done.
  { rewrite Hob1; [done|]. by intros ->. }
  exists s1, s2. split; [done|]. split; [done|].
  assert (Hom : objs s2 !! m = objs s !! m).
  { rewrite Hob2, Hob1; [done| |]; by intros ->. }
  assert (Hvm : view s2 m = Some (full G)).
  { eapply view_mono; [exact Hv| |done]. by etrans. }
  assert (Hdm : dims s2 m = Some (r, c)) by (unfold dims in *; by rewrite Hom).
  destruct (matrix_equal_spec s2 t2 m G2 G r c Hv2 Hvm Hd2 Hdm)
    as (rc & E & [[-> _]|(-> & i & j & Hi & Hj & Hdiff)]); [done|].
  exfalso. apply Hdiff.
  destruct (view_full_elem _ _ _ _ _ i j Hvm Hdm Hi Hj) as [a Ha].
  rewrite Ha. apply HG2. by apply HG1.
Qed.

Lemma blank_lines_data t t' : blank_lines_added t t' → data_lines t' = data_lines t.
Proof.
  induction 1 as [t|t u t' Hls _ IH]; [done|].
  by rewrite IH, data_lines_blank.
Qed.

(** C7. A text with blank lines added between its lines is parsed as the
    text without them: [matrix_allocate_and_init_file] yields the same
    value and the same state for the two files. *)
Theorem blank_lines_skipped s m path path' text text' :
  files s !! path = Some text → files s !! path' = Some text' →
  blank_lines_added text text' →
  matrix_allocate_and_init_file m path' s = matrix_allocate_and_init_file m path s.
Proof.
  intros Hf Hf' Hb.
  rewrite (parse_data_lines m path text s Hf), (parse_data_lines m path' text' s Hf').
  by rewrite (blank_lines_data _ _ Hb).
Qed.

Lemma view_eq_grid s m g g' r c :
  view s m = Some g → dims s m = Some (r, c) →
  length g' = Z.to_nat r → Forall (λ row, length row = Z.to_nat c) g' →
  (∀ i j, (i < Z.to_nat r)%nat → (j < Z.to_nat c)%nat → elem g' i j = peek s m i j) →
  g = g'.
Proof.
  intros Hv Hd Hlen Hw' Hcells.
  destruct (view_dims _ _ _ Hv) as (c' & Hd' & _ & _ & Hw).
  rewrite Hd in Hd'. injection Hd' as Hr <-.
  assert (Hlg : length g = Z.to_nat r) by lia.
  apply list_eq_same_length with (Z.to_nat r); [done|done|].
  intros i row row' Hi Hrow Hrow'.
  rewrite Forall_forall in Hw, Hw'.
  assert (length row = Z.to_nat c) by (apply Hw; by eapply list_elem_of_lookup_2).
  assert (length row' = Z.to_nat c) by (apply Hw'; by eapply list_elem_of_lookup_2).
  apply list_eq_same_length with (Z.to_nat c); [done|done|].
  intros j x y Hj Hx Hy.
  specialize (Hcells i j Hi Hj).
  rewrite (view_peek _ _ _ _ _ Hv), (elem_lookup _ _ _ _ Hrow),
          (elem_lookup _ _ _ _ Hrow') in Hcells.
  congruence.
Qed.

Lemma parsed_row_length columns toks : length (parsed_row columns toks) = columns.
Proof.
  unfold parsed_row. rewrite length_app, length_fmap, length_take, length_replicate. lia.
Qed.

Lemma parsed_row_lookup columns toks j :
  (j < columns)%nat →
  parsed_row columns toks !! j =
    Some (match toks !! j with Some token => Some (atoi token) | None => None end).
Proof.
  intros Hj. unfold parsed_row.
  destruct (toks !! j) as [token|] eqn:E.
  - rewrite lookup_app_l.
    + by rewrite list_lookup_fmap, lookup_take_lt, E.
    + rewrite length_fmap, length_take. apply lookup_lt_Some in E. lia.
  - apply lookup_ge_None_1 in E. rewrite lookup_app_r.
    + apply lookup_replicate. split; [done|].
      rewrite length_fmap, length_take. lia.
    + rewrite length_fmap, length_take. lia.
Qed.

(** The tokens after the first [columns] do not count. *)
Lemma parsed_row_take columns toks :
  parsed_row columns (take columns toks) = parsed_row columns toks.
Proof.
  unfold parsed_row. rewrite take_take, Nat.min_id, length_take. f_equal. f_equal. lia.
Qed.

(** What the parse of a file leaves when every [malloc] is granted. *)
Lemma parse_file_spec s m o path text :
  files s !! path = Some text → objs s !! m = Some o → granted s →
  Z.of_nat (length (data_lines text)) <= INT_MAX →
  ∃ s', matrix_allocate_and_init_file m path s = Ok 0 s' ∧
    dims s' m = Some (Z.of_nat (length (data_lines text)),
                      Z.of_nat (first_columns (data_lines text))) ∧
    view s' m =
      Some ((λ line, parsed_row (first_columns (data_lines text))
                       (take (first_columns (data_lines text)) (tokens line)))
            <$> data_lines text) ∧
    heap s ⊆ heap s' ∧ (∀ m', m' ≠ m → objs s' !! m' = objs s !! m').
Proof.
  intros Hf Ho Hg Hmax. rewrite (parse_data_lines _ _ _ _ Hf).
  pose proof (data_lines_lengths text) as Hdata.
  set (data := data_lines text) in *.
  rewrite (first_pass_data data Hdata Hmax).
  fold (first_columns data). set (cols := first_columns data).
  replace (match data with [] => 0 | line :: _ => Z.of_nat (length (tokens line)) end)
    with (Z.of_nat cols) by (unfold cols, first_columns; by destruct data).
  assert (Hcols : Z.of_nat cols <= 1023).
  { unfold cols, first_columns. destruct data as [|line data']; [lia|].
    apply Forall_cons in Hdata as [[Hl _] _]. pose proof (tokens_length line). lia. }
  set (r := Z.of_nat (length data)) in *. set (c := Z.of_nat cols) in *.
  assert (Hr : 0 <= r <= INT_MAX) by lia.
  assert (Hc : 0 <= c <= INT_MAX) by (unfold INT_MAX; lia).
  destruct (alloc_result s m o r c Ho Hr Hc)
    as (rc & s_a & E & Hsub & Hob & Henv & Hal & [[_ Hng]|(-> & t & ls & Hsh & Hfresh & Hnone)]);
    [done|].
  erewrite bind_ok; [|exact E]. rewrite decide_False by (intros H; by apply H).
  destruct (second_pass_spec s_a m r c t ls data 0 Hsh) as (s' & E' & Hso & Hsh' & Hcells).
  { lia. } { lia. }
  { eapply Forall_impl; [exact Hdata|]. by intros line [_ ?]. }
  { unfold r. rewrite Nat2Z.id. lia. }
  change (Z.of_nat 0) with 0 in E'. erewrite bind_ok; [|exact E'].
  exists s'. split; [done|].
  assert (Hd' : dims s' m = Some (r, c)).
  { unfold dims. by rewrite (shape_obj _ _ _ _ _ _ Hsh'). }
  split; [done|].
  split; [|split; [by eapply subseteq_same_outside|
                   intros m' Hm'; rewrite (so_objs _ _ _ Hso); by apply Hob]].
  destruct (shape_view s' m r c t ls Hsh' Hr Hc) as [g Hv]. rewrite Hv. f_equal.
  apply (view_eq_grid s' m g _ r c Hv Hd').
  - rewrite length_fmap. unfold r. by rewrite Nat2Z.id.
  - apply Forall_fmap, Forall_forall. intros line _. simpl.
    rewrite parsed_row_length. unfold c. by rewrite Nat2Z.id.
  - intros i j Hi Hj. unfold r in Hi. unfold c in Hj. rewrite Nat2Z.id in Hi, Hj.
    rewrite Hcells. rewrite decide_True by (unfold c; rewrite Nat2Z.id; lia).
    rewrite Nat.sub_0_r. unfold elem. rewrite list_lookup_fmap.
    destruct (lookup_lt_is_Some_2 data i Hi) as [line Hline]. rewrite Hline. simpl.
    rewrite parsed_row_take, parsed_row_lookup by done.
    destruct (tokens line !! j); [done|].
    symmetry. apply Hnone; unfold r, c; rewrite Nat2Z.id; lia.
Qed.

(** C8. The second pass stores, for each line that is not skipped, the
    values of its first [columns] tokens: the parse of a file that exists
    returns 0 when every [malloc] is granted, however many tokens a line
    has, and the row of a line is that of its first [columns] tokens. *)
Theorem extra_tokens_ignored s m o path text :
  files s !! path = Some text → objs s !! m = Some o → granted s →
  Z.of_nat (length (data_lines text)) <= INT_MAX →
  ∃ s', matrix_allocate_and_init_file m path s = Ok 0 s' ∧
    dims s' m = Some (Z.of_nat (length (data_lines text)),
                      Z.of_nat (first_columns (data_lines text))) ∧
    view s' m =
      Some ((λ line, parsed_row (first_columns (data_lines text))
                       (take (first_columns (data_lines text)) (tokens line)))
            <$> data_lines text).
Proof.
  intros Hf Ho Hg Hmax.
  destruct (parse_file_spec s m o path text Hf Ho Hg Hmax) as (s' & E & Hd & Hv & _).
  by exists s'.
Qed.

(** C2, as amended. When [matrix_allocate] fails, the object holds the
    rows and columns that were asked for and no block is left allocated;
    when it is the array of row pointers that could not be allocated,
    [content] is null, and [matrix_free] then leaves the empty matrix. *)
Theorem allocate_failure s m o r c s' :
  objs s !! m = Some o → in_int r → in_int c →
  matrix_allocate m r c s = Ok (-1) s' →
  dims s' m = Some (r, c) ∧ heap s' = heap s ∧
  (next_grant s = false ∨ r < 0 →
   objs s' !! m = Some (Mat r c NULL) ∧
   ∃ s'', matrix_free m s' = Ok tt s'' ∧
          objs s'' !! m = Some (Mat 0 0 NULL) ∧ heap s'' = heap s').
Proof.
  intros Ho Hr Hc E.
  destruct (matrix_allocate_spec s m o r c Ho Hr Hc) as (rc & s1 & E1 & Hpost).
  rewrite E in E1. injection E1 as <- <-.
  destruct Hpost as [[? _]|(_ & p & [Hob Hh _ _ _] & Hp)]; [done|].
  assert (Hm : objs s' !! m = Some (Mat r c p)).
  { rewrite Hob. apply lookup_insert_eq. }
  split; [unfold dims; by rewrite Hm|]. split; [done|].
  intros Hfirst. apply Hp in Hfirst as ->. split; [done|].
  unfold matrix_free.
  erewrite bind_ok; [|by eapply get_content_ok]. simpl content.
  rewrite decide_False by (intros H; by apply H).
  erewrite bind_ok; [|reflexivity].
  erewrite bind_ok; [|by eapply put_rows_ok].
  erewrite put_columns_ok; [|simpl; apply lookup_insert_eq].
  eexists. split; [done|]. split; [|done]. simpl. apply lookup_insert_eq.
Qed.

(** C2, the claim as it was written fails: a refused allocation of the
    array of row pointers leaves the rows and columns that were asked for,
    not 0. *)
Lemma allocate_failure_keeps_dimensions :
  matrix_allocate 1%positive 2 3 refusing =
  Ok (-1) (State {[1%positive := Mat 2 3 NULL]} ∅ [] ∅ ∅ 0 0).
Proof. vm_compute. reflexivity. Qed.

(** When it is a row that cannot be allocated, [matrix_allocate] frees the
    array of row pointers and leaves its address in [content]:
    [matrix_free] then frees it a second time. *)
Lemma allocate_row_failure_dangles :
  ∃ s', matrix_allocate 1%positive 2 3 refusing_row = Ok (-1) s' ∧
        objs s' !! 1%positive = Some (Mat 2 3 (Ptr 1%positive)) ∧
        heap s' = ∅ ∧
        matrix_free 1%positive s' = Undef.
Proof. eexists. split; [vm_compute; reflexivity|]. by vm_compute. Qed.

(** ** What [matrix_dump_file] writes *)

Lemma uint_printable d :
  Forall printable
    (String.list_ascii_of_string (DecimalString.NilEmpty.string_of_uint d)).
Proof.
  induction d; simpl; constructor; try done; by repeat split.
Qed.

Lemma fmt_d_printable v : Forall printable (fmt_d v) ∧ fmt_d v ≠ [].
Proof.
  unfold fmt_d, DecimalString.NilZero.string_of_int.
  destruct (Z.to_int v) as [d|d].
  - unfold DecimalString.NilZero.string_of_uint. destruct d;
      try (split; [apply (uint_printable (_ d))|done]).
    split; [|done]. constructor; [by repeat split|constructor].
  - split; [|done]. simpl. constructor; [by repeat split|].
    unfold DecimalString.NilZero.string_of_uint. destruct d;
      try apply (uint_printable (_ d)).
    constructor; [by repeat split|constructor].
Qed.

Lemma render_row_cons v row :
  render_row (v :: row) = fmt_d v ++ space :: render_row row.
Proof. unfold render_row. rewrite fmap_cons. simpl. by rewrite <- !app_assoc. Qed.

Lemma strtok_r_token t rest save :
  t ≠ [] → Forall (λ c, c ≠ space) t →
  strtok_r (Some (t ++ space :: rest)) [space] save = (Some t, rest).
Proof.
  intros Hne Ht. unfold strtok_r. simpl default.
  destruct t as [|c t]; [done|]. apply Forall_cons in Ht as [Hc Ht].
  assert (Hnd : ∀ x, x ≠ space → bool_decide (x ∈ [space]) = false).
  { intros x Hx. apply bool_decide_eq_false. by intros ?%list_elem_of_singleton. }
  simpl. rewrite (Hnd c Hc). simpl. rewrite (Hnd c Hc).
  assert (Hte : token_end [space] (t ++ space :: rest) = (t, rest)).
  { clear -Ht Hnd. induction Ht as [|x t Hx Ht IH]; simpl.
    - reflexivity.
    - by rewrite (Hnd x Hx), IH. }
  by rewrite Hte.
Qed.

Lemma tokens_cons t rest :
  t ≠ [] → Forall (λ c, c ≠ space) t →
  tokens (t ++ space :: rest) = t :: tokens rest.
Proof.
  intros Hne Ht. unfold tokens at 1. rewrite strtok_r_token by done.
  rewrite length_app. simpl length.
  replace (length t + S (length rest))%nat with (S (length t + length rest)) by lia.
  cbn [strtok_loop].
  rewrite <- (tokens_fuel rest (length t + length rest)) by lia.
  change (strtok_r None [space] rest) with (strtok_r (Some rest) [space] []).
  by destruct (strtok_r (Some rest) [space] []).
Qed.

(** The newline that ends a row of the dump is one token more. *)
Lemma tokens_render_row row : tokens (render_row row) = (fmt_d <$> row) ++ [[newline]].
Proof.
  induction row as [|v row IH]; [done|].
  rewrite render_row_cons, fmap_cons. simpl.
  destruct (fmt_d_printable v) as [Hp Hne].
  rewrite tokens_cons; [by rewrite IH|done|].
  eapply Forall_impl; [exact Hp|]. by intros c (? & _).
Qed.

Lemma fgets_take_line n body rest :
  Forall (λ c, c ≠ newline) body → (length body < n)%nat →
  fgets_take n (body ++ newline :: rest) = (body ++ [newline], rest).
Proof.
  intros Hb. revert n. induction Hb as [|c body Hc Hb IH]; intros n Hn.
  - destruct n; [lia|]. reflexivity.
  - destruct n; [simpl in Hn; lia|]. simpl in *.
    rewrite decide_False by done. by rewrite IH by lia.
Qed.

Lemma c_string_id l : Forall (λ c, c ≠ NUL) l → c_string l = l.
Proof.
  induction 1 as [|c l Hc Hl IH]; [done|]. simpl.
  rewrite decide_False by done. by rewrite IH.
Qed.

Lemma fgets_loop_nil fuel : fgets_loop fuel [] = [].
Proof. by destruct fuel. Qed.

Lemma fgets_all_line body rest :
  Forall (λ c, c ≠ newline ∧ c ≠ NUL) body → (length body < 1023)%nat →
  fgets_all ((body ++ [newline]) ++ rest) = (body ++ [newline]) :: fgets_all rest.
Proof.
  intros Hb Hlen. rewrite fgets_all_app.
  2:{ right. by rewrite last_snoc. }
  f_equal. unfold fgets_all. rewrite length_app. simpl length.
  replace (length body + 1)%nat with (S (length body)) by lia.
  destruct (body ++ [newline]) as [|c l] eqn:E; [by destruct body|].
  change (fgets_loop (S (length body)) (c :: l)) with
    (let '(l', rest') := fgets_take 1023 (c :: l) in
     c_string l' :: fgets_loop (length body) rest').
  rewrite <- E. rewrite fgets_take_line.
  - rewrite fgets_loop_nil, c_string_id; [done|].
    apply Forall_app. split; [|by repeat constructor].
    eapply Forall_impl; [exact Hb|]. by intros x [_ ?].
  - eapply Forall_impl; [exact Hb|]. by intros x [? _].
  - lia.
Qed.

Lemma render_row_body row :
  Forall (λ c, c ≠ newline ∧ c ≠ NUL) (concat ((λ v, fmt_d v ++ [space]) <$> row)).
Proof.
  induction row as [|v row IH]; [constructor|].
  rewrite fmap_cons. simpl. rewrite <- app_assoc.
  apply Forall_app. split.
  - destruct (fmt_d_printable v) as [Hp _].
    eapply Forall_impl; [exact Hp|]. by intros c (_ & ? & ?).
  - constructor; [done|exact IH].
Qed.

Lemma skipped_render_row v row : skipped (render_row (v :: row)) = false.
Proof.
  rewrite render_row_cons. destruct (fmt_d_printable v) as [Hp Hne].
  destruct (fmt_d v) as [|c l]; [done|]. simpl.
  apply Forall_cons in Hp as [(_ & Hc & _) _]. by apply bool_decide_eq_false.
Qed.

(** The lines of a dump are its rows, when no row is empty or longer than
    the buffer of [fgets]. *)
Lemma data_lines_render G :
  Forall (λ row, row ≠ [] ∧ (length (render_row row) ≤ 1023)%nat) G →
  data_lines (render G) = render_row <$> G.
Proof.
  induction 1 as [|row G [Hne Hlen] HG IH]; [done|].
  unfold render. rewrite fmap_cons. simpl concat. fold (render G).
  unfold data_lines. unfold render_row at 1.
  rewrite fgets_all_line.
  - fold (render_row row). rewrite filter_cons_True.
    + f_equal. exact IH.
    + destruct row; [done|]. apply skipped_render_row.
  - apply render_row_body.
  - unfold render_row in Hlen. rewrite length_app in Hlen. simpl in Hlen. lia.
Qed.

Lemma fputs_ok path text x f s :
  (∀ fs, f fs !! path = Some x) → (∀ fs, <[path := x ++ text]> (f fs) = <[path := x ++ text]> fs) →
  fputs path text (set_files f s) = Ok tt (set_files <[path := x ++ text]> s).
Proof.
  intros Hf Hins. unfold fputs, set_files. simpl. rewrite Hf. simpl.
  by rewrite Hins.
Qed.

Lemma fputs_insert path text x s :
  fputs path text (set_files <[path := x]> s) =
  Ok tt (set_files <[path := x ++ text]> s).
Proof.
  apply fputs_ok.
  - intros fs. apply lookup_insert_eq.
  - intros fs. apply insert_insert_eq.
Qed.

Lemma render_snoc G row : render (G ++ [row]) = render G ++ render_row row.
Proof.
  unfold render. rewrite fmap_app, concat_app. simpl. by rewrite app_nil_r.
Qed.

Lemma peek_set_files f s m i j : peek (set_files f s) m i j = peek s m i j.
Proof. done. Qed.

Lemma matrix_dump_file_spec s m path G :
  view s m = Some (full G) → path ∉ locked s →
  matrix_dump_file m path s = Ok 0 (set_files <[path := render G]> s).
Proof.
  intros Hv Hl. destruct (view_dims _ _ _ Hv) as (c & Hd & _ & _ & Hw).
  unfold full in Hd, Hw. rewrite length_map in Hd.
  destruct (dims_obj _ _ _ _ Hd) as [p Ho].
  unfold matrix_dump_file.
  assert (Hopen : fopen_w path s = Ok true (set_files <[path := []]> s)).
  { unfold fopen_w. by rewrite decide_False. }
  erewrite bind_ok; [|exact Hopen]. cbn [negb].
  erewrite bind_ok; [|by eapply get_rows_ok]. simpl rows.
  destruct (for_inv
    (λ i s', s' = set_files <[path := render (take i G)]> s)
    (λ i, c ← get_columns m;
          for_ c (λ j, v ← read_elem m i j; fputs path (fmt_d v ++ [space])) ;;
          fputs path [newline])
    (Z.of_nat (length G)) (set_files <[path := []]> s)) as (s' & E & Hs').
  - by rewrite take_0.
  - intros i s1 Hi ->. rewrite Nat2Z.id in Hi.
    destruct (lookup_lt_is_Some_2 G i Hi) as [row Hrow].
    erewrite bind_ok; [|by eapply get_columns_ok]. simpl columns.
    assert (Hlr : length row = Z.to_nat c).
    { rewrite Forall_forall in Hw. specialize (Hw (map Some row)).
      rewrite length_map in Hw. apply Hw.
      apply list_elem_of_lookup_2 with i. by rewrite list_lookup_fmap, Hrow. }
    destruct (for_inv
      (λ j s', s' = set_files <[path := render (take i G) ++
                    concat ((λ v, fmt_d v ++ [space]) <$> take j row)]> s)
      (λ j, v ← read_elem m i j; fputs path (fmt_d v ++ [space]))
      c (set_files <[path := render (take i G)]> s)) as (s2 & E2 & ->).
    + by rewrite take_0, app_nil_r.
    + intros j s2 Hj ->. rewrite <- Hlr in Hj.
      destruct (lookup_lt_is_Some_2 row j Hj) as [v Hvj].
      erewrite bind_ok.
      2:{ apply read_elem_ok.
          rewrite peek_set_files.
          rewrite (view_peek _ _ _ _ _ Hv), elem_full.
          by rewrite (elem_lookup _ _ _ _ Hrow), Hvj. }
      rewrite fputs_insert. eexists. split; [done|].
      do 2 f_equal. rewrite (take_S_r _ _ _ Hvj), fmap_app, concat_app.
      simpl. by rewrite app_nil_r, <- !app_assoc.
    + erewrite bind_ok; [|exact E2]. rewrite fputs_insert.
      eexists. split; [done|]. do 2 f_equal.
      rewrite (take_S_r _ _ _ Hrow), render_snoc. unfold render_row.
      by rewrite <- Hlr, firstn_all, app_assoc.
  - erewrite bind_ok; [|exact E]. rewrite Hs', Nat2Z.id, firstn_all. done.
Qed.

Lemma matrix_equal_dims s m1 m2 d1 d2 :
  dims s m1 = Some d1 → dims s m2 = Some d2 → d1 ≠ d2 →
  matrix_equal m1 m2 s = Ok 0 s.
Proof.
  destruct d1 as [r1 c1], d2 as [r2 c2]. intros Hd1 Hd2 Hne.
  destruct (dims_obj _ _ _ _ Hd1) as [p1 Ho1].
  destruct (dims_obj _ _ _ _ Hd2) as [p2 Ho2]. unfold matrix_equal.
  erewrite bind_ok; [|by eapply get_rows_ok].
  erewrite bind_ok; [|by eapply get_rows_ok].
  erewrite bind_ok; [|by eapply get_columns_ok].
  erewrite bind_ok; [|by eapply get_columns_ok].
  simpl rows; simpl columns. rewrite decide_True; [done|].
  destruct (decide (r1 = r2)) as [E1|?]; [|by left].
  right. intros E2. simpl in E2. apply Hne. by rewrite E1, E2.
Qed.

(** Every matrix with at least one row and one column comes back from the
    round trip with one column more, and [matrix_equal] tells it from the
    original. *)
Lemma round_trip_columns s m m2 o2 path G r c :
  view s m = Some (full G) → dims s m = Some (r, c) → 0 < r → 0 < c →
  Forall (λ row, (length (render_row row) ≤ 1023)%nat) G →
  path ∉ locked s → objs s !! m2 = Some o2 → m2 ≠ m → granted s →
  ∃ s1 s2,
    matrix_dump_file m path s = Ok 0 s1 ∧
    files s1 !! path = Some (render G) ∧
    matrix_allocate_and_init_file m2 path s1 = Ok 0 s2 ∧
    dims s2 m2 = Some (r, c + 1) ∧
    matrix_equal m m2 s2 = Ok 0 s2.
Proof.
  intros Hv Hd Hr Hc Hlen Hl Ho2 Hne Hg.
  destruct (view_dims _ _ _ Hv) as (c' & Hd' & _ & Hmax & Hw).
  rewrite Hd in Hd'. injection Hd' as Hr' <-.
  unfold full in Hr', Hmax, Hw. rewrite length_map in Hr', Hmax.
  assert (Hrows : Forall (λ row, length row = Z.to_nat c) G).
  { rewrite Forall_forall in Hw. apply Forall_forall. intros row Hin.
    specialize (Hw (map Some row)).
    rewrite length_map in Hw. apply Hw. apply list_elem_of_fmap. by exists row. }
  assert (Hdata : data_lines (render G) = render_row <$> G).
  { apply data_lines_render. rewrite Forall_forall in Hrows, Hlen.
    apply Forall_forall. intros row Hin.
    split; [|by apply Hlen]. specialize (Hrows row Hin). destruct row; [simpl in *; lia|done]. }
  set (s1 := set_files <[path := render G]> s).
  assert (Hf1 : files s1 !! path = Some (render G)) by apply lookup_insert_eq.
  destruct (parse_file_spec s1 m2 o2 path (render G) Hf1 Ho2 Hg)
    as (s2 & E2 & Hd2 & _ & _ & Hob2).
  { rewrite Hdata, length_fmap. done. }
  exists s1, s2. split; [by apply matrix_dump_file_spec|]. split; [done|].
  split; [done|].
  assert (Hd2' : dims s2 m2 = Some (r, c + 1)).
  { rewrite Hd2, Hdata, length_fmap. do 2 f_equal; [lia|].
    destruct G as [|row G']; [simpl in *; lia|]. simpl.
    rewrite tokens_render_row, length_app, length_fmap. simpl.
    apply Forall_cons in Hrows as [-> _]. lia. }
  split; [done|].
  apply (matrix_equal_dims s2 m m2 (r, c) (r, c + 1)); [|done|].
  - unfold dims. rewrite Hob2 by done. exact Hd.
  - intros [= ?]. lia.
Qed.

(** C1. The round trip fails: [matrix_dump_file] ends every line with a
    space and a newline, and the parser, which splits the lines at spaces
    only, counts the newline as one more token.  The matrix
    [[1, 2], [3, 4]] is written as two lines of three tokens and read back
    as a matrix of three columns, which [matrix_equal] tells from the
    original. *)
Theorem round_trip_adds_a_column :
  ∃ s1 s2,
    matrix_dump_file 1%positive "out.txt" sample = Ok 0 s1 ∧
    files s1 !! "out.txt"%string = Some (text_line "1 2 " ++ text_line "3 4 ") ∧
    matrix_allocate_and_init_file 3%positive "out.txt" s1 = Ok 0 s2 ∧
    view s2 1%positive = Some (full [[1; 2]; [3; 4]]) ∧
    dims s2 3%positive = Some (2, 3) ∧
    view s2 3%positive = Some (full [[1; 2; 0]; [3; 4; 0]]) ∧
    matrix_equal 1%positive 3%positive s2 = Ok 0 s2.
Proof.
  eexists _, _. split; [vm_compute; reflexivity|].
  split; [by vm_compute|]. split; [vm_compute; reflexivity|].
  repeat split; by vm_compute.
Qed.

(** * The claims at work on [sample] *)

Lemma granted_sample : granted sample.
Proof. constructor. Defined.

Lemma matrix_sum_correct_witness :
  (view sample 1%positive = Some (full [[1; 2]; [3; 4]]) ∧
   view sample 2%positive = Some (full [[5; 6]; [7; 8]]) ∧
   dims sample 1%positive = Some (2, 2) ∧ dims sample 2%positive = Some (2, 2) ∧
   granted sample) ∧
  ∃ s', matrix_sum 1%positive 2%positive 3%positive sample = Ok 0 s' ∧
        dims s' 3%positive = Some (2, 2) ∧
        ∀ i j, (i < 2)%nat → (j < 2)%nat →
          ∃ a b, elem [[1; 2]; [3; 4]] i j = Some a ∧
                 elem [[5; 6]; [7; 8]] i j = Some b ∧
                 read_elem 3%positive i j s' = Ok (wrap (a + b)) s'.
Proof.
  split; [repeat split; (by vm_compute) || apply granted_sample|].
  refine (proj2 (matrix_sum_correct sample 1%positive 2%positive 3%positive
                   (Mat 0 0 NULL) [[1; 2]; [3; 4]] [[5; 6]; [7; 8]] 2 2 2 2
                   _ _ _ _ _ _ _) _ _);
    (by vm_compute) || apply granted_sample.
Defined.

Lemma matrix_product_correct_witness :
  (view sample 1%positive = Some (full [[1; 2]; [3; 4]]) ∧
   view sample 5%positive = Some (full [[1; 2; 3]; [4; 5; 6]]) ∧
   dims sample 1%positive = Some (2, 2) ∧ dims sample 5%positive = Some (2, 3) ∧
   granted sample) ∧
  ∃ s', matrix_product 1%positive 5%positive 3%positive sample = Ok 0 s' ∧
        dims s' 3%positive = Some (2, 3) ∧
        ∀ i j, (i < 2)%nat → (j < 3)%nat →
          read_elem 3%positive i j s' =
            Ok (fold_left (λ acc k, wrap (acc + wrap (entry [[1; 2]; [3; 4]] i k *
                                                 entry [[1; 2; 3]; [4; 5; 6]] k j)))
                  (seq 0 2) 0) s' ∧
          fold_left (λ acc k, wrap (acc + wrap (entry [[1; 2]; [3; 4]] i k *
                                                 entry [[1; 2; 3]; [4; 5; 6]] k j)))
                  (seq 0 2) 0 =
            wrap (big_sum (λ k, entry [[1; 2]; [3; 4]] i k *
                                entry [[1; 2; 3]; [4; 5; 6]] k j) 2).
Proof.
  split; [repeat split; (by vm_compute) || apply granted_sample|].
  refine (proj2 (matrix_product_correct sample 1%positive 5%positive 3%positive
                   (Mat 0 0 NULL) [[1; 2]; [3; 4]] [[1; 2; 3]; [4; 5; 6]] 2 2 2 3
                   _ _ _ _ _ _ _) _ _);
    (by vm_compute) || apply granted_sample.
Defined.

Lemma matrix_init_identity_correct_witness :
  (view sample 1%positive = Some (full [[1; 2]; [3; 4]]) ∧
   dims sample 1%positive = Some (2, 2)) ∧
  ∃ s', matrix_init_identity 1%positive sample = Ok 0 s' ∧
        dims s' 1%positive = Some (2, 2) ∧
        ∀ i j, (i < 2)%nat → (j < 2)%nat →
          read_elem 1%positive i j s' = Ok (if decide (i = j) then 1 else 0) s'.
Proof.
  split; [split; by vm_compute|].
  refine (proj2 (matrix_init_identity_correct sample 1%positive
                   (full [[1; 2]; [3; 4]]) 2 2 _ _) _); by vm_compute.
Defined.

Lemma checks_before_writes_witness :
  (dims sample 5%positive = Some (2, 3) ∧ dims sample 1%positive = Some (2, 2)) ∧
  matrix_init_identity 5%positive sample = Ok (-1) sample ∧
  matrix_init_rand 5%positive 5 1 sample = Ok (-1) sample ∧
  matrix_sum 5%positive 1%positive 1%positive sample = Ok (-1) sample ∧
  matrix_product 5%positive 1%positive 1%positive sample = Ok (-1) sample.
Proof.
  assert (H5 : dims sample 5%positive = Some (2, 3)) by (by vm_compute).
  assert (H1 : dims sample 1%positive = Some (2, 2)) by (by vm_compute).
  split; [by split|].
  pose proof (checks_before_writes sample 5%positive 5%positive 1%positive 1%positive
                5 1 2 3 2 3 2 2 H5 H5 H1) as (Hid & Hrand & Hsum & Hprod).
  split; [apply Hid; lia|]. split; [apply Hrand; lia|].
  split; [apply Hsum; congruence|]. apply Hprod; lia.
Defined.

Lemma operands_unmodified_witness :
  (view sample 1%positive = Some (full [[1; 2]; [3; 4]]) ∧
   view sample 2%positive = Some (full [[5; 6]; [7; 8]])) ∧
  unmodified sample 3%positive 1%positive 2%positive
    (matrix_sum 1%positive 2%positive 3%positive sample) ∧
  unmodified sample 3%positive 1%positive 2%positive
    (matrix_scalar_product 1%positive 7 3%positive sample) ∧
  unmodified sample 3%positive 1%positive 2%positive
    (matrix_transposition 1%positive 3%positive sample) ∧
  unmodified sample 3%positive 1%positive 2%positive
    (matrix_product 1%positive 2%positive 3%positive sample).
Proof.
  split; [split; by vm_compute|].
  apply (operands_unmodified sample 1%positive 2%positive 3%positive (Mat 0 0 NULL)
           [[1; 2]; [3; 4]] [[5; 6]; [7; 8]] 7); by vm_compute.
Defined.

Lemma transposition_involutive_witness :
  (view sample 5%positive = Some (full [[1; 2; 3]; [4; 5; 6]]) ∧ granted sample) ∧
  ∃ s1 s2, matrix_transposition 5%positive 3%positive sample = Ok 0 s1 ∧
           matrix_transposition 3%positive 4%positive s1 = Ok 0 s2 ∧
           matrix_equal 4%positive 5%positive s2 = Ok 1 s2.
Proof.
  split; [split; (by vm_compute) || apply granted_sample|].
  apply (transposition_involutive sample 5%positive 3%positive 4%positive
           (Mat 0 0 NULL) (Mat 0 0 NULL) [[1; 2; 3]; [4; 5; 6]]);
    (by vm_compute) || apply granted_sample.
Defined.

Lemma blank_lines_skipped_witness :
  blank_lines_added (text_line "1 2" ++ text_line "3 4")
    ([newline] ++ text_line "1 2" ++ [newline] ++ text_line "3 4") ∧
  matrix_allocate_and_init_file 3%positive "blank.txt" sample =
  matrix_allocate_and_init_file 3%positive "plain.txt" sample.
Proof.
  assert (H : blank_lines_added (text_line "1 2" ++ text_line "3 4")
                ([newline] ++ text_line "1 2" ++ [newline] ++ text_line "3 4")).
  { apply (bla_insert [] (text_line "1 2" ++ text_line "3 4")); [by left|].
    apply (bla_insert ([newline] ++ text_line "1 2") (text_line "3 4"));
      [by right|].
    apply bla_same. }
  split; [exact H|].
  apply (blank_lines_skipped sample 3%positive "plain.txt" "blank.txt"
           (text_line "1 2" ++ text_line "3 4")
           ([newline] ++ text_line "1 2" ++ [newline] ++ text_line "3 4"));
    [by vm_compute|by vm_compute|exact H].
Defined.

Lemma extra_tokens_ignored_witness :
  (files sample !! "extra.txt"%string =
     Some (text_line "1 2" ++ text_line "3 4 5 6" ++ text_line "7") ∧
   granted sample) ∧
  ∃ s', matrix_allocate_and_init_file 3%positive "extra.txt" sample = Ok 0 s' ∧
    dims s' 3%positive = Some (3, 2) ∧
    view s' 3%positive = Some [[Some 1; Some 2]; [Some 3; Some 4]; [Some 7; None]].
Proof.
  split; [split; (by vm_compute) || apply granted_sample|].
  apply (extra_tokens_ignored sample 3%positive (Mat 0 0 NULL) "extra.txt"
           (text_line "1 2" ++ text_line "3 4 5 6" ++ text_line "7"));
    (by vm_compute) || apply granted_sample.
Defined.

Lemma allocate_failure_witness :
  (next_grant refusing = false ∧
   matrix_allocate 1%positive 2 3 refusing =
     Ok (-1) (State {[1%positive := Mat 2 3 NULL]} ∅ [] ∅ ∅ 0 0)) ∧
  dims (State {[1%positive := Mat 2 3 NULL]} ∅ [] ∅ ∅ 0 0) 1%positive = Some (2, 3) ∧
  ∃ s'', matrix_free 1%positive (State {[1%positive := Mat 2 3 NULL]} ∅ [] ∅ ∅ 0 0) =
           Ok tt s'' ∧
         objs s'' !! 1%positive = Some (Mat 0 0 NULL).
Proof.
  assert (E : matrix_allocate 1%positive 2 3 refusing =
              Ok (-1) (State {[1%positive := Mat 2 3 NULL]} ∅ [] ∅ ∅ 0 0))
    by (vm_compute; reflexivity).
  assert (Ho : objs refusing !! 1%positive = Some (Mat 0 0 NULL)) by (by vm_compute).
  assert (H2 : in_int 2) by (by vm_compute).
  assert (H3 : in_int 3) by (by vm_compute).
  split; [by split|].
  destruct (allocate_failure refusing 1%positive (Mat 0 0 NULL) 2 3 _ Ho H2 H3 E)
    as (Hd & _ & Hfree).
  split; [exact Hd|].
  destruct (Hfree (or_introl eq_refl)) as (_ & s'' & E' & Ho' & _).
  by exists s''.
Defined.

(** * Further properties of the library *)

(** ** Allocation and release *)

(** X1. With every [malloc] granted, [matrix_allocate] of [r] by [c], both
    within the range of a non-negative [int], returns 0 and leaves a
    well-formed [r] by [c] matrix none of whose cells is written; the
    blocks that were live and the other objects are as they were. *)
Theorem allocate_granted s m o r c :
  objs s !! m = Some o → 0 <= r <= INT_MAX → 0 <= c <= INT_MAX → granted s →
  ∃ s', matrix_allocate m r c s = Ok 0 s' ∧ dims s' m = Some (r, c) ∧
    view s' m = Some (replicate (Z.to_nat r) (replicate (Z.to_nat c) None)) ∧
    heap s ⊆ heap s' ∧ (∀ m', m' ≠ m → objs s' !! m' = objs s !! m') ∧
    granted s'.
Proof.
  intros Ho Hr Hc Hg.
  destruct (alloc_result s m o r c Ho Hr Hc)
    as (rc & s' & E & Hsub & Hob & _ & [k Hk] &
        [[_ Hng]|(-> & t & ls & Hsh & _ & Hnone)]); [done|].
  exists s'. split; [done|].
  assert (Hd : dims s' m = Some (r, c)).
  { unfold dims. by rewrite (shape_obj _ _ _ _ _ _ Hsh). }
  split; [done|]. split; [|split; [done|split; [done|by eapply granted_drop]]].
  destruct (shape_view s' m r c t ls Hsh Hr Hc) as [g Hv]. rewrite Hv. f_equal.
  apply (view_eq_grid s' m g _ r c Hv Hd).
  - by rewrite length_replicate.
  - apply Forall_replicate. by rewrite length_replicate.
  - intros i j Hi Hj. rewrite (Hnone i j Hi Hj). unfold elem.
    rewrite (proj2 (lookup_replicate _ _ _ _)) by done.
    by apply lookup_replicate.
Qed.

(** X2. A negative number of rows, or a negative number of columns with
    at least one row, makes [matrix_allocate] fail whatever [malloc] would
    grant: it returns -1, the object holds the dimensions that were asked
    for and no block stays allocated. *)
Theorem allocate_negative s m o r c :
  objs s !! m = Some o → in_int r → in_int c →
  r < 0 ∨ (0 < r ∧ c < 0) →
  ∃ s', matrix_allocate m r c s = Ok (-1) s' ∧
        dims s' m = Some (r, c) ∧ heap s' = heap s.
Proof.
  intros Ho Hr Hc Hneg.
  destruct (matrix_allocate_spec s m o r c Ho Hr Hc) as (rc & s' & E & Hpost).
  destruct Hpost as [(-> & t & ls & Hinv & Hlen)|(-> & p & [Hob Hh _ _ _] & _)].
  - exfalso. destruct Hneg as [Hneg|[Hr0 Hc0]].
    + revert E. unfold matrix_allocate.
      erewrite bind_ok; [|by eapply put_rows_ok].
      erewrite bind_ok; [|eapply put_columns_ok; simpl; apply lookup_insert_eq].
      unfold malloc_ptrs. erewrite bind_ok.
      2:{ rewrite malloc_cases by (done || by right).
          destruct (Z.leb_spec 0 r); [lia|]. by rewrite andb_false_r. }
      erewrite bind_ok; [|eapply put_content_ok; simpl; apply lookup_insert_eq].
      erewrite bind_ok; [|eapply get_content_ok; simpl; apply lookup_insert_eq].
      simpl content. by rewrite decide_True.
    + pose proof (ai_cols _ _ _ _ _ _ _ Hinv) as Hcols.
      assert (ls ≠ []) by (intros ->; simpl in Hlen; lia).
      specialize (Hcols ltac:(done)). lia.
  - exists s'. split; [done|]. split; [|done].
    unfold dims. rewrite Hob, lookup_insert_eq. done.
Qed.

(** [matrix_free] of a matrix with the layout of [matrix_allocate]. *)
Lemma matrix_free_shape s m r c t ls :
  shape s m r c t ls →
  ∃ s', matrix_free m s = Ok tt s' ∧
        objs s' = <[m := Mat 0 0 NULL]> (objs s) ∧
        (∀ l, l ∈ t :: ls → heap s' !! l = None) ∧
        (∀ l, l ∉ t :: ls → heap s' !! l = heap s !! l) ∧
        allocs s' = allocs s ∧ env s' = env s.
Proof.
  intros Hsh. pose proof Hsh as [Ho Ht Hlen Hnd Hrows].
  assert (Htls : t ∉ ls).
  { intros Hin. by apply (shape_tab_ne _ _ _ _ _ _ _ Hsh Hin). }
  destruct (release_rows_ok s m (Mat r c (Ptr t)) t ((λ l, Some (Ptr l)) <$> ls) ls)
    as (s1 & E1 & Ho1 & Ha1 & He1 & Hgone & Hkept); try done.
  { intros k l Hl. by rewrite list_lookup_fmap, Hl. }
  { by apply NoDup_cons. }
  { intros l Hl. destruct (Hrows l Hl) as (vs & -> & _). done. }
  assert (E1' : release_rows m r s = Ok tt s1).
  { unfold release_rows, for_ in *. by rewrite Nat2Z.id, Hlen in E1. }
  unfold matrix_free.
  erewrite bind_ok; [|by eapply get_content_ok]. simpl content.
  rewrite decide_True by done.
  erewrite bind_ok.
  2:{ erewrite bind_ok; [|by eapply get_rows_ok]. simpl rows.
      erewrite bind_ok; [|exact E1'].
      erewrite bind_ok; [|eapply get_content_ok; by rewrite Ho1]. simpl content.
      erewrite bind_ok; [|eapply free_ok; rewrite Hkept by done; exact Ht].
      eapply put_content_ok. simpl. by rewrite Ho1. }
  erewrite bind_ok; [|eapply put_rows_ok; simpl; apply lookup_insert_eq].
  erewrite put_columns_ok; [|simpl; apply lookup_insert_eq].
  eexists. split; [done|]. simpl. split; [by rewrite !insert_insert_eq, Ho1|].
  split; [|split; [|by split]].
  - intros l Hl. apply elem_of_cons in Hl as [->|Hl]; [apply lookup_delete_eq|].
    rewrite lookup_delete_ne by (by intros ->). by apply Hgone.
  - intros l Hl. rewrite lookup_delete_ne.
    + apply Hkept. intros Hin. apply Hl. by right.
    + intros ->. apply Hl. left.
Qed.

(** X3. What [matrix_allocate] gets [matrix_free] gives back: after the
    two calls the heap is the heap before them and the object is the empty
    matrix. *)
Theorem allocate_then_free s m o r c :
  objs s !! m = Some o → 0 <= r <= INT_MAX → 0 <= c <= INT_MAX → granted s →
  ∃ s1 s2, matrix_allocate m r c s = Ok 0 s1 ∧ matrix_free m s1 = Ok tt s2 ∧
           heap s2 = heap s ∧ objs s2 = <[m := Mat 0 0 NULL]> (objs s).
Proof.
  intros Ho Hr Hc Hg.
  destruct (matrix_allocate_spec s m o r c Ho) as (rc & s1 & E & Hpost).
  { unfold in_int, INT_MIN, INT_MAX in *. lia. }
  { unfold in_int, INT_MIN, INT_MAX in *. lia. }
  destruct Hpost as [(-> & t & ls & Hinv & Hlen)|(-> & p & [_ _ _ _ Hwhy] & _)].
  2:{ destruct Hwhy as [?|[?|?]]; [done|lia|lia]. }
  destruct (alloc_inv_shape _ _ _ _ _ _ _ Hinv Hlen) as (Hsh & _ & _).
  destruct (matrix_free_shape s1 m r c t ls Hsh) as (s2 & E2 & Ho2 & Hgone & Hkept & _).
  exists s1, s2. split; [done|]. split; [done|]. split.
  - apply map_eq. intros l. destruct (decide (l ∈ t :: ls)) as [Hin|Hin].
    + rewrite (Hgone l Hin). symmetry. by apply (ai_fresh _ _ _ _ _ _ _ Hinv).
    + rewrite (Hkept l Hin). by apply (ai_frame _ _ _ _ _ _ _ Hinv).
  - rewrite Ho2, (ai_objs _ _ _ _ _ _ _ Hinv). apply insert_insert_eq.
Qed.


(** [matrix_allocate] that fails after the array of row pointers was
    allocated leaves the address of that array, now freed, in [content]. *)
Lemma matrix_allocate_row_refused s m o r c s' :
  objs s !! m = Some o → in_int r → in_int c →
  matrix_allocate m r c s = Ok (-1) s' → next_grant s = true → 0 <= r →
  ∃ t, objs s' !! m = Some (Mat r c (Ptr t)) ∧ heap s' !! t = None ∧ 0 < r.
Proof.
  intros Hm Hr Hc E Hg Hr0. revert E. unfold matrix_allocate.
  erewrite bind_ok; [|by eapply put_rows_ok].
  erewrite bind_ok; [|eapply put_columns_ok; simpl; apply lookup_insert_eq].
  simpl rows. simpl content.
  set (s2 := set_objs _ (set_objs _ s)).
  pose proof (malloc_cases r 8 (λ k, BPtrs (replicate k None)) s2 Hr (or_intror eq_refl))
    as Hmal.
  assert (Hg2 : next_grant s2 && (0 <=? r) = true).
  { apply andb_true_intro. split; [exact Hg|by apply Z.leb_le]. }
  rewrite Hg2 in Hmal. unfold malloc_ptrs.
  erewrite bind_ok; [|exact Hmal].
  erewrite bind_ok; [|eapply put_content_ok; simpl; apply lookup_insert_eq].
  simpl rows; simpl columns.
  erewrite bind_ok; [|eapply get_content_ok; simpl; apply lookup_insert_eq].
  simpl content. rewrite decide_False by done.
  set (t := fresh (dom (heap s2))). set (s4 := set_objs _ _).
  assert (Ht : heap s !! t = None) by apply (fresh_heap s2).
  destruct (for_ret_inv
    (λ i s1, ∃ ls, length ls = i ∧ alloc_inv s m r c t ls s1)
    (λ v s1, v = -1 ∧ alloc_failed s m r c (Ptr t) s1)
    (alloc_row m c) r s4) as (res & s1 & E1 & Hpost).
  - exists []. split; [done|]. split; simpl.
    + unfold s2. simpl. by rewrite !insert_insert_eq.
    + rewrite lookup_insert_eq. by rewrite Nat.sub_0_r.
    + apply NoDup_singleton.
    + intros l Hl. by apply elem_of_nil in Hl.
    + intros l Hl. apply list_elem_of_singleton in Hl as ->. done.
    + intros l Hl. rewrite lookup_insert_ne; [done|]. intros <-. apply Hl. left.
    + by exists 1%nat.
    + done.
    + done.
  - intros k s1 Hk (ls & <- & Hinv).
    destruct (alloc_row_step s m r c t ls s1 Hc Hinv Hk) as (res & s1' & E1 & Hres).
    exists res, s1'. split; [done|]. destruct res as [v|]; [done|].
    destruct Hres as [l Hl]. exists (ls ++ [l]). split; [|done].
    rewrite length_app. simpl. lia.
  - erewrite bind_ok; [|exact E1]. destruct res as [v|].
    + destruct Hpost as [-> [Hob Hh _ _ _]]. intros [= <-].
      exists t. split; [rewrite Hob; apply lookup_insert_eq|].
      split; [by rewrite Hh|].
      destruct (decide (r = 0)) as [->|?]; [|lia]. by vm_compute in E1.
    + intros H. discriminate H.
Qed.

(** X5. When [matrix_allocate] fails on a row, after the array of row
    pointers was allocated, it leaves in [content] the address of the array
    that it freed: [matrix_free] on the object then has no defined
    behaviour, it reads and frees a block that is no longer live. *)
Theorem free_after_row_failure s m o r c s' :
  objs s !! m = Some o → in_int r → in_int c →
  matrix_allocate m r c s = Ok (-1) s' → next_grant s = true → 0 <= r →
  matrix_free m s' = Undef.
Proof.
  intros Ho Hr Hc E Hg Hr0.
  destruct (matrix_allocate_row_refused s m o r c s' Ho Hr Hc E Hg Hr0)
    as (t & Hm & Ht & Hpos).
  unfold matrix_free.
  erewrite bind_ok; [|by eapply get_content_ok]. simpl content.
  rewrite decide_True by done.
  apply bind_undef. erewrite bind_ok; [|by eapply get_rows_ok]. simpl rows.
  apply bind_undef. unfold release_rows, for_.
  destruct (Z.to_nat r) as [|n] eqn:En; [lia|]. cbn [loop_from].
  apply bind_undef. erewrite bind_ok; [|by eapply get_content_ok]. simpl content.
  apply bind_undef. simpl. by rewrite Ht.
Qed.

(** X6. [matrix_allocate] does not release what the object held: called
    on a matrix that is allocated already, it leaves the old array of row
    pointers live and puts the address of another block in [content]. *)
Theorem allocate_keeps_old_storage s m r0 c0 t0 b r c s' :
  objs s !! m = Some (Mat r0 c0 (Ptr t0)) → heap s !! t0 = Some b →
  in_int r → in_int c →
  matrix_allocate m r c s = Ok 0 s' →
  heap s ⊆ heap s' ∧ heap s' !! t0 = Some b ∧
  ∃ t, objs s' !! m = Some (Mat r c (Ptr t)) ∧ t ≠ t0.
Proof.
  intros Ho Hb Hr Hc E.
  destruct (matrix_allocate_spec s m _ r c Ho Hr Hc) as (rc & s1 & E1 & Hpost).
  rewrite E in E1. injection E1 as <- <-.
  destruct Hpost as [(_ & t & ls & Hinv & Hlen)|[? _]]; [|done].
  destruct (alloc_inv_shape _ _ _ _ _ _ _ Hinv Hlen) as (Hsh & _ & Hsub).
  split; [done|]. split; [by eapply lookup_weaken|].
  exists t. split; [apply (shape_obj _ _ _ _ _ _ Hsh)|].
  intros ->. rewrite (ai_fresh _ _ _ _ _ _ _ Hinv t0) in Hb; [done|left].
Qed.

(** ** Initialisation *)

(** X7. [matrix_init_n] writes [n] to every cell of a well-formed matrix,
    written before or not, and leaves the objects as they are;
    [matrix_init_zeros] does so with 0. *)
Theorem init_n_fills s m g r c n :
  view s m = Some g → dims s m = Some (r, c) →
  ∃ s', matrix_init_n m n s = Ok tt s' ∧ objs s' = objs s ∧
        view s' m = Some (full (replicate (Z.to_nat r) (replicate (Z.to_nat c) n))) ∧
        (n = 0 → matrix_init_zeros m s = Ok tt s').
Proof.
  intros Hv Hd.
  destruct (view_inv _ _ _ Hv) as (r' & c' & t & ls & Hsh & Hr & Hc & _).
  assert (r' = r ∧ c' = c) as [-> ->].
  { unfold dims in Hd. rewrite (shape_obj _ _ _ _ _ _ Hsh) in Hd.
    simpl in Hd. by injection Hd as -> ->. }
  destruct (matrix_init_n_spec s m r c t ls n Hsh) as (s' & E & Hso & Hsh' & Hcells).
  exists s'. split; [done|]. split; [apply (so_objs _ _ _ Hso)|].
  split; [|by intros ->].
  assert (Hd' : dims s' m = Some (r, c)).
  { unfold dims. by rewrite (shape_obj _ _ _ _ _ _ Hsh'). }
  destruct (shape_view s' m r c t ls Hsh' Hr Hc) as [g' Hv']. rewrite Hv'. f_equal.
  apply (view_eq_grid s' m g' _ r c Hv' Hd').
  - unfold full. by rewrite length_map, length_replicate.
  - unfold full. apply Forall_forall. intros row Hin.
    apply list_elem_of_fmap in Hin as (row' & -> & Hin).
    apply elem_of_replicate in Hin as [-> _].
    by rewrite length_map, length_replicate.
  - intros i j Hi Hj. rewrite (Hcells i j Hi Hj), elem_full. unfold elem.
    rewrite (proj2 (lookup_replicate _ _ _ _)) by done.
    by rewrite (proj2 (lookup_replicate _ _ _ _)) by done.
Qed.

Lemma shape_set_seed z s m r c t ls :
  shape s m r c t ls → shape (set_seed z s) m r c t ls.
Proof. intros [? ? ? ? ?]. by split. Qed.

Lemma rand_range s : ∃ v, rand s = Ok v (set_seed ((seed s * 1103515245 + 12345) mod SIZE_MOD) s) ∧ 0 <= v <= RAND_MAX.
Proof.
  eexists. split; [reflexivity|]. unfold RAND_MAX.
  pose proof (Z.mod_pos_bound ((seed s * 1103515245 + 12345) mod SIZE_MOD / 65536) 32768).
  lia.
Qed.

Lemma matrix_init_rand_spec s m r c t ls lo hi :
  shape s m r c t ls → in_int lo → in_int hi → lo <= hi → hi - lo < INT_MAX →
  ∃ s', matrix_init_rand m lo hi s = Ok 0 s' ∧ shape s' m r c t ls ∧
        objs s' = objs s ∧
        ∀ i j, (i < Z.to_nat r)%nat → (j < Z.to_nat c)%nat →
          ∃ v, peek s' m i j = Some (Some v) ∧ lo <= v <= hi.
Proof.
  intros Hsh Hlo Hhi Hle Hwide. unfold matrix_init_rand.
  rewrite decide_False by lia.
  erewrite bind_ok; [|reflexivity]. erewrite bind_ok; [|reflexivity].
  set (s0 := set_seed _ s).
  assert (Hsh0 : shape s0 m r c t ls) by (by apply shape_set_seed).
  pose proof (shape_obj _ _ _ _ _ _ Hsh0) as Ho0.
  erewrite bind_ok; [|by eapply get_rows_ok]. simpl rows.
  assert (Hd : wrap (wrap (hi - lo) + 1) = hi - lo + 1).
  { unfold in_int, INT_MIN, INT_MAX in *. rewrite (wrap_small (hi - lo)).
    - apply wrap_small. unfold INT_MIN, INT_MAX. lia.
    - unfold INT_MIN, INT_MAX. lia. }
  pose (Inv := λ (D : nat → nat → Prop) (s1 : state),
    shape s1 m r c t ls ∧ objs s1 = objs s ∧
    ∀ i j, D i j → ∃ v, peek s1 m i j = Some (Some v) ∧ lo <= v <= hi).
  destruct (for_inv
    (λ i, Inv (λ i0 j0, (i0 < i)%nat ∧ (j0 < Z.to_nat c)%nat))
    (λ i, c ← get_columns m;
          for_ c (λ j, v ← rand;
                       let d := wrap (wrap (hi - lo) + 1) in
                       if decide (d = 0) then undef
                       else write_elem m i j (wrap (lo + Z.rem v d))))
    r s0) as (s' & E & Hsh' & Hob' & Hcells).
  - split; [done|]. split; [done|]. intros i j [? _]. lia.
  - intros i s1 Hi (Hsh1 & Hob1 & Hdone).
    erewrite bind_ok; [|eapply get_columns_ok, (shape_obj _ _ _ _ _ _ Hsh1)].
    simpl columns.
    destruct (for_inv
      (λ j, Inv (λ i0 j0, ((i0 < i)%nat ∧ (j0 < Z.to_nat c)%nat) ∨
                          (i0 = i ∧ (j0 < j)%nat)))
      (λ j, v ← rand;
            let d := wrap (wrap (hi - lo) + 1) in
            if decide (d = 0) then undef
            else write_elem m i j (wrap (lo + Z.rem v d)))
      c s1) as (s2 & E2 & Hsh2 & Hob2 & Hcells2).
    + split; [done|]. split; [done|]. intros i0 j0 [H|[_ H]]; [by apply Hdone|lia].
    + intros j s2 Hj (Hsh2 & Hob2 & Hcells2).
      destruct (rand_range s2) as (v & Ev & Hv).
      erewrite bind_ok; [|exact Ev]. cbv zeta. rewrite Hd.
      rewrite decide_False by lia.
      destruct (write_elem_ok _ m r c t ls i j (wrap (lo + Z.rem v (hi - lo + 1)))
                  (shape_set_seed ((seed s2 * 1103515245 + 12345) mod SIZE_MOD)
                     _ _ _ _ _ _ Hsh2) Hi Hj)
        as (s3 & E3 & Hsh3 & Hso3 & Hp3 & Hother3).
      exists s3. split; [done|]. split; [done|].
      split; [by rewrite (so_objs _ _ _ Hso3)|].
      intros i0 j0 HD.
      destruct (decide ((i0, j0) = (i, j))) as [[= -> ->]|Hne].
      * eexists. split; [exact Hp3|].
        pose proof (Z.rem_bound_pos v (hi - lo + 1)).
        unfold in_int, INT_MIN, INT_MAX in *.
        rewrite wrap_small; unfold INT_MIN, INT_MAX; lia.
      * rewrite (Hother3 _ _ Hne). apply Hcells2.
        destruct HD as [?|[-> ?]]; [by left|]. right. split; [done|].
        assert (j0 ≠ j) by (intros ->; done). lia.
    + exists s2. split; [done|]. split; [done|]. split; [done|].
      intros i0 j0 [Hi0 Hj0]. apply Hcells2.
      destruct (decide (i0 = i)) as [->|?]; [by right|]. left. split; [lia|done].
  - erewrite bind_ok; [|exact E]. exists s'. split; [done|]. split; [done|].
    split; [done|]. intros i j Hi Hj. by apply Hcells.
Qed.

(** The view of a matrix all of whose cells hold values with a property. *)
Lemma view_of_cells (P : Z → Prop) s m r c t ls :
  shape s m r c t ls → 0 <= r <= INT_MAX → 0 <= c <= INT_MAX →
  (∀ i j, (i < Z.to_nat r)%nat → (j < Z.to_nat c)%nat →
     ∃ v, peek s m i j = Some (Some v) ∧ P v) →
  ∃ G, view s m = Some (full G) ∧ Forall (Forall P) G.
Proof.
  intros Hsh Hr Hc Hcells.
  assert (Hd : dims s m = Some (r, c)).
  { unfold dims. by rewrite (shape_obj _ _ _ _ _ _ Hsh). }
  destruct (shape_view s m r c t ls Hsh Hr Hc) as [g Hv].
  destruct (view_written s m g r c Hv Hd) as [G ->].
  { intros i j Hi Hj. destruct (Hcells i j Hi Hj) as (v & Hp & _). by exists v. }
  exists G. split; [done|].
  apply Forall_forall. intros row Hrow. apply Forall_forall. intros v Hin.
  apply list_elem_of_lookup_1 in Hrow as [i Hi].
  apply list_elem_of_lookup_1 in Hin as [j Hj].
  assert (He : elem G i j = Some v) by (by rewrite (elem_lookup _ _ _ _ Hi)).
  destruct (view_elem_range _ _ _ _ _ _ _ _ Hv Hd He) as [Hi' Hj'].
  destruct (Hcells i j Hi' Hj') as (v' & Hp & HP).
  rewrite (view_peek _ _ _ _ _ Hv), elem_full, He in Hp. by injection Hp as ->.
Qed.

(** X8. For bounds [val_min <= val_max] whose distance fits an [int],
    [matrix_init_rand] returns 0 and leaves in every cell of a well-formed
    matrix a value between the two bounds, them included. *)
Theorem init_rand_within_bounds s m g val_min val_max :
  view s m = Some g → in_int val_min → in_int val_max →
  val_min <= val_max → val_max - val_min < INT_MAX →
  ∃ s' G, matrix_init_rand m val_min val_max s = Ok 0 s' ∧
          dims s' m = dims s m ∧ view s' m = Some (full G) ∧
          Forall (Forall (λ v, val_min <= v <= val_max)) G.
Proof.
  intros Hv Hlo Hhi Hle Hwide.
  destruct (view_inv _ _ _ Hv) as (r & c & t & ls & Hsh & Hr & Hc & _).
  destruct (matrix_init_rand_spec s m r c t ls val_min val_max Hsh Hlo Hhi Hle Hwide)
    as (s' & E & Hsh' & Hob & Hcells).
  destruct (view_of_cells (λ v, val_min <= v <= val_max) s' m r c t ls Hsh' Hr Hc Hcells)
    as (G & HvG & HG).
  exists s', G. split; [done|]. split; [|by split].
  unfold dims. by rewrite Hob.
Qed.

(** X9. [matrix_init_rand] asked for the whole range of [int], on a
    matrix with at least one cell, has no defined behaviour: the width of
    the range, [val_max - val_min + 1], does not fit an [int]; wrapped
    around it is 0, and the remainder of [rand()] is taken by it. *)
Theorem init_rand_full_range s m r c :
  dims s m = Some (r, c) → 0 < r → 0 < c →
  matrix_init_rand m INT_MIN INT_MAX s = Undef.
Proof.
  intros Hd Hr Hc.
  destruct (dims_obj _ _ _ _ Hd) as [p Ho].
  unfold matrix_init_rand. rewrite decide_False by (unfold INT_MIN, INT_MAX; lia).
  erewrite bind_ok; [|reflexivity]. erewrite bind_ok; [|reflexivity].
  set (s0 := set_seed _ s).
  erewrite bind_ok; [|by eapply (get_rows_ok m _ s0)]. simpl rows.
  apply bind_undef. unfold for_.
  destruct (Z.to_nat r) as [|r'] eqn:Er; [lia|]. cbn [loop_from].
  apply bind_undef.
  erewrite bind_ok; [|by eapply (get_columns_ok m _ s0)]. simpl columns.
  unfold for_. destruct (Z.to_nat c) as [|c'] eqn:Ec; [lia|]. cbn [loop_from].
  apply bind_undef.
  erewrite bind_ok; [|reflexivity]. reflexivity.
Qed.

(** ** Equality *)

Lemma full_inj G1 G2 : full G1 = full G2 → G1 = G2.
Proof.
  unfold full. revert G2. induction G1 as [|r1 G1 IH]; intros [|r2 G2]; try done.
  simpl. intros [= Hr HG]. f_equal; [|by apply IH].
  clear -Hr. revert r2 Hr. induction r1 as [|a r1 IH]; intros [|b r2]; try done.
  simpl. intros [= -> Hr]. f_equal. by apply IH.
Qed.

(** X10. On well-formed, written matrices [matrix_equal] decides equality:
    it returns 1 when the two have the same dimensions and the same cells,
    0 otherwise, and leaves the state as it is. *)
Theorem matrix_equal_decides s m1 m2 G1 G2 :
  view s m1 = Some (full G1) → view s m2 = Some (full G2) →
  matrix_equal m1 m2 s =
    Ok (if decide (dims s m1 = dims s m2 ∧ G1 = G2) then 1 else 0) s.
Proof.
  intros Hv1 Hv2.
  destruct (view_dims _ _ _ Hv1) as (c1 & Hd1 & _ & _ & Hw1).
  destruct (view_dims _ _ _ Hv2) as (c2 & Hd2 & _ & _ & Hw2).
  set (r1 := Z.of_nat (length (full G1))) in *.
  set (r2 := Z.of_nat (length (full G2))) in *.
  destruct (decide ((r1, c1) = (r2, c2))) as [[= Er Ec]|Hne].
  - rewrite <- Er, <- Ec in Hd2.
    destruct (matrix_equal_spec s m1 m2 G1 G2 r1 c1 Hv1 Hv2 Hd1 Hd2)
      as (rc & -> & [[-> Hall]|(-> & i & j & Hi & Hj & Hdiff)]).
    + rewrite decide_True; [done|]. split; [by rewrite Hd1, Hd2|].
      apply full_inj. apply (view_eq_grid s m1 _ _ r1 c1 Hv1 Hd1).
      * unfold r1, r2 in *. lia.
      * by rewrite <- Ec in Hw2.
      * intros i j Hi Hj.
        by rewrite (view_peek _ _ _ _ _ Hv1), !elem_full, (Hall i j Hi Hj).
    + rewrite decide_False; [done|]. intros [_ ->]. done.
  - rewrite decide_False.
    + by apply (matrix_equal_dims s m1 m2 (r1, c1) (r2, c2)).
    + intros [H _]. rewrite Hd1, Hd2 in H. by injection H as -> ->.
Qed.

(** X11. [matrix_equal] does not depend on the order of its arguments, and
    a written matrix is equal to itself. *)
Theorem matrix_equal_symmetric s m1 m2 G1 G2 :
  view s m1 = Some (full G1) → view s m2 = Some (full G2) →
  matrix_equal m1 m2 s = matrix_equal m2 m1 s ∧
  matrix_equal m1 m1 s = Ok 1 s.
Proof.
  intros Hv1 Hv2.
  destruct (view_dims _ _ _ Hv1) as (c1 & Hd1 & _ & _ & Hw1).
  destruct (view_dims _ _ _ Hv2) as (c2 & Hd2 & _ & _ & Hw2).
  set (r1 := Z.of_nat (length (full G1))) in *.
  set (r2 := Z.of_nat (length (full G2))) in *.
  split.
  - destruct (decide ((r1, c1) = (r2, c2))) as [[= Er Ec]|Hne].
    + rewrite <- Er, <- Ec in Hd2.
      destruct (matrix_equal_spec s m1 m2 G1 G2 r1 c1 Hv1 Hv2 Hd1 Hd2)
        as (rc & -> & H12).
      destruct (matrix_equal_spec s m2 m1 G2 G1 r1 c1 Hv2 Hv1 Hd2 Hd1)
        as (rc' & -> & H21).
      destruct H12 as [[-> Hall]|(-> & i & j & Hi & Hj & Hdiff)],
               H21 as [[-> Hall']|(-> & i' & j' & Hi' & Hj' & Hdiff')]; try done.
      * exfalso. apply Hdiff'. symmetry. by apply Hall.
      * exfalso. apply Hdiff. symmetry. by apply Hall'.
    + rewrite (matrix_equal_dims s m1 m2 (r1, c1) (r2, c2)) by done.
      by rewrite (matrix_equal_dims s m2 m1 (r2, c2) (r1, c1)) by done.
  - destruct (matrix_equal_spec s m1 m1 G1 G1 r1 c1 Hv1 Hv1 Hd1 Hd1)
      as (rc & -> & [[-> _]|(-> & i & j & _ & _ & Hdiff)]); done.
Qed.

(** ** Arithmetic *)

(** X12. With every [malloc] granted, [matrix_scalar_product] returns 0
    and builds a matrix of the dimensions of its operand, each cell the
    [int] product of the cell of the operand and the scalar. *)
Theorem matrix_scalar_product_correct s m scalar result o G r c :
  view s m = Some (full G) → dims s m = Some (r, c) →
  objs s !! result = Some o → result ≠ m → granted s →
  ∃ s', matrix_scalar_product m scalar result s = Ok 0 s' ∧
        dims s' result = Some (r, c) ∧
        ∀ i j, (i < Z.to_nat r)%nat → (j < Z.to_nat c)%nat →
          ∃ a, elem G i j = Some a ∧
               read_elem result i j s' = Ok (wrap (a * scalar)) s'.
Proof.
  intros Hv Hd Ho Hne Hg.
  destruct (matrix_scalar_product_spec s m scalar result o G r c)
    as (rc & s' & E & _ & _ & _ & _ & [[_ Hng]|(-> & Hd' & _ & Hcells)]); try done.
  exists s'. split; [done|]. split; [done|]. intros i j Hi Hj.
  destruct (view_full_elem _ _ _ _ _ i j Hv Hd Hi Hj) as [a Ha].
  exists a. split; [done|]. apply read_elem_ok. by apply Hcells.
Qed.

(** X13. With every [malloc] granted, [matrix_transposition] returns 0 and
    builds a matrix with the columns of its operand for rows and its rows
    for columns, whose cell [j][i] is the cell [i][j] of the operand. *)
Theorem matrix_transposition_correct s m result o G r c :
  view s m = Some (full G) → dims s m = Some (r, c) →
  objs s !! result = Some o → result ≠ m → granted s →
  ∃ s', matrix_transposition m result s = Ok 0 s' ∧
        dims s' result = Some (c, r) ∧
        ∀ i j, (i < Z.to_nat r)%nat → (j < Z.to_nat c)%nat →
          ∃ a, elem G i j = Some a ∧ read_elem result j i s' = Ok a s'.
Proof.
  intros Hv Hd Ho Hne Hg.
  destruct (matrix_transposition_spec s m result o G r c)
    as (rc & s' & E & _ & _ & _ & _ & [[_ Hng]|(-> & Hd' & _ & Hcells)]); try done.
  exists s'. split; [done|]. split; [done|]. intros i j Hi Hj.
  destruct (view_full_elem _ _ _ _ _ i j Hv Hd Hi Hj) as [a Ha].
  exists a. split; [done|]. apply read_elem_ok. by apply Hcells.
Qed.

(** What [matrix_sum] leaves when it succeeds. *)
Lemma summed s m1 m2 result o G1 G2 r c :
  view s m1 = Some (full G1) → view s m2 = Some (full G2) →
  dims s m1 = Some (r, c) → dims s m2 = Some (r, c) →
  objs s !! result = Some o → result ≠ m1 → result ≠ m2 → granted s →
  ∃ s' G', matrix_sum m1 m2 result s = Ok 0 s' ∧
    view s' result = Some (full G') ∧ dims s' result = Some (r, c) ∧
    (∀ i j a b, elem G1 i j = Some a → elem G2 i j = Some b →
       elem G' i j = Some (wrap (a + b))) ∧
    heap s ⊆ heap s' ∧ (∀ m', m' ≠ result → objs s' !! m' = objs s !! m') ∧
    granted s'.
Proof.
  intros Hv1 Hv2 Hd1 Hd2 Ho Hne1 Hne2 Hg.
  destruct (matrix_sum_spec s m1 m2 result o G1 G2 r c)
    as (rc & s' & E & Hsub & Hob & _ & [k Hk] & [[_ Hng]|(-> & Hd' & [g Hg'] & Hcells)]);
    try done.
  destruct (view_written s' result g r c Hg' Hd') as [G' ->].
  { intros i j Hi Hj.
    destruct (view_full_elem _ _ _ _ _ i j Hv1 Hd1 Hi Hj) as [a Ha].
    destruct (view_full_elem _ _ _ _ _ i j Hv2 Hd2 Hi Hj) as [b Hb].
    eexists. by apply (Hcells i j a b). }
  exists s', G'. split; [done|]. split; [done|]. split; [done|].
  split; [|split; [done|split; [done|by eapply granted_drop]]].
  intros i j a b Ha Hb. specialize (Hcells i j a b Ha Hb).
  rewrite (view_peek _ _ _ _ _ Hg'), elem_full in Hcells.
  destruct (elem G' i j); simpl in Hcells; congruence.
Qed.

(** X14. The sum does not depend on the order of its operands: the
    results of [matrix_sum] on [m1], [m2] and on [m2], [m1] are equal for
    [matrix_equal]. *)
Theorem matrix_sum_commutes s m1 m2 t1 t2 o1 o2 G1 G2 r c :
  view s m1 = Some (full G1) → view s m2 = Some (full G2) →
  dims s m1 = Some (r, c) → dims s m2 = Some (r, c) →
  objs s !! t1 = Some o1 → objs s !! t2 = Some o2 →
  t1 ≠ m1 → t1 ≠ m2 → t2 ≠ m1 → t2 ≠ m2 → t1 ≠ t2 → granted s →
  ∃ s1 s2, matrix_sum m1 m2 t1 s = Ok 0 s1 ∧
           matrix_sum m2 m1 t2 s1 = Ok 0 s2 ∧
           matrix_equal t1 t2 s2 = Ok 1 s2.
Proof.
  intros Hv1 Hv2 Hd1 Hd2 Ho1 Ho2 H11 H12 H21 H22 Hne Hg.
  destruct (summed s m1 m2 t1 o1 G1 G2 r c)
    as (s1 & S1 & E1 & HvS1 & HdS1 & HS1 & Hsub1 & Hob1 & Hg1); try done.
  assert (Hv1' : view s1 m1 = Some (full G1)).
  { eapply view_mono; [exact Hv1|done|]. by apply Hob1. }
  assert (Hv2' : view s1 m2 = Some (full G2)).
  { eapply view_mono; [exact Hv2|done|]. by apply Hob1. }
  destruct (summed s1 m2 m1 t2 o2 G2 G1 r c)
    as (s2 & S2 & E2 & HvS2 & HdS2 & HS2 & Hsub2 & Hob2 & Hg2); try done.
  { unfold dims in *. rewrite Hob1; done. }
  { unfold dims in *. rewrite Hob1; done. }
  { rewrite Hob1; done. }
  exists s1, s2. split; [done|]. split; [done|].
  assert (HvS1' : view s2 t1 = Some (full S1)).
  { eapply view_mono; [exact HvS1|done|]. by apply Hob2. }
  assert (HdS1' : dims s2 t1 = Some (r, c)).
  { unfold dims in *. rewrite Hob2; done. }
  destruct (matrix_equal_spec s2 t1 t2 S1 S2 r c HvS1' HvS2 HdS1' HdS2)
    as (rc & E & [[-> _]|(-> & i & j & Hi & Hj & Hdiff)]); [done|].
  exfalso. apply Hdiff.
  destruct (view_full_elem _ _ _ _ _ i j Hv1 Hd1 Hi Hj) as [a Ha].
  destruct (view_full_elem _ _ _ _ _ i j Hv2 Hd2 Hi Hj) as [b Hb].
  rewrite (HS1 i j a b Ha Hb), (HS2 i j b a Hb Ha). do 2 f_equal. lia.
Qed.

(** What [matrix_scalar_product] leaves when it succeeds. *)
Lemma scaled s m scalar result o G r c :
  view s m = Some (full G) → dims s m = Some (r, c) →
  objs s !! result = Some o → result ≠ m → granted s →
  ∃ s' G', matrix_scalar_product m scalar result s = Ok 0 s' ∧
    view s' result = Some (full G') ∧ dims s' result = Some (r, c) ∧
    (∀ i j a, elem G i j = Some a → elem G' i j = Some (wrap (a * scalar))) ∧
    heap s ⊆ heap s' ∧ (∀ m', m' ≠ result → objs s' !! m' = objs s !! m') ∧
    granted s'.
Proof.
  intros Hv Hd Ho Hne Hg.
  destruct (matrix_scalar_product_spec s m scalar result o G r c)
    as (rc & s' & E & Hsub & Hob & _ & [k Hk] & [[_ Hng]|(-> & Hd' & [g Hg'] & Hcells)]);
    try done.
  destruct (view_written s' result g r c Hg' Hd') as [G' ->].
  { intros i j Hi Hj.
    destruct (view_full_elem _ _ _ _ _ i j Hv Hd Hi Hj) as [a Ha].
    eexists. by apply (Hcells i j a). }
  exists s', G'. split; [done|]. split; [done|]. split; [done|].
  split; [|split; [done|split; [done|by eapply granted_drop]]].
  intros i j a Ha. specialize (Hcells i j a Ha).
  rewrite (view_peek _ _ _ _ _ Hg'), elem_full in Hcells.
  destruct (elem G' i j); simpl in Hcells; congruence.
Qed.

(** X15. The sum of a matrix with itself is its product by 2: the
    results of [matrix_sum] on [m], [m] and of [matrix_scalar_product] on
    [m], 2 are equal for [matrix_equal]. *)
Theorem sum_with_itself_is_double s m t1 t2 o1 o2 G r c :
  view s m = Some (full G) → dims s m = Some (r, c) →
  objs s !! t1 = Some o1 → objs s !! t2 = Some o2 →
  t1 ≠ m → t2 ≠ m → t1 ≠ t2 → granted s →
  ∃ s1 s2, matrix_sum m m t1 s = Ok 0 s1 ∧
           matrix_scalar_product m 2 t2 s1 = Ok 0 s2 ∧
           matrix_equal t1 t2 s2 = Ok 1 s2.
Proof.
  intros Hv Hd Ho1 Ho2 H1 H2 Hne Hg.
  destruct (summed s m m t1 o1 G G r c)
    as (s1 & S1 & E1 & HvS1 & HdS1 & HS1 & Hsub1 & Hob1 & Hg1); try done.
  assert (Hv' : view s1 m = Some (full G)).
  { eapply view_mono; [exact Hv|done|]. by apply Hob1. }
  destruct (scaled s1 m 2 t2 o2 G r c)
    as (s2 & S2 & E2 & HvS2 & HdS2 & HS2 & Hsub2 & Hob2 & Hg2); try done.
  { unfold dims in *. rewrite Hob1; done. }
  { rewrite Hob1; done. }
  exists s1, s2. split; [done|]. split; [done|].
  assert (HvS1' : view s2 t1 = Some (full S1)).
  { eapply view_mono; [exact HvS1|done|]. by apply Hob2. }
  assert (HdS1' : dims s2 t1 = Some (r, c)).
  { unfold dims in *. rewrite Hob2; done. }
  destruct (matrix_equal_spec s2 t1 t2 S1 S2 r c HvS1' HvS2 HdS1' HdS2)
    as (rc & E & [[-> _]|(-> & i & j & Hi & Hj & Hdiff)]); [done|].
  exfalso. apply Hdiff.
  destruct (view_full_elem _ _ _ _ _ i j Hv Hd Hi Hj) as [a Ha].
  rewrite (HS1 i j a a Ha Ha), (HS2 i j a Ha). do 2 f_equal. lia.
Qed.

(** ** The product with the identity *)

Lemma dot_ext a b a' b' n :
  (∀ k, (k < n)%nat → a k = a' k ∧ b k = b' k) → dot a b n = dot a' b' n.
Proof.
  induction n as [|n IH]; intros H; [done|].
  rewrite !dot_S, IH by (intros k Hk; apply H; lia).
  destruct (H n) as [-> ->]; [lia|done].
Qed.

(** The sum of the products with a column of the identity is one factor. *)
Lemma dot_unit a j n :
  in_int (a j) →
  dot a (λ k, if decide (k = j) then 1 else 0) n = if decide (j < n)%nat then a j else 0.
Proof.
  intros Ha. induction n as [|n IH]; [done|].
  rewrite dot_S, IH. destruct (decide (n = j)) as [->|Hne].
  - rewrite decide_False by lia. rewrite decide_True by lia.
    rewrite Z.mul_1_r, Z.add_0_l, (wrap_small (a j)) by done. by apply wrap_small.
  - rewrite Z.mul_0_r. change (wrap 0) with 0. rewrite Z.add_0_r.
    destruct (decide (j < n)%nat); [rewrite decide_True by lia|rewrite decide_False by lia].
    + by apply wrap_small.
    + done.
Qed.

(** X16. The identity is neutral for the product: for a matrix [m] of
    [n] columns, the product of [m] with a matrix allocated with [n] rows
    and [n] columns and set by [matrix_init_identity] is equal to [m] for
    [matrix_equal]. *)
Theorem product_by_identity s m e result oe o G r n :
  view s m = Some (full G) → dims s m = Some (r, n) → Forall (Forall in_int) G →
  objs s !! e = Some oe → objs s !! result = Some o →
  e ≠ m → result ≠ m → result ≠ e → granted s →
  ∃ s1 s2 s3,
    matrix_allocate e n n s = Ok 0 s1 ∧
    matrix_init_identity e s1 = Ok 0 s2 ∧
    matrix_product m e result s2 = Ok 0 s3 ∧
    matrix_equal result m s3 = Ok 1 s3.
Proof.
  intros Hv Hd Hint Hoe Ho Hem Hrm Hre Hg.
  destruct (view_dims _ _ _ Hv) as (c' & Hd' & Hn & Hr & _).
  rewrite Hd in Hd'. injection Hd' as Hr' <-.
  assert (Hr0 : 0 <= r <= INT_MAX) by lia. clear Hr Hr'.
  destruct (alloc_result s e oe n n Hoe Hn Hn)
    as (rc & s1 & E1 & Hsub1 & Hob1 & _ & [k1 Hk1] &
        [[_ Hng]|(-> & t & ls & Hsh1 & Hfresh & _)]); [done|].
  destruct (matrix_init_identity_spec s1 e n t ls Hsh1) as (s2 & E2 & Hso2 & Hsh2 & Hcells2).
  assert (Hsub2 : heap s ⊆ heap s2) by (by eapply subseteq_same_outside).
  assert (Hob2 : ∀ m', m' ≠ e → objs s2 !! m' = objs s !! m').
  { intros m' Hm'. rewrite (so_objs _ _ _ Hso2). by apply Hob1. }
  assert (Hg2 : granted s2).
  { unfold granted. rewrite (so_allocs _ _ _ Hso2). by eapply granted_drop. }
  destruct (view_of_cells (λ v, True) s2 e n n t ls Hsh2 Hn Hn) as (E & HvE & _).
  { intros i j Hi Hj. eexists. split; [by apply Hcells2|done]. }
  assert (HdE : dims s2 e = Some (n, n)).
  { unfold dims. by rewrite (shape_obj _ _ _ _ _ _ Hsh2). }
  assert (HE : ∀ i j, (i < Z.to_nat n)%nat → (j < Z.to_nat n)%nat →
            elem E i j = Some (if decide (i = j) then 1 else 0)).
  { intros i j Hi Hj. pose proof (Hcells2 i j Hi Hj) as Hp.
    rewrite (view_peek _ _ _ _ _ HvE), elem_full in Hp.
    destruct (elem E i j); simpl in Hp; congruence. }
  assert (Hv2 : view s2 m = Some (full G)).
  { eapply view_mono; [exact Hv|done|by apply Hob2]. }
  assert (Hd2 : dims s2 m = Some (r, n)).
  { unfold dims in *. by rewrite Hob2. }
  assert (Ho2 : objs s2 !! result = Some o) by (by rewrite Hob2).
  destruct (matrix_product_spec s2 m e result o G E r n n Hv2 HvE Ho2 Hrm Hre Hd2 HdE)
    as (rc & s3 & E3 & Hsub3 & Hob3 & _ & _ & [[_ Hng]|(-> & Hd3 & [g3 Hv3] & Hcells3)]);
    [done|].
  exists s1, s2, s3. split; [done|]. split; [done|]. split; [done|].
  destruct (view_written s3 result g3 r n Hv3 Hd3) as [P ->].
  { intros i j Hi Hj. eexists. by apply Hcells3. }
  assert (Hv3m : view s3 m = Some (full G)).
  { eapply view_mono; [exact Hv2|done|by apply Hob3]. }
  assert (Hd3m : dims s3 m = Some (r, n)).
  { unfold dims in *. by rewrite Hob3. }
  destruct (matrix_equal_spec s3 result m P G r n Hv3 Hv3m Hd3 Hd3m)
    as (rc & Eq & [[-> _]|(-> & i & j & Hi & Hj & Hdiff)]); [done|].
  exfalso. apply Hdiff.
  destruct (view_full_elem _ _ _ _ _ i j Hv Hd Hi Hj) as [a Ha].
  pose proof (Hcells3 i j Hi Hj) as Hp.
  rewrite (view_peek _ _ _ _ _ Hv3), elem_full in Hp.
  destruct (elem P i j) as [p|]; simpl in Hp; [|congruence].
  injection Hp as ->. rewrite Ha. f_equal.
  rewrite (dot_ext _ _ (λ k, entry G i k) (λ k, if decide (k = j) then 1 else 0)).
  - rewrite dot_unit.
    + rewrite decide_True by done. by apply entry_elem.
    + rewrite (entry_elem _ _ _ _ Ha).
      rewrite Forall_forall in Hint. unfold elem in Ha.
      destruct (G !! i) as [row|] eqn:Hrow; [|done].
      apply list_elem_of_lookup_2 in Hrow, Ha.
      specialize (Hint row Hrow). rewrite Forall_forall in Hint. by apply Hint.
  - intros k Hk. split; [done|]. unfold entry. by rewrite (HE k j Hk Hj).
Qed.

(** ** Numbers as text *)

Lemma digits_val_stop acc rest : no_digit rest → digits_val acc rest = acc.
Proof. destruct rest as [|c rest]; [done|]. simpl. by intros ->. Qed.

Lemma digits_val_acc d acc rest :
  no_digit rest →
  digits_val (Z.pos acc)
    (String.list_ascii_of_string (DecimalString.NilEmpty.string_of_uint d) ++ rest) =
  Z.pos (Pos.of_uint_acc d acc).
Proof.
  intros Hrest. revert acc.
  induction d as [|d IH|d IH|d IH|d IH|d IH|d IH|d IH|d IH|d IH|d IH]; intros acc;
    [by apply digits_val_stop|..];
    cbn [DecimalString.NilEmpty.string_of_uint String.list_ascii_of_string app
         digits_val Pos.of_uint_acc];
    change (digit_val _) with (Some 0) || change (digit_val _) with (Some 1) ||
    change (digit_val _) with (Some 2) || change (digit_val _) with (Some 3) ||
    change (digit_val _) with (Some 4) || change (digit_val _) with (Some 5) ||
    change (digit_val _) with (Some 6) || change (digit_val _) with (Some 7) ||
    change (digit_val _) with (Some 8) || change (digit_val _) with (Some 9);
    cbv iota; rewrite <- IH; f_equal; lia.
Qed.

Lemma digits_val_uint d rest :
  no_digit rest →
  digits_val 0
    (String.list_ascii_of_string (DecimalString.NilEmpty.string_of_uint d) ++ rest) =
  Z.of_N (Pos.of_uint d).
Proof.
  intros Hrest.
  induction d as [|d IH|d IH|d IH|d IH|d IH|d IH|d IH|d IH|d IH|d IH];
    [by apply digits_val_stop|exact IH|..];
    cbn [DecimalString.NilEmpty.string_of_uint String.list_ascii_of_string app
         digits_val Pos.of_uint];
    change (digit_val _) with (Some 1) ||
    change (digit_val _) with (Some 2) || change (digit_val _) with (Some 3) ||
    change (digit_val _) with (Some 4) || change (digit_val _) with (Some 5) ||
    change (digit_val _) with (Some 6) || change (digit_val _) with (Some 7) ||
    change (digit_val _) with (Some 8) || change (digit_val _) with (Some 9);
    cbv iota; by apply (digits_val_acc d _ rest).
Qed.

(** The digits that [%d] writes for a positive number start with a
    character that is a digit, and [strtol] reads the number back. *)
Lemma digits_val_pos p rest :
  no_digit rest →
  ∃ c l, String.list_ascii_of_string
           (DecimalString.NilZero.string_of_uint (Pos.to_uint p)) = c :: l ∧
         isspace c = false ∧ c ≠ "-"%char ∧ c ≠ "+"%char ∧
         digits_val 0 (c :: l ++ rest) = Z.pos p.
Proof.
  intros Hrest. pose proof (digits_val_uint (Pos.to_uint p) rest Hrest) as H.
  rewrite DecimalPos.Unsigned.of_to in H. simpl Z.of_N in H.
  destruct (Pos.to_uint p) as [|d|d|d|d|d|d|d|d|d|d];
    [simpl in H; by rewrite digits_val_stop in H|..];
    (eexists _, _; split; [cbn; reflexivity|]; split; [by vm_compute|];
     split; [discriminate|]; split; [discriminate|]; exact H).
Qed.

Lemma strtol_fmt_d v rest :
  no_digit rest → LONG_MIN <= v <= LONG_MAX → strtol (fmt_d v ++ rest) = v.
Proof.
  intros Hrest Hv. unfold strtol, fmt_d.
  destruct v as [|p|p]; simpl Z.to_int; cbn [DecimalString.NilZero.string_of_int].
  - change (String.list_ascii_of_string _) with ["0"%char].
    cbn [app skip_spaces]. change (isspace "0") with false. cbv iota.
    rewrite decide_False by done. rewrite decide_False by done.
    cbn [digits_val]. change (digit_val "0") with (Some 0). cbv iota.
    rewrite digits_val_stop by done. lia.
  - destruct (digits_val_pos p rest Hrest) as (c & l & -> & Hs & Hm & Hp & E).
    cbn [app skip_spaces]. rewrite Hs.
    rewrite decide_False by done. rewrite decide_False by done.
    rewrite E. lia.
  - destruct (digits_val_pos p rest Hrest) as (c & l & E0 & Hs & Hm & Hp & E).
    cbn [String.list_ascii_of_string]. rewrite E0.
    cbn [app skip_spaces]. change (isspace "-") with false. cbv iota.
    rewrite decide_True by done. rewrite E. lia.
Qed.

(** [atoi] reads back every [int] that [%d] has written, whatever
    follows the number, as long as it is not a digit. *)
Lemma atoi_fmt_d v rest :
  in_int v → no_digit rest → atoi (fmt_d v ++ rest) = v.
Proof.
  intros Hv Hrest. unfold atoi. rewrite strtol_fmt_d; [|done|].
  - by apply wrap_small.
  - unfold in_int, INT_MIN, INT_MAX, LONG_MIN, LONG_MAX in *. lia.
Qed.

(** ** Dump and parse *)

(** X17. [matrix_dump_file] on a well-formed, written matrix: when the
    file cannot be opened it returns -1 and changes nothing; otherwise it
    returns 0 and the file holds one line for each row, each number
    followed by a space, whatever the file held before. *)
Theorem dump_file_result s m path G :
  view s m = Some (full G) →
  matrix_dump_file m path s =
    if decide (path ∈ locked s) then Ok (-1) s
    else Ok 0 (set_files <[path := render G]> s).
Proof.
  intros Hv. destruct (decide (path ∈ locked s)) as [Hl|Hl].
  - unfold matrix_dump_file.
    erewrite bind_ok; [|unfold fopen_w; by rewrite decide_True]. done.
  - by apply matrix_dump_file_spec.
Qed.

(** X18. What the round trip gives: [matrix_dump_file] followed by
    [matrix_allocate_and_init_file] on the file written yields the
    matrix with one more column, of zeros; the newline that ends a line is
    the token read as 0. *)
Theorem round_trip_zero_column s m m2 o2 path G r c :
  view s m = Some (full G) → dims s m = Some (r, c) → 0 < r → 0 < c →
  Forall (Forall in_int) G →
  Forall (λ row, (length (render_row row) ≤ 1023)%nat) G →
  path ∉ locked s → objs s !! m2 = Some o2 → m2 ≠ m → granted s →
  ∃ s1 s2,
    matrix_dump_file m path s = Ok 0 s1 ∧
    matrix_allocate_and_init_file m2 path s1 = Ok 0 s2 ∧
    view s2 m2 = Some (full ((λ row, row ++ [0]) <$> G)) ∧
    view s2 m = Some (full G).
Proof.
  intros Hv Hd Hr Hc Hint Hlen Hl Ho2 Hne Hg.
  destruct (view_dims _ _ _ Hv) as (c' & Hd' & _ & Hmax & Hw).
  rewrite Hd in Hd'. injection Hd' as Hr' <-.
  unfold full in Hr', Hmax, Hw. rewrite length_map in Hr', Hmax.
  assert (Hrows : Forall (λ row, length row = Z.to_nat c) G).
  { rewrite Forall_forall in Hw. apply Forall_forall. intros row Hin.
    specialize (Hw (map Some row)).
    rewrite length_map in Hw. apply Hw. apply list_elem_of_fmap. by exists row. }
  assert (Hdata : data_lines (render G) = render_row <$> G).
  { apply data_lines_render. rewrite Forall_forall in Hrows, Hlen.
    apply Forall_forall. intros row Hin.
    split; [|by apply Hlen]. specialize (Hrows row Hin). destruct row; [simpl in *; lia|done]. }
  set (s1 := set_files <[path := render G]> s).
  assert (Hf1 : files s1 !! path = Some (render G)) by apply lookup_insert_eq.
  destruct (parse_file_spec s1 m2 o2 path (render G) Hf1 Ho2 Hg)
    as (s2 & E2 & _ & Hv2 & Hsub2 & Hob2).
  { rewrite Hdata, length_fmap. done. }
  exists s1, s2. split; [by apply matrix_dump_file_spec|]. split; [done|].
  split.
  - rewrite Hv2, Hdata. f_equal.
    assert (Hcols : first_columns (render_row <$> G) = S (Z.to_nat c)).
    { destruct G as [|row G']; [simpl in *; lia|]. simpl.
      rewrite tokens_render_row, length_app, length_fmap. simpl.
      apply Forall_cons in Hrows as [-> _]. lia. }
    rewrite Hcols, <- list_fmap_compose. unfold full.
    change (map (map Some) ?l) with ((map Some) <$> l).
    rewrite <- list_fmap_compose. apply Forall_fmap_ext_1.
    rewrite Forall_forall in Hrows, Hint. apply Forall_forall. intros row Hin.
    simpl. rewrite tokens_render_row. unfold parsed_row.
    rewrite take_take, Nat.min_id.
    rewrite take_ge by (rewrite length_app, length_fmap, (Hrows row Hin); simpl; lia).
    rewrite length_app, length_fmap, (Hrows row Hin). simpl length.
    replace (S (Z.to_nat c) - (Z.to_nat c + 1))%nat with 0%nat by lia.
    simpl replicate. rewrite app_nil_r, fmap_app.
    change (map Some ?l) with (Some <$> l). rewrite fmap_app. f_equal.
    rewrite <- list_fmap_compose. apply Forall_fmap_ext_1.
    eapply Forall_impl; [exact (Hint row Hin)|]. intros v Hv0. simpl. f_equal.
    rewrite <- (app_nil_r (fmt_d v)). by apply atoi_fmt_d.
  - eapply view_mono; [|exact Hsub2|by apply Hob2]. exact Hv.
Qed.

(** ** Files in the format of one row per line *)

Lemma tokens_one t : t ≠ [] → Forall (λ c, c ≠ space) t → tokens t = [t].
Proof.
  intros Hne Ht. unfold tokens, strtok_r. simpl default.
  destruct t as [|c t]; [done|]. apply Forall_cons in Ht as [Hc Ht].
  assert (Hnd : ∀ x, x ≠ space → bool_decide (x ∈ [space]) = false).
  { intros x Hx. apply bool_decide_eq_false. by intros ?%list_elem_of_singleton. }
  cbn [skip_delims]. rewrite (Hnd c Hc). cbn [token_end]. rewrite (Hnd c Hc).
  assert (Hte : token_end [space] t = (t, [])).
  { clear -Ht Hnd. induction Ht as [|x t Hx Ht IH]; simpl.
    - reflexivity.
    - by rewrite (Hnd x Hx), IH. }
  rewrite Hte. simpl length. cbn [strtok_loop]. simpl. by destruct (length t).
Qed.

Lemma fmt_d_no_space v : Forall (λ c, c ≠ space) (fmt_d v).
Proof.
  destruct (fmt_d_printable v) as [Hp _].
  eapply Forall_impl; [exact Hp|]. by intros c (? & _).
Qed.

(** The numbers that the parser reads on a line of a plain file. *)
Lemma atoi_tokens_plain_row row :
  row ≠ [] → Forall in_int row → atoi <$> tokens (plain_row row) = row.
Proof.
  intros Hne Hrow. unfold plain_row.
  induction Hrow as [|v row Hv Hrow IH]; [done|]. clear Hne.
  destruct (fmt_d_printable v) as [_ Hnev].
  destruct row as [|v' row].
  - simpl. rewrite tokens_one.
    + simpl. f_equal. by apply atoi_fmt_d.
    + by destruct (fmt_d v).
    + apply Forall_app. split; [apply fmt_d_no_space|by repeat constructor].
  - rewrite fmap_cons. change (join (fmt_d v :: (fmt_d <$> (v' :: row))))
      with (fmt_d v ++ space :: join (fmt_d <$> (v' :: row))).
    rewrite <- app_assoc, <- app_comm_cons. rewrite tokens_cons; [|done|apply fmt_d_no_space].
    rewrite fmap_cons, IH by done. f_equal.
    rewrite <- (app_nil_r (fmt_d v)). by apply atoi_fmt_d.
Qed.

Lemma plain_row_body row :
  Forall (λ c, c ≠ newline ∧ c ≠ NUL) (join (fmt_d <$> row)).
Proof.
  induction row as [|v row IH]; [constructor|].
  assert (Hv : Forall (λ c, c ≠ newline ∧ c ≠ NUL) (fmt_d v)).
  { destruct (fmt_d_printable v) as [Hp _].
    eapply Forall_impl; [exact Hp|]. by intros c (_ & ? & ?). }
  destruct row as [|v' row]; [exact Hv|].
  rewrite fmap_cons. change (join (fmt_d v :: (fmt_d <$> (v' :: row))))
    with (fmt_d v ++ space :: join (fmt_d <$> (v' :: row))).
  apply Forall_app. split; [exact Hv|]. constructor; [done|exact IH].
Qed.

Lemma skipped_plain_row row : row ≠ [] → skipped (plain_row row) = false.
Proof.
  intros Hne. destruct row as [|v row]; [done|]. unfold plain_row.
  destruct (fmt_d_printable v) as [Hp Hnev].
  assert (∃ c l, join (fmt_d <$> (v :: row)) = c :: l ∧ c ≠ newline) as (c & l & -> & Hc).
  { destruct (fmt_d v) as [|c l] eqn:E; [done|].
    apply Forall_cons in Hp as [(_ & Hc & _) _].
    rewrite fmap_cons, E. destruct (fmt_d <$> row); by eexists _, _. }
  simpl. by apply bool_decide_eq_false.
Qed.

(** The lines of a plain file are its rows, when no row is empty or
    longer than the buffer of [fgets]. *)
Lemma data_lines_plain G :
  Forall (λ row, row ≠ [] ∧ (length (plain_row row) ≤ 1023)%nat) G →
  data_lines (plain G) = plain_row <$> G.
Proof.
  induction 1 as [|row G [Hne Hlen] HG IH]; [done|].
  unfold plain. rewrite fmap_cons. simpl concat. fold (plain G).
  unfold data_lines. unfold plain_row at 1.
  rewrite fgets_all_line.
  - fold (plain_row row). rewrite filter_cons_True.
    + f_equal. exact IH.
    + by apply skipped_plain_row.
  - apply plain_row_body.
  - unfold plain_row in Hlen. rewrite length_app in Hlen. simpl in Hlen. lia.
Qed.

(** X19. The parser reads a plain file back: a file that holds one line
    for each row of a grid of [int]s, the numbers of a row separated by
    one space, gives the matrix of these rows. *)
Theorem parse_plain_file s m o path G c :
  files s !! path = Some (plain G) → objs s !! m = Some o → granted s →
  G ≠ [] → (0 < c)%nat → Z.of_nat (length G) <= INT_MAX →
  Forall (λ row, length row = c ∧ Forall in_int row ∧
                 (length (plain_row row) ≤ 1023)%nat) G →
  ∃ s', matrix_allocate_and_init_file m path s = Ok 0 s' ∧
        dims s' m = Some (Z.of_nat (length G), Z.of_nat c) ∧
        view s' m = Some (full G).
Proof.
  intros Hf Ho Hg Hne Hc Hmax HG.
  assert (Hdata : data_lines (plain G) = plain_row <$> G).
  { apply data_lines_plain. eapply Forall_impl; [exact HG|].
    intros row (Hl & _ & Hlen). split; [|done]. destruct row; [simpl in Hl; lia|done]. }
  assert (Hrows : Forall (λ row, atoi <$> tokens (plain_row row) = row) G).
  { eapply Forall_impl; [exact HG|]. intros row (Hl & Hin & _).
    apply atoi_tokens_plain_row; [|done]. destruct row; [simpl in Hl; lia|done]. }
  assert (Hlens : Forall (λ row, length (tokens (plain_row row)) = c) G).
  { apply Forall_forall. intros row Hin.
    rewrite Forall_forall in Hrows, HG. destruct (HG row Hin) as (Hl & _).
    rewrite <- Hl. rewrite <- (Hrows row Hin) at 2. by rewrite length_fmap. }
  assert (Hcols : first_columns (data_lines (plain G)) = c).
  { rewrite Hdata. destruct G as [|row G']; [done|]. simpl.
    by apply Forall_cons in Hlens as [? _]. }
  destruct (parse_file_spec s m o path (plain G) Hf Ho Hg) as (s' & E & Hd & Hv & _).
  { by rewrite Hdata, length_fmap. }
  exists s'. split; [done|]. rewrite Hcols, Hdata, length_fmap in Hd.
  split; [done|]. rewrite Hv, Hcols, Hdata. f_equal.
  rewrite <- list_fmap_compose. unfold full.
  change (map (map Some) G) with ((map Some) <$> G).
  apply Forall_fmap_ext_1.
  rewrite Forall_forall in Hrows, Hlens. apply Forall_forall. intros row Hin.
  simpl. unfold parsed_row. rewrite take_take, Nat.min_id.
  rewrite take_ge by (rewrite (Hlens row Hin); lia).
  rewrite (Hlens row Hin), Nat.sub_diag, app_nil_r.
  rewrite <- (Hrows row Hin) at 2.
  change (map Some ?l) with (Some <$> l).
  by rewrite <- list_fmap_compose.
Qed.

(** X20. A line with fewer tokens than the first line leaves the cells
    at the end of its row as [malloc] has given them: the call succeeds and
    these cells are never written. *)
Theorem short_line_leaves_cells_unset s m o path text i j line :
  files s !! path = Some text → objs s !! m = Some o → granted s →
  Z.of_nat (length (data_lines text)) <= INT_MAX →
  data_lines text !! i = Some line →
  (length (tokens line) ≤ j < first_columns (data_lines text))%nat →
  ∃ s', matrix_allocate_and_init_file m path s = Ok 0 s' ∧
        peek s' m i j = Some None ∧ read_elem m i j s' = Undef.
Proof.
  intros Hf Ho Hg Hmax Hline [Hj1 Hj2].
  destruct (parse_file_spec s m o path text Hf Ho Hg Hmax) as (s' & E & _ & Hv & _).
  exists s'. split; [done|].
  assert (Hp : peek s' m i j = Some None).
  { rewrite (view_peek _ _ _ _ _ Hv). unfold elem.
    rewrite list_lookup_fmap, Hline. simpl.
    rewrite parsed_row_lookup by done.
    rewrite lookup_take_lt by done.
    by rewrite (lookup_ge_None_2 _ _ Hj1). }
  split; [done|]. by rewrite read_elem_peek, Hp.
Qed.

Lemma data_lines_newlines text : Forall (λ c, c = newline) text → data_lines text = [].
Proof.
  induction 1 as [|c text -> _ IH]; [done|].
  unfold data_lines.
  change (newline :: text) with (([] ++ [newline]) ++ text).
  rewrite fgets_all_line; [|constructor|simpl; lia].
  by rewrite filter_cons_False.
Qed.

(** X21. A file of blank lines only, or an empty file, is read as the
    matrix without rows and columns, and the call succeeds. *)
Theorem parse_blank_file s m o path text :
  files s !! path = Some text → Forall (λ c, c = newline) text →
  objs s !! m = Some o → granted s →
  ∃ s', matrix_allocate_and_init_file m path s = Ok 0 s' ∧
        dims s' m = Some (0, 0) ∧ view s' m = Some [].
Proof.
  intros Hf Hb Ho Hg.
  destruct (parse_file_spec s m o path text Hf Ho Hg) as (s' & E & Hd & Hv & _).
  { rewrite (data_lines_newlines _ Hb). simpl. unfold INT_MAX. lia. }
  rewrite (data_lines_newlines _ Hb) in Hd, Hv. by exists s'.
Qed.

(** * The further properties at work *)

Lemma in_int_sample_grid :
  Forall (Forall in_int) [[1; 2]; [3; 4]] ∧
  Forall (Forall in_int) [[1; 2; 3]; [4; 5; 6]].
Proof. split; repeat constructor; by vm_compute. Defined.

Lemma allocate_granted_witness :
  (objs sample !! 3%positive = Some (Mat 0 0 NULL) ∧ granted sample) ∧
  ∃ s', matrix_allocate 3%positive 2 3 sample = Ok 0 s' ∧
    dims s' 3%positive = Some (2, 3) ∧
    view s' 3%positive = Some [[None; None; None]; [None; None; None]] ∧
    heap sample ⊆ heap s' ∧
    (∀ m', m' ≠ 3%positive → objs s' !! m' = objs sample !! m') ∧
    granted s'.
Proof.
  split; [split; (by vm_compute) || apply granted_sample|].
  apply (allocate_granted sample 3%positive (Mat 0 0 NULL) 2 3);
    (by vm_compute) || apply granted_sample.
Defined.

Lemma allocate_negative_witness :
  (objs sample !! 3%positive = Some (Mat 0 0 NULL) ∧ in_int (-1) ∧ -1 < 0) ∧
  ∃ s', matrix_allocate 3%positive (-1) 2 sample = Ok (-1) s' ∧
        dims s' 3%positive = Some (-1, 2) ∧ heap s' = heap sample.
Proof.
  split; [repeat split; by vm_compute|].
  apply (allocate_negative sample 3%positive (Mat 0 0 NULL) (-1) 2);
    [by vm_compute|by vm_compute|by vm_compute|left; lia].
Defined.

Lemma allocate_then_free_witness :
  (objs sample !! 3%positive = Some (Mat 0 0 NULL) ∧ granted sample) ∧
  ∃ s1 s2, matrix_allocate 3%positive 2 3 sample = Ok 0 s1 ∧
           matrix_free 3%positive s1 = Ok tt s2 ∧
           heap s2 = heap sample ∧
           objs s2 = <[3%positive := Mat 0 0 NULL]> (objs sample).
Proof.
  split; [split; (by vm_compute) || apply granted_sample|].
  apply (allocate_then_free sample 3%positive (Mat 0 0 NULL) 2 3);
    (by vm_compute) || apply granted_sample.
Defined.


Lemma free_after_row_failure_witness :
  (matrix_allocate 1%positive 2 3 refusing_row =
     Ok (-1) (State {[1%positive := Mat 2 3 (Ptr 1%positive)]} ∅ [] ∅ ∅ 0 0) ∧
   next_grant refusing_row = true) ∧
  matrix_free 1%positive
    (State {[1%positive := Mat 2 3 (Ptr 1%positive)]} ∅ [] ∅ ∅ 0 0) = Undef.
Proof.
  assert (E : matrix_allocate 1%positive 2 3 refusing_row =
              Ok (-1) (State {[1%positive := Mat 2 3 (Ptr 1%positive)]} ∅ [] ∅ ∅ 0 0))
    by (vm_compute; reflexivity).
  split; [by split|].
  apply (free_after_row_failure refusing_row 1%positive (Mat 0 0 NULL) 2 3 _);
    [by vm_compute|by vm_compute|by vm_compute|exact E|reflexivity|lia].
Defined.

Lemma allocate_keeps_old_storage_witness :
  (objs sample !! 1%positive = Some (Mat 2 2 (Ptr 10%positive)) ∧
   heap sample !! 10%positive =
     Some (BPtrs [Some (Ptr 11%positive); Some (Ptr 12%positive)])) ∧
  ∃ s', matrix_allocate 1%positive 1 1 sample = Ok 0 s' ∧
    heap sample ⊆ heap s' ∧
    heap s' !! 10%positive =
      Some (BPtrs [Some (Ptr 11%positive); Some (Ptr 12%positive)]) ∧
    ∃ t, objs s' !! 1%positive = Some (Mat 1 1 (Ptr t)) ∧ t ≠ 10%positive.
Proof.
  split; [split; by vm_compute|].
  eexists. split; [vm_compute; reflexivity|].
  apply (allocate_keeps_old_storage sample 1%positive 2 2 10%positive
           (BPtrs [Some (Ptr 11%positive); Some (Ptr 12%positive)]) 1 1);
    (by vm_compute) || (vm_compute; reflexivity).
Defined.

Lemma init_n_fills_witness :
  (view sample 1%positive = Some (full [[1; 2]; [3; 4]]) ∧
   dims sample 1%positive = Some (2, 2)) ∧
  ∃ s', matrix_init_n 1%positive 9 sample = Ok tt s' ∧ objs s' = objs sample ∧
        view s' 1%positive = Some (full [[9; 9]; [9; 9]]) ∧
        (9 = 0 → matrix_init_zeros 1%positive sample = Ok tt s').
Proof.
  split; [split; by vm_compute|].
  apply (init_n_fills sample 1%positive (full [[1; 2]; [3; 4]]) 2 2 9); by vm_compute.
Defined.

Lemma init_rand_within_bounds_witness :
  (view sample 1%positive = Some (full [[1; 2]; [3; 4]]) ∧
   in_int 3 ∧ in_int 7 ∧ 3 <= 7 ∧ 7 - 3 < INT_MAX) ∧
  ∃ s' G, matrix_init_rand 1%positive 3 7 sample = Ok 0 s' ∧
          dims s' 1%positive = dims sample 1%positive ∧
          view s' 1%positive = Some (full G) ∧
          Forall (Forall (λ v, 3 <= v <= 7)) G.
Proof.
  split; [repeat split; by vm_compute|].
  apply (init_rand_within_bounds sample 1%positive (full [[1; 2]; [3; 4]]) 3 7);
    by vm_compute.
Defined.

Lemma init_rand_full_range_witness :
  (dims sample 1%positive = Some (2, 2) ∧ 0 < 2) ∧
  matrix_init_rand 1%positive INT_MIN INT_MAX sample = Undef.
Proof.
  split; [split; by vm_compute|].
  apply (init_rand_full_range sample 1%positive 2 2); by vm_compute.
Defined.

Lemma matrix_equal_decides_witness :
  (view sample 1%positive = Some (full [[1; 2]; [3; 4]]) ∧
   view sample 2%positive = Some (full [[5; 6]; [7; 8]])) ∧
  matrix_equal 1%positive 2%positive sample =
    Ok (if decide (dims sample 1%positive = dims sample 2%positive ∧
                   [[1; 2]; [3; 4]] = [[5; 6]; [7; 8]]) then 1 else 0) sample.
Proof.
  split; [split; by vm_compute|].
  apply (matrix_equal_decides sample 1%positive 2%positive); by vm_compute.
Defined.

Lemma matrix_equal_symmetric_witness :
  (view sample 1%positive = Some (full [[1; 2]; [3; 4]]) ∧
   view sample 2%positive = Some (full [[5; 6]; [7; 8]])) ∧
  matrix_equal 1%positive 2%positive sample =
    matrix_equal 2%positive 1%positive sample ∧
  matrix_equal 1%positive 1%positive sample = Ok 1 sample.
Proof.
  split; [split; by vm_compute|].
  apply (matrix_equal_symmetric sample 1%positive 2%positive
           [[1; 2]; [3; 4]] [[5; 6]; [7; 8]]); by vm_compute.
Defined.

Lemma matrix_scalar_product_correct_witness :
  (view sample 1%positive = Some (full [[1; 2]; [3; 4]]) ∧
   dims sample 1%positive = Some (2, 2) ∧ granted sample) ∧
  ∃ s', matrix_scalar_product 1%positive 7 3%positive sample = Ok 0 s' ∧
        dims s' 3%positive = Some (2, 2) ∧
        ∀ i j, (i < 2)%nat → (j < 2)%nat →
          ∃ a, elem [[1; 2]; [3; 4]] i j = Some a ∧
               read_elem 3%positive i j s' = Ok (wrap (a * 7)) s'.
Proof.
  split; [repeat split; (by vm_compute) || apply granted_sample|].
  apply (matrix_scalar_product_correct sample 1%positive 7 3%positive (Mat 0 0 NULL)
           [[1; 2]; [3; 4]] 2 2);
    (by vm_compute) || apply granted_sample.
Defined.

Lemma matrix_transposition_correct_witness :
  (view sample 5%positive = Some (full [[1; 2; 3]; [4; 5; 6]]) ∧
   dims sample 5%positive = Some (2, 3) ∧ granted sample) ∧
  ∃ s', matrix_transposition 5%positive 3%positive sample = Ok 0 s' ∧
        dims s' 3%positive = Some (3, 2) ∧
        ∀ i j, (i < 2)%nat → (j < 3)%nat →
          ∃ a, elem [[1; 2; 3]; [4; 5; 6]] i j = Some a ∧
               read_elem 3%positive j i s' = Ok a s'.
Proof.
  split; [repeat split; (by vm_compute) || apply granted_sample|].
  apply (matrix_transposition_correct sample 5%positive 3%positive (Mat 0 0 NULL)
           [[1; 2; 3]; [4; 5; 6]] 2 3);
    (by vm_compute) || apply granted_sample.
Defined.

Lemma matrix_sum_commutes_witness :
  (view sample 1%positive = Some (full [[1; 2]; [3; 4]]) ∧
   view sample 2%positive = Some (full [[5; 6]; [7; 8]]) ∧
   dims sample 1%positive = Some (2, 2) ∧ dims sample 2%positive = Some (2, 2) ∧
   granted sample) ∧
  ∃ s1 s2, matrix_sum 1%positive 2%positive 3%positive sample = Ok 0 s1 ∧
           matrix_sum 2%positive 1%positive 4%positive s1 = Ok 0 s2 ∧
           matrix_equal 3%positive 4%positive s2 = Ok 1 s2.
Proof.
  split; [repeat split; (by vm_compute) || apply granted_sample|].
  apply (matrix_sum_commutes sample 1%positive 2%positive 3%positive 4%positive
           (Mat 0 0 NULL) (Mat 0 0 NULL) [[1; 2]; [3; 4]] [[5; 6]; [7; 8]] 2 2);
    (by vm_compute) || apply granted_sample.
Defined.

Lemma sum_with_itself_is_double_witness :
  (view sample 1%positive = Some (full [[1; 2]; [3; 4]]) ∧
   dims sample 1%positive = Some (2, 2) ∧ granted sample) ∧
  ∃ s1 s2, matrix_sum 1%positive 1%positive 3%positive sample = Ok 0 s1 ∧
           matrix_scalar_product 1%positive 2 4%positive s1 = Ok 0 s2 ∧
           matrix_equal 3%positive 4%positive s2 = Ok 1 s2.
Proof.
  split; [repeat split; (by vm_compute) || apply granted_sample|].
  apply (sum_with_itself_is_double sample 1%positive 3%positive 4%positive
           (Mat 0 0 NULL) (Mat 0 0 NULL) [[1; 2]; [3; 4]] 2 2);
    (by vm_compute) || apply granted_sample.
Defined.

Lemma product_by_identity_witness :
  (view sample 5%positive = Some (full [[1; 2; 3]; [4; 5; 6]]) ∧
   dims sample 5%positive = Some (2, 3) ∧
   Forall (Forall in_int) [[1; 2; 3]; [4; 5; 6]] ∧ granted sample) ∧
  ∃ s1 s2 s3,
    matrix_allocate 3%positive 3 3 sample = Ok 0 s1 ∧
    matrix_init_identity 3%positive s1 = Ok 0 s2 ∧
    matrix_product 5%positive 3%positive 4%positive s2 = Ok 0 s3 ∧
    matrix_equal 4%positive 5%positive s3 = Ok 1 s3.
Proof.
  split.
  { split; [by vm_compute|]. split; [by vm_compute|].
    split; [apply (proj2 in_int_sample_grid)|apply granted_sample]. }
  apply (product_by_identity sample 5%positive 3%positive 4%positive
           (Mat 0 0 NULL) (Mat 0 0 NULL) [[1; 2; 3]; [4; 5; 6]] 2 3);
    first [apply (proj2 in_int_sample_grid)|apply granted_sample|by vm_compute].
Defined.

Lemma dump_file_result_witness :
  view sample 1%positive = Some (full [[1; 2]; [3; 4]]) ∧
  matrix_dump_file 1%positive "out.txt" sample =
    if decide ("out.txt"%string ∈ locked sample) then Ok (-1) sample
    else Ok 0 (set_files <["out.txt"%string := render [[1; 2]; [3; 4]]]> sample).
Proof.
  split; [by vm_compute|].
  apply (dump_file_result sample 1%positive "out.txt" [[1; 2]; [3; 4]]). by vm_compute.
Defined.

Lemma round_trip_zero_column_witness :
  (view sample 1%positive = Some (full [[1; 2]; [3; 4]]) ∧
   dims sample 1%positive = Some (2, 2) ∧
   Forall (Forall in_int) [[1; 2]; [3; 4]] ∧
   Forall (λ row, (length (render_row row) ≤ 1023)%nat) [[1; 2]; [3; 4]] ∧
   ("out.txt"%string ∉ locked sample) ∧ granted sample) ∧
  ∃ s1 s2,
    matrix_dump_file 1%positive "out.txt" sample = Ok 0 s1 ∧
    matrix_allocate_and_init_file 3%positive "out.txt" s1 = Ok 0 s2 ∧
    view s2 3%positive = Some (full [[1; 2; 0]; [3; 4; 0]]) ∧
    view s2 1%positive = Some (full [[1; 2]; [3; 4]]).
Proof.
  assert (Hlen : Forall (λ row, (length (render_row row) ≤ 1023)%nat)
                   [[1; 2]; [3; 4]]).
  { repeat constructor; apply Nat.leb_le; by vm_compute. }
  assert (Hl : "out.txt"%string ∉ locked sample) by (by vm_compute).
  split.
  { split; [by vm_compute|]. split; [by vm_compute|].
    split; [apply (proj1 in_int_sample_grid)|]. split; [exact Hlen|].
    split; [exact Hl|apply granted_sample]. }
  apply (round_trip_zero_column sample 1%positive 3%positive (Mat 0 0 NULL) "out.txt"
           [[1; 2]; [3; 4]] 2 2);
    first [apply (proj1 in_int_sample_grid)|exact Hlen|exact Hl|apply granted_sample
          |by vm_compute].
Defined.

Lemma parse_plain_file_witness :
  (files sample !! "plain.txt"%string = Some (plain [[1; 2]; [3; 4]]) ∧
   granted sample ∧
   Forall (λ row, length row = 2%nat ∧ Forall in_int row ∧
                  (length (plain_row row) ≤ 1023)%nat) [[1; 2]; [3; 4]]) ∧
  ∃ s', matrix_allocate_and_init_file 3%positive "plain.txt" sample = Ok 0 s' ∧
        dims s' 3%positive = Some (2, 2) ∧
        view s' 3%positive = Some (full [[1; 2]; [3; 4]]).
Proof.
  assert (HG : Forall (λ row, length row = 2%nat ∧ Forall in_int row ∧
                              (length (plain_row row) ≤ 1023)%nat) [[1; 2]; [3; 4]]).
  { repeat constructor; first [apply Nat.leb_le; by vm_compute|by vm_compute]. }
  split; [split; [by vm_compute|split; [apply granted_sample|exact HG]]|].
  apply (parse_plain_file sample 3%positive (Mat 0 0 NULL) "plain.txt"
           [[1; 2]; [3; 4]] 2);
    first [exact HG|apply granted_sample|lia|by vm_compute].
Defined.

Lemma short_line_leaves_cells_unset_witness :
  (files sample !! "extra.txt"%string =
     Some (text_line "1 2" ++ text_line "3 4 5 6" ++ text_line "7") ∧
   data_lines (text_line "1 2" ++ text_line "3 4 5 6" ++ text_line "7") !! 2%nat =
     Some (text_line "7") ∧
   (length (tokens (text_line "7")) ≤ 1 <
      first_columns (data_lines (text_line "1 2" ++ text_line "3 4 5 6" ++
                                 text_line "7")))%nat ∧
   granted sample) ∧
  ∃ s', matrix_allocate_and_init_file 3%positive "extra.txt" sample = Ok 0 s' ∧
        peek s' 3%positive 2 1 = Some None ∧
        read_elem 3%positive 2 1 s' = Undef.
Proof.
  assert (Hj : (length (tokens (text_line "7")) ≤ 1 <
      first_columns (data_lines (text_line "1 2" ++ text_line "3 4 5 6" ++
                                 text_line "7")))%nat).
  { split; apply Nat.leb_le; by vm_compute. }
  split; [split; [by vm_compute|split; [by vm_compute|split; [exact Hj|apply granted_sample]]]|].
  apply (short_line_leaves_cells_unset sample 3%positive (Mat 0 0 NULL) "extra.txt"
           (text_line "1 2" ++ text_line "3 4 5 6" ++ text_line "7") 2 1
           (text_line "7"));
    try (by vm_compute); try apply granted_sample; exact Hj.
Defined.

Lemma parse_blank_file_witness :
  (files (set_files <["blank-only.txt"%string := [newline; newline]]> sample)
     !! "blank-only.txt"%string = Some [newline; newline] ∧
   granted (set_files <["blank-only.txt"%string := [newline; newline]]> sample)) ∧
  ∃ s', matrix_allocate_and_init_file 3%positive "blank-only.txt"
          (set_files <["blank-only.txt"%string := [newline; newline]]> sample) =
          Ok 0 s' ∧
        dims s' 3%positive = Some (0, 0) ∧ view s' 3%positive = Some [].
Proof.
  split; [split; [by vm_compute|apply granted_sample]|].
  apply (parse_blank_file _ 3%positive (Mat 0 0 NULL) "blank-only.txt"
           [newline; newline]);
    [by vm_compute|by repeat constructor|by vm_compute|apply granted_sample].
Defined.
